(** * Shipi MCP server: a shallow embedding of [index.js]

    The server registers eighteen tools.  Every tool validates its
    arguments against a schema, turns them into one HTTP request
    against the Shipi backend through [shipiRequest], and returns the
    parsed answer as indented JSON text.

    Conventions of the model:
    - a JavaScript value is a term of [value]; numbers are the integers
      ([Z]), so fractional, infinite and NaN numbers are outside the model;
    - one character of a [string] stands for one code unit of the
      JavaScript string;
    - an object is an association list in insertion order with unique
      keys (what [Object.entries] enumerates); a value holds no
      function, as the values that JSON and the validator deliver, so
      that a property of an object is never callable;
    - [fetch], [JSON.parse] and the environment of the process belong
      to the platform: they are variables of the section that holds
      the server; the import of the fetch module succeeds, and what the
      network throws is an error with a message;
    - the schema library and the dispatch of the protocol library are
      not part of the sources: [parse] and [call_tool] model them. *)

From Stdlib Require Import String Ascii List ZArith Lia Bool DecimalString.
Import ListNotations.
Local Open Scope list_scope.
Local Open Scope string_scope.
Local Set Warnings "-register-all".

(** ** JavaScript values *)

Inductive value : Type :=
| VUndef
| VNull
| VBool (b : bool)
| VNum (n : Z)
| VStr (s : string)
| VArr (items : list value)
| VObj (props : list (string * value)).

Definition obj : Type := list (string * value).

Module JS.

(** Property lookup on an object: the first binding of the key. *)
Fixpoint lookup (k : string) (o : obj) : option value :=
  match o with
  | [] => None
  | (k', v) :: rest => if String.eqb k' k then Some v else lookup k rest
  end.

(** [o.k] on an object: [undefined] when the key is not there. *)
Definition get (o : obj) (k : string) : value :=
  match lookup k o with
  | Some v => v
  | None => VUndef
  end.

Definition keys (o : obj) : list string := map fst o.

Definition has (o : obj) (k : string) : bool :=
  match lookup k o with Some _ => true | None => false end.

(** [o.k = v]: an existing key keeps its place, a new one goes last. *)
Fixpoint set (k : string) (v : value) (o : obj) : obj :=
  match o with
  | [] => [(k, v)]
  | (k', v') :: rest =>
      if String.eqb k' k then (k, v) :: rest else (k', v') :: set k v rest
  end.

(** [{ ...base, ...ext }]: the entries of [ext] assigned in order. *)
Definition spread (base ext : obj) : obj :=
  fold_left (fun acc kv => set (fst kv) (snd kv) acc) ext base.

(** ToBoolean. *)
Definition truthy (v : value) : bool :=
  match v with
  | VUndef | VNull => false
  | VBool b => b
  | VNum n => negb (Z.eqb n 0)
  | VStr s => negb (String.eqb s "")
  | VArr _ | VObj _ => true
  end.

(** [a || b]. *)
Definition or (a b : value) : value := if truthy a then a else b.

Definition Z_to_string (n : Z) : string :=
  NilZero.string_of_int (Z.to_int n).

Fixpoint join (sep : string) (l : list string) : string :=
  match l with
  | [] => ""
  | [s] => s
  | s :: rest => s ++ sep ++ join sep rest
  end.

(** Whether [String(v)] returns.  The conversion of an object calls its
    [toString]: [Object.prototype.toString] unless the object has a
    property of that name of its own, and such a property of a value
    that came as JSON is never a function, so that the conversion
    throws a TypeError ([valueOf] gives back the object, or is not a
    function either).  An array converts its elements, [undefined] and
    [null] apart, and throws when one of them does. *)
Fixpoint stringable (v : value) : bool :=
  match v with
  | VArr items =>
      (fix each (l : list value) : bool :=
         match l with
         | [] => true
         | x :: r => stringable x && each r
         end) items
  | VObj props => negb (has props "toString")
  | _ => true
  end.

(** The string [String(v)] returns, when it returns: on the values
    that are [stringable]. *)
Fixpoint to_string (v : value) : string :=
  match v with
  | VUndef => "undefined"
  | VNull => "null"
  | VBool true => "true"
  | VBool false => "false"
  | VNum n => Z_to_string n
  | VStr s => s
  | VArr items =>
      join ","
        ((fix each (l : list value) : list string :=
            match l with
            | [] => []
            | VUndef :: r => "" :: each r
            | VNull :: r => "" :: each r
            | x :: r => to_string x :: each r
            end) items)
  | VObj _ => "[object Object]"
  end.

(** [text.substring(0, n)]. *)
Definition substring0 (n : nat) (s : string) : string := String.substring 0 n s.

End JS.

(** ** JSON.stringify *)

Module JSON.

Definition dquote : ascii := ascii_of_nat 34.
Definition backslash : ascii := ascii_of_nat 92.

Definition hex_digit (n : nat) : ascii :=
  ascii_of_nat (if Nat.ltb n 10 then 48 + n else 87 + n).

(** The escape of one code unit inside a JSON string. *)
Definition escape (c : ascii) : string :=
  let n := nat_of_ascii c in
  if Nat.eqb n 34 then String backslash (String dquote "")
  else if Nat.eqb n 92 then String backslash (String backslash "")
  else if Nat.eqb n 8 then String backslash "b"
  else if Nat.eqb n 9 then String backslash "t"
  else if Nat.eqb n 10 then String backslash "n"
  else if Nat.eqb n 12 then String backslash "f"
  else if Nat.eqb n 13 then String backslash "r"
  else if Nat.ltb n 32 then
    String backslash
      ("u00" ++ String (hex_digit (n / 16)) (String (hex_digit (n mod 16)) ""))
  else String c "".

Fixpoint escape_all (s : string) : string :=
  match s with
  | EmptyString => ""
  | String c rest => escape c ++ escape_all rest
  end.

Definition quote (s : string) : string :=
  String dquote (escape_all s ++ String dquote "").

Definition newline : string := String (ascii_of_nat 10) "".

(** The brackets around the serialized members, with the line breaks
    and indentation [JSON.stringify] inserts when a gap is given. *)
Definition wrap (opening closing gap stepback : string) (partial : list string) : string :=
  match partial with
  | [] => opening ++ closing
  | _ =>
      if String.eqb gap "" then opening ++ JS.join "," partial ++ closing
      else
        let indent := stepback ++ gap in
        opening ++ newline ++ indent
          ++ JS.join ("," ++ newline ++ indent) partial
          ++ newline ++ stepback ++ closing
  end.

(** SerializeJSONProperty: [None] stands for the result [undefined]. *)
Fixpoint serialize (gap indent : string) (v : value) {struct v} : option string :=
  match v with
  | VUndef => None
  | VNull => Some "null"
  | VBool true => Some "true"
  | VBool false => Some "false"
  | VNum n => Some (JS.Z_to_string n)
  | VStr s => Some (quote s)
  | VArr items =>
      let inner := indent ++ gap in
      Some (wrap "[" "]" gap indent
              ((fix each (l : list value) : list string :=
                  match l with
                  | [] => []
                  | x :: r =>
                      match serialize gap inner x with
                      | Some s => s
                      | None => "null"
                      end :: each r
                  end) items))
  | VObj props =>
      let inner := indent ++ gap in
      let colon := if String.eqb gap "" then ":" else ": " in
      Some (wrap "{" "}" gap indent
              ((fix each (l : list (string * value)) : list string :=
                  match l with
                  | [] => []
                  | (k, x) :: r =>
                      match serialize gap inner x with
                      | Some s => (quote k ++ colon ++ s) :: each r
                      | None => each r
                      end
                  end) props))
  end.

(** [JSON.stringify(v)]. *)
Definition stringify (v : value) : option string := serialize "" "" v.

(** [JSON.stringify(v, null, 2)]. *)
Definition stringify_indent2 (v : value) : option string := serialize "  " "" v.

End JSON.

(** ** URLSearchParams *)

Module URLSearchParams.

Definition t : Type := list (string * string).

Definition empty : t := [].

(** [qs.get(k)]: the value of the first pair named [k]. *)
Fixpoint get (k : string) (qs : t) : option string :=
  match qs with
  | [] => None
  | (k', v) :: rest => if String.eqb k' k then Some v else get k rest
  end.

(** [qs.set(k, v)]: the first pair named [k] takes the value and the
    other pairs of that name go; without such a pair, one is appended. *)
Fixpoint set (k v : string) (qs : t) : t :=
  match qs with
  | [] => [(k, v)]
  | (k', v') :: rest =>
      if String.eqb k' k
      then (k, v) :: filter (fun p => negb (String.eqb (fst p) k)) rest
      else (k', v') :: set k v rest
  end.

Definition between (lo hi n : nat) : bool := Nat.leb lo n && Nat.leb n hi.

(** Code units the form-urlencoded serializer leaves as they are. *)
Definition unreserved (c : ascii) : bool :=
  let n := nat_of_ascii c in
  between 48 57 n || between 65 90 n || between 97 122 n
  || Nat.eqb n 42 || Nat.eqb n 45 || Nat.eqb n 46 || Nat.eqb n 95.

Definition HEX_digit (n : nat) : ascii :=
  ascii_of_nat (if Nat.ltb n 10 then 48 + n else 55 + n).

Definition encode_char (c : ascii) : string :=
  let n := nat_of_ascii c in
  if unreserved c then String c ""
  else if Nat.eqb n 32 then "+"
  else String "%" (String (HEX_digit (n / 16)) (String (HEX_digit (n mod 16)) "")).

Fixpoint encode (s : string) : string :=
  match s with
  | EmptyString => ""
  | String c rest => encode_char c ++ encode rest
  end.

(** [qs.toString()]. *)
Definition toString (qs : t) : string :=
  JS.join "&" (map (fun p => encode (fst p) ++ "=" ++ encode (snd p)) qs).

End URLSearchParams.

(** ** The network and the effects of a call *)

Inductive result (A : Type) : Type :=
| Ok (a : A)
| Throw (message : string).
Arguments Ok {A} a.
Arguments Throw {A} message.

Record RequestInit : Type := {
  init_method : string;
  init_headers : list (string * string);
  init_body : option string
}.

(** What the server reads of a response: [response.text()] gives the
    body or rejects.  The status is there and never read. *)
Record Response : Type := {
  resp_status : Z;
  resp_text : result string
}.

(** Two answers of the network that differ in nothing but the status. *)
Definition same_but_status (a b : result Response) : Prop :=
  match a, b with
  | Throw e1, Throw e2 => e1 = e2
  | Ok r1, Ok r2 => resp_text r1 = resp_text r2
  | _, _ => False
  end.

(** A request as [shipiRequest] builds it, before it is put on the wire. *)
Inductive outbound : Type :=
| OutGet (url : string) (qs : URLSearchParams.t)
| OutPost (url : string) (body : obj).

(** The two arguments of the call of [fetch]. *)
Definition wire (o : outbound) : string * RequestInit :=
  match o with
  | OutGet url qs =>
      (url ++ "?" ++ URLSearchParams.toString qs,
       {| init_method := "GET";
          init_headers := [("Accept", "application/json")];
          init_body := None |})
  | OutPost url body =>
      (url,
       {| init_method := "POST";
          init_headers := [("Content-Type", "application/json");
                           ("Accept", "application/json")];
          init_body := JSON.stringify (VObj body) |})
  end.

(** A computation that may issue requests and may throw: the state is
    the list of the requests issued so far, oldest first. *)
Definition M (A : Type) : Type := list outbound -> result A * list outbound.

Definition ret {A : Type} (a : A) : M A := fun log => (Ok a, log).

Definition throw {A : Type} (message : string) : M A := fun log => (Throw message, log).

Definition bind {A B : Type} (m : M A) (k : A -> M B) : M B :=
  fun log =>
    match m log with
    | (Ok a, log') => k a log'
    | (Throw e, log') => (Throw e, log')
    end.

(** [try { m } catch (err) { handler(err.message) }]. *)
Definition try_catch {A : Type} (m : M A) (handler : string -> M A) : M A :=
  fun log =>
    match m log with
    | (Ok a, log') => (Ok a, log')
    | (Throw e, log') => handler e log'
    end.

Notation "x <- m ;; k" := (bind m (fun x => k))
  (at level 61, m at next level, right associativity).

Fixpoint mapM {A B : Type} (f : A -> M B) (l : list A) : M (list B) :=
  match l with
  | [] => ret []
  | x :: rest => y <- f x ;; ys <- mapM f rest ;; ret (y :: ys)
  end.

(** [for (const x of l) acc = f(acc, x)], with a body that may throw. *)
Fixpoint foldM {A B : Type} (f : A -> B -> M A) (l : list B) (acc : A) : M A :=
  match l with
  | [] => ret acc
  | x :: rest => acc' <- f acc x ;; foldM f rest acc'
  end.

(** [String(v)], and the conversion of an argument that a method wants
    as a string: the string, or the TypeError. *)
Definition String_ (v : value) : M string :=
  if JS.stringable v
  then ret (JS.to_string v)
  else throw "Cannot convert object to primitive value".

(** [v.k] on any value: a TypeError on [undefined] and [null]; of the
    properties the handlers read, strings and arrays have [length];
    booleans and numbers have none. *)
Definition prop (v : value) (k : string) : M value :=
  match v with
  | VUndef | VNull => throw "TypeError: Cannot read properties of undefined"
  | VObj o => ret (JS.get o k)
  | VStr s =>
      ret (if String.eqb k "length" then VNum (Z.of_nat (String.length s)) else VUndef)
  | VArr items =>
      ret (if String.eqb k "length" then VNum (Z.of_nat (List.length items)) else VUndef)
  | VBool _ | VNum _ => ret VUndef
  end.

(** [v.map(f)]: defined on arrays only. *)
Definition array_map (f : value -> M value) (v : value) : M value :=
  match v with
  | VArr items => out <- mapM f items ;; ret (VArr out)
  | VUndef | VNull => throw "TypeError: Cannot read properties of undefined"
  | _ => throw "TypeError: map is not a function"
  end.

(** ** Parameter schemas *)

Inductive schema : Type :=
| ZString
| ZNumber
| ZOptional (inner : schema)
| ZDefault (inner : schema) (d : value)
| ZObject (shape : list (string * schema))
| ZArray (element : schema).

Definition is_undefined (v : value) : bool :=
  match v with VUndef => true | _ => false end.

(** Modelled from the spec: the Parameter Validator, which is the schema
    library the server imports and not part of the sources.  A string or
    number schema accepts the values of its type; an optional one also
    accepts [undefined]; a default replaces [undefined] before the inner
    schema is tried; an object schema validates its declared fields in
    the order of the declaration, ignores unknown fields and leaves out a
    field that is absent and stays [undefined]; an array schema validates
    every element.  [None] is the ValidationError. *)
Fixpoint parse (s : schema) (v : value) {struct s} : option value :=
  match s with
  | ZString => match v with VStr _ => Some v | _ => None end
  | ZNumber => match v with VNum _ => Some v | _ => None end
  | ZOptional inner =>
      match v with VUndef => Some VUndef | _ => parse inner v end
  | ZDefault inner d =>
      match v with VUndef => parse inner d | _ => parse inner v end
  | ZObject shape =>
      match v with
      | VObj props =>
          option_map VObj
            ((fix fields (sh : list (string * schema)) : option obj :=
                match sh with
                | [] => Some []
                | (k, fs) :: rest =>
                    match parse fs (JS.get props k), fields rest with
                    | Some y, Some ys =>
                        Some (if is_undefined y && negb (JS.has props k)
                              then ys else (k, y) :: ys)
                    | _, _ => None
                    end
                end) shape)
      | _ => None
      end
  | ZArray element =>
      match v with
      | VArr items =>
          option_map VArr
            ((fix each (l : list value) : option (list value) :=
                match l with
                | [] => Some []
                | x :: rest =>
                    match parse element x, each rest with
                    | Some y, Some ys => Some (y :: ys)
                    | _, _ => None
                    end
                end) items)
      | _ => None
      end
  end.

(** The fields of an object schema, as [parse] goes through them. *)
Fixpoint parse_fields (props : obj) (sh : list (string * schema)) : option obj :=
  match sh with
  | [] => Some []
  | (k, fs) :: rest =>
      match parse fs (JS.get props k), parse_fields props rest with
      | Some y, Some ys =>
          Some (if is_undefined y && negb (JS.has props k)
                then ys else (k, y) :: ys)
      | _, _ => None
      end
  end.

(** The elements of an array schema, as [parse] goes through them. *)
Fixpoint parse_each (element : schema) (l : list value) : option (list value) :=
  match l with
  | [] => Some []
  | x :: rest =>
      match parse element x, parse_each element rest with
      | Some y, Some ys => Some (y :: ys)
      | _, _ => None
      end
  end.

(** Keys without a repetition. *)
Fixpoint distinct (l : list string) : bool :=
  match l with
  | [] => true
  | k :: rest => negb (existsb (String.eqb k) rest) && distinct rest
  end.

Definition is_object (v : value) : bool :=
  match v with VObj _ => true | _ => false end.

Inductive scalar_type : Type := TString | TNumber.

(** The type of a schema of strings or of numbers, optional or with a
    default. *)
Fixpoint scalar (s : schema) : option scalar_type :=
  match s with
  | ZString => Some TString
  | ZNumber => Some TNumber
  | ZOptional inner | ZDefault inner _ => scalar inner
  | ZObject _ | ZArray _ => None
  end.

(** A field the caller has to give: its schema refuses [undefined]. *)
Definition required (s : schema) : bool :=
  match s with
  | ZOptional _ | ZDefault _ _ => false
  | _ => true
  end.

Definition opt_string : schema := ZOptional ZString.
Definition opt_number : schema := ZOptional ZNumber.
Definition string_default (d : string) : schema := ZDefault (ZOptional ZString) (VStr d).
Definition number_default (d : Z) : schema := ZDefault (ZOptional ZNumber) (VNum d).

(** ** The schemas of the eighteen tools *)

Module Schema.

Definition list_shipments : list (string * schema) :=
  [ ("integration_key", opt_string);
    ("page", number_default 1);
    ("per_page", number_default 20);
    ("status", opt_string);
    ("carrier", opt_string);
    ("date_from", opt_string);
    ("date_to", opt_string) ].

Definition get_shipment : list (string * schema) :=
  [ ("integration_key", opt_string);
    ("id", opt_string);
    ("order_id", opt_string) ].

Definition search_shipments : list (string * schema) :=
  [ ("integration_key", opt_string);
    ("q", ZString);
    ("limit", number_default 20) ].

(** The shipper and the recipient declare the same fields. *)
Definition address_fields : list (string * schema) :=
    [ ("name", ZString);
      ("company", string_default "");
      ("address1", ZString);
      ("address2", string_default "");
      ("city", ZString);
      ("state", ZString);
      ("postal", ZString);
      ("country", ZString);
      ("phone", string_default "");
      ("email", string_default "") ].

Definition shipment_address : schema := ZObject address_fields.

(** create_shipment and get_shipping_rates declare the same product. *)
Definition product_fields : list (string * schema) :=
    [ ("name", string_default "Package");
      ("weight", ZNumber);
      ("quantity", number_default 1);
      ("price", number_default 0);
      ("length", number_default 1);
      ("width", number_default 1);
      ("height", number_default 1) ].

Definition product : schema := ZObject product_fields.

Definition create_shipment : list (string * schema) :=
  [ ("integration_key", opt_string);
    ("carrier_id", ZNumber);
    ("service_code", string_default "");
    ("shipper", shipment_address);
    ("recipient", shipment_address);
    ("products", ZArray product) ].

Definition cancel_shipment : list (string * schema) :=
  [ ("integration_key", opt_string);
    ("shipment_id", ZNumber) ].

Definition receiver_fields : list (string * schema) :=
    [ ("name", string_default "");
      ("address1", ZString);
      ("address2", string_default "");
      ("city", ZString);
      ("state", ZString);
      ("postal", ZString);
      ("country", ZString) ].

Definition receiver_address : schema := ZObject receiver_fields.

Definition get_shipping_rates : list (string * schema) :=
  [ ("integration_key", opt_string);
    ("receiver_address", receiver_address);
    ("products", ZArray product);
    ("account_id", opt_number) ].

Definition schedule_pickup : list (string * schema) :=
  [ ("integration_key", opt_string);
    ("order_id", ZString);
    ("carrier_type", ZString);
    ("pickup_date", opt_string);
    ("pickup_time", opt_string) ].

Definition track_shipment : list (string * schema) :=
  [ ("tracking_number", ZString);
    ("carrier", string_default "") ].

Definition fetch_labels : list (string * schema) :=
  [ ("integration_key", opt_string);
    ("page", number_default 1);
    ("limit", number_default 50);
    ("printed", string_default "all") ].

Definition list_addresses : list (string * schema) :=
  [ ("integration_key", opt_string);
    ("type", opt_string) ].

Definition get_address : list (string * schema) :=
  [ ("integration_key", opt_string);
    ("id", ZNumber) ].

Definition add_address : list (string * schema) :=
  [ ("integration_key", opt_string);
    ("type", string_default "shipper");
    ("name", ZString);
    ("company", string_default "");
    ("mobile", string_default "");
    ("email", string_default "");
    ("address1", ZString);
    ("address2", string_default "");
    ("city", ZString);
    ("state", string_default "");
    ("country", ZString);
    ("postal", ZString);
    ("tax_id", string_default "") ].

Definition edit_address : list (string * schema) :=
  [ ("integration_key", opt_string);
    ("id", ZNumber);
    ("type", opt_string);
    ("name", opt_string);
    ("company", opt_string);
    ("mobile", opt_string);
    ("email", opt_string);
    ("address1", opt_string);
    ("address2", opt_string);
    ("city", opt_string);
    ("state", opt_string);
    ("country", opt_string);
    ("postal", opt_string) ].

Definition delete_address : list (string * schema) :=
  [ ("integration_key", opt_string);
    ("id", ZNumber) ].

Definition list_carriers : list (string * schema) :=
  [ ("integration_key", opt_string) ].

Definition get_carrier : list (string * schema) :=
  [ ("integration_key", opt_string);
    ("id", ZNumber) ].

Definition get_account_info : list (string * schema) :=
  [ ("integration_key", opt_string) ].

Definition get_shipping_stats : list (string * schema) :=
  [ ("integration_key", opt_string);
    ("period", string_default "month");
    ("date_from", opt_string);
    ("date_to", opt_string) ].

End Schema.

(** ** A reference JSON parser and mock platforms

    The server is verified against any [JSON.parse]; the parser below
    reads the fragment of JSON whose numbers are integers and whose
    characters are single code units.  It serves to run the server on
    concrete backends. *)

Module Mock.

Definition is_ws (c : ascii) : bool :=
  let n := nat_of_ascii c in
  Nat.eqb n 32 || Nat.eqb n 9 || Nat.eqb n 10 || Nat.eqb n 13.

Fixpoint skip_ws (s : string) : string :=
  match s with
  | String c rest => if is_ws c then skip_ws rest else s
  | EmptyString => s
  end.

Definition is_digit (c : ascii) : bool :=
  URLSearchParams.between 48 57 (nat_of_ascii c).

(** The digits at the head of [s], as a number, and what follows them. *)
Fixpoint digits (acc : Z) (seen : bool) (s : string) : option (Z * string) :=
  match s with
  | String c rest =>
      if is_digit c
      then digits (10 * acc + Z.of_nat (nat_of_ascii c - 48)) true rest
      else if seen then Some (acc, s) else None
  | EmptyString => if seen then Some (acc, s) else None
  end.

Definition starts_fraction (s : string) : bool :=
  match s with
  | String c _ =>
      let n := nat_of_ascii c in Nat.eqb n 46 || Nat.eqb n 101 || Nat.eqb n 69
  | EmptyString => false
  end.

Definition number (s : string) : option (value * string) :=
  match s with
  | String "-" rest =>
      match digits 0 false rest with
      | Some (n, rest') => if starts_fraction rest' then None else Some (VNum (- n), rest')
      | None => None
      end
  | _ =>
      match digits 0 false s with
      | Some (n, rest') => if starts_fraction rest' then None else Some (VNum n, rest')
      | None => None
      end
  end.

Definition unescape (c : ascii) : option ascii :=
  let n := nat_of_ascii c in
  if Nat.eqb n 34 || Nat.eqb n 92 || Nat.eqb n 47 then Some c
  else if Nat.eqb n 98 then Some (ascii_of_nat 8)
  else if Nat.eqb n 102 then Some (ascii_of_nat 12)
  else if Nat.eqb n 110 then Some (ascii_of_nat 10)
  else if Nat.eqb n 114 then Some (ascii_of_nat 13)
  else if Nat.eqb n 116 then Some (ascii_of_nat 9)
  else None.

(** The characters of a string literal after its opening quote. *)
Fixpoint chars (s : string) : option (string * string) :=
  match s with
  | EmptyString => None
  | String c rest =>
      let n := nat_of_ascii c in
      if Nat.eqb n 34 then Some ("", rest)
      else if Nat.ltb n 32 then None
      else if Nat.eqb n 92 then
        match rest with
        | String e rest' =>
            match unescape e, chars rest' with
            | Some c', Some (str, after) => Some (String c' str, after)
            | _, _ => None
            end
        | EmptyString => None
        end
      else
        match chars rest with
        | Some (str, after) => Some (String c str, after)
        | None => None
        end
  end.

Definition literal (word : string) (v : value) (s : string) : option (value * string) :=
  if String.prefix word s
  then Some (v, String.substring (String.length word) (String.length s - String.length word) s)
  else None.

Fixpoint pvalue (fuel : nat) (s : string) : option (value * string) :=
  match fuel with
  | O => None
  | S fuel' =>
      match skip_ws s with
      | String c rest =>
          let n := nat_of_ascii c in
          if Nat.eqb n 123 then
            match skip_ws rest with
            | String "}" after => Some (VObj [], after)
            | body => pmembers fuel' body []
            end
          else if Nat.eqb n 91 then
            match skip_ws rest with
            | String "]" after => Some (VArr [], after)
            | body => pelements fuel' body []
            end
          else if Nat.eqb n 34 then
            match chars rest with
            | Some (str, after) => Some (VStr str, after)
            | None => None
            end
          else if Nat.eqb n 116 then literal "true" (VBool true) (String c rest)
          else if Nat.eqb n 102 then literal "false" (VBool false) (String c rest)
          else if Nat.eqb n 110 then literal "null" VNull (String c rest)
          else number (String c rest)
      | EmptyString => None
      end
  end
with pelements (fuel : nat) (s : string) (acc : list value) : option (value * string) :=
  match fuel with
  | O => None
  | S fuel' =>
      match pvalue fuel' s with
      | Some (v, rest) =>
          match skip_ws rest with
          | String "," after => pelements fuel' after (acc ++ [v])%list
          | String "]" after => Some (VArr (acc ++ [v])%list, after)
          | _ => None
          end
      | None => None
      end
  end
with pmembers (fuel : nat) (s : string) (acc : obj) : option (value * string) :=
  match fuel with
  | O => None
  | S fuel' =>
      match skip_ws s with
      | String c rest =>
          if Nat.eqb (nat_of_ascii c) 34 then
            match chars rest with
            | Some (k, after_key) =>
                match skip_ws after_key with
                | String ":" after_colon =>
                    match pvalue fuel' after_colon with
                    | Some (v, rest') =>
                        match skip_ws rest' with
                        | String "," after => pmembers fuel' after (JS.set k v acc)
                        | String "}" after => Some (VObj (JS.set k v acc), after)
                        | _ => None
                        end
                    | None => None
                    end
                | _ => None
                end
            | None => None
            end
          else None
      | EmptyString => None
      end
  end.

(** The whole text has to be one JSON value. *)
Definition JSON_parse (text : string) : option value :=
  match pvalue (2 * String.length text + 2) text with
  | Some (v, rest) =>
      match skip_ws rest with
      | EmptyString => Some v
      | _ => None
      end
  | None => None
  end.

(** A backend that answers every request with one status and body. *)
Definition backend (status : Z) (body : string) : string -> RequestInit -> result Response :=
  fun _ _ => Ok {| resp_status := status; resp_text := Ok body |}.

(** A network on which every request fails. *)
Definition offline (message : string) : string -> RequestInit -> result Response :=
  fun _ _ => Throw message.

(** An environment that sets at most the default integration key. *)
Definition env (key : option string) : string -> option string :=
  fun name => if String.eqb name "SHIPI_INTEGRATION_KEY" then key else None.

(** Sample arguments. *)
Definition jane : value :=
  VObj [ ("name", VStr "Jane"); ("address1", VStr "1 Main"); ("city", VStr "NYC");
         ("state", VStr "NY"); ("postal", VStr "10001"); ("country", VStr "US") ].

Definition omar : value :=
  VObj [ ("name", VStr "Omar"); ("company", VStr "Acme"); ("address1", VStr "9 Elm");
         ("city", VStr "LA"); ("state", VStr "CA"); ("postal", VStr "90001");
         ("country", VStr "US") ].

Definition create_args : obj :=
  [ ("carrier_id", VNum 7);
    ("shipper", jane);
    ("recipient", omar);
    ("products", VArr [VObj [("weight", VNum 5)]]) ].

Definition rates_args : obj :=
  [ ("receiver_address",
     VObj [ ("address1", VStr "9 Elm"); ("city", VStr "LA"); ("state", VStr "CA");
            ("postal", VStr "90001"); ("country", VStr "US") ]);
    ("products",
     VArr [VObj [ ("weight", VNum 2); ("quantity", VNum 0); ("price", VNum 0);
                  ("length", VNum 0); ("width", VNum 0); ("height", VNum 0) ]]) ].

End Mock.

(** ** The server *)

(** [process.env.NAME || fallback]. *)
Definition env_or (v : option string) (fallback : string) : string :=
  match v with
  | Some s => if String.eqb s "" then fallback else s
  | None => fallback
  end.

(** [v !== undefined && v !== null && v !== ""], the test of the GET branch. *)
Definition present (v : value) : bool :=
  match v with
  | VUndef | VNull => false
  | VStr s => negb (String.eqb s "")
  | _ => true
  end.

(** [JSON.stringify(data, null, 2)], which is [undefined] on [undefined]. *)
Definition toText (data : value) : value :=
  match JSON.stringify_indent2 data with
  | Some s => VStr s
  | None => VUndef
  end.

(** [{ content: [{ type: "text", text: toText(data) }] }]. *)
Definition text_content (data : value) : value :=
  VObj [("content", VArr [VObj [("type", VStr "text"); ("text", toText data)]])].

(** The GET branch up to the call of [fetch]: the key first when there
    is one, then every entry of [params] that is present.  [qs.set]
    converts the key to a string and [String(v)] converts the entry:
    either may throw. *)
Definition query (params : obj) (key : value) : M URLSearchParams.t :=
  qs <- (if JS.truthy key
         then s <- String_ key ;;
              ret (URLSearchParams.set "integration_key" s URLSearchParams.empty)
         else ret URLSearchParams.empty) ;;
  foldM
    (fun qs kv =>
       if present (snd kv)
       then s <- String_ (snd kv) ;; ret (URLSearchParams.set (fst kv) s qs)
       else ret qs)
    params qs.

(** Whether every conversion of [query] returns. *)
Definition convertible (params : obj) (key : value) : bool :=
  (if JS.truthy key then JS.stringable key else true)
  && forallb (fun kv => if present (snd kv) then JS.stringable (snd kv) else true) params.

(** The query that [query] returns when every conversion returns: the
    same loop without the failure. *)
Definition build_query (params : obj) (key : value) : URLSearchParams.t :=
  let qs := URLSearchParams.empty in
  let qs := if JS.truthy key
            then URLSearchParams.set "integration_key" (JS.to_string key) qs
            else qs in
  fold_left
    (fun qs kv =>
       if present (snd kv)
       then URLSearchParams.set (fst kv) (JS.to_string (snd kv)) qs
       else qs)
    params qs.

(** The body the POST branch builds: a copy of [params], with the key
    added when the copy has none. *)
Definition build_body (params : obj) (key : value) : obj :=
  let body := JS.spread [] params in
  if JS.truthy key && negb (JS.truthy (JS.get body "integration_key"))
  then JS.set "integration_key" key body
  else body.

(** The key a request carries under a name: a parameter of the query
    or a string field of the body. *)
Definition carried (field : string) (o : outbound) : option string :=
  match o with
  | OutGet _ qs => URLSearchParams.get field qs
  | OutPost _ body =>
      match JS.get body field with
      | VStr s => Some s
      | _ => None
      end
  end.

(** The name under which the handler of a tool puts the key of the
    call: the three tools of the label, cancel and pickup endpoints
    write [integrated_key], the others [integration_key]. *)
Definition key_field (name : string) : string :=
  if String.eqb name "create_shipment"
     || String.eqb name "cancel_shipment"
     || String.eqb name "schedule_pickup"
  then "integrated_key"
  else "integration_key".

(** The tools whose handler calls [shipiRequest] with the method GET. *)
Definition get_tools : list string :=
  [ "list_shipments"; "get_shipment"; "search_shipments"; "track_shipment";
    "fetch_labels"; "list_addresses"; "get_address"; "list_carriers";
    "get_carrier"; "get_account_info"; "get_shipping_stats" ].

Definition is_array (v : value) : bool :=
  match v with VArr _ => true | _ => false end.

(** A value that is no array and no object. *)
Definition is_scalar (v : value) : bool :=
  match v with VArr _ | VObj _ => false | _ => true end.

Definition all_scalar (o : obj) : bool := forallb (fun kv => is_scalar (snd kv)) o.

(** A schema whose fields are all strings or numbers. *)
Definition scalar_schema (sh : list (string * schema)) : bool :=
  forallb (fun e => match scalar (snd e) with Some _ => true | None => false end) sh.

(** The URL a request goes to, without the query string. *)
Definition request_url (o : outbound) : string :=
  match o with
  | OutGet url _ | OutPost url _ => url
  end.

(** The routes of the catalog as the handlers hard-code them: for each
    tool the endpoint, the method and the action discriminator, if
    the handler sends one. *)
Definition routes : list (string * (string * string * option string)) :=
  [ ("list_shipments", ("api/v1/shipments.php", "GET", Some "list"));
    ("get_shipment", ("api/v1/shipments.php", "GET", Some "get"));
    ("search_shipments", ("api/v1/shipments.php", "GET", Some "search"));
    ("create_shipment", ("label_api/create_shipment.php", "POST", None));
    ("cancel_shipment", ("cancel_api/delete_shipment.php", "POST", None));
    ("get_shipping_rates", ("rates_api/shipi_rates.php", "POST", None));
    ("schedule_pickup", ("pickup_api/create_pickup.php", "POST", None));
    ("track_shipment", ("api/v1/tracking_url.php", "GET", None));
    ("fetch_labels", ("label_api/fetch_labels.php", "GET", None));
    ("list_addresses", ("api/v1/addresses.php", "GET", Some "list"));
    ("get_address", ("api/v1/addresses.php", "GET", Some "get"));
    ("add_address", ("api/v1/addresses.php", "POST", Some "add"));
    ("edit_address", ("api/v1/addresses.php", "POST", Some "edit"));
    ("delete_address", ("api/v1/addresses.php", "POST", Some "delete"));
    ("list_carriers", ("api/v1/carriers.php", "GET", Some "list"));
    ("get_carrier", ("api/v1/carriers.php", "GET", Some "get"));
    ("get_account_info", ("api/v1/account.php", "GET", None));
    ("get_shipping_stats", ("api/v1/stats.php", "GET", None)) ].

Inductive call_outcome : Type :=
| UnknownTool
| ValidationError
| HandlerThrew (message : string)
| Returned (output : value).

Record tool : Type := {
  tool_name : string;
  tool_schema : list (string * schema);
  tool_handler : obj -> M value
}.

Section Server.

Variable process_env : string -> option string.
Variable fetch : string -> RequestInit -> result Response.
Variable JSON_parse : string -> option value.

Definition BASE_URL : string :=
  env_or (process_env "SHIPI_BASE_URL") "https://app.myshipi.com".

Definition DEFAULT_KEY : string :=
  env_or (process_env "SHIPI_INTEGRATION_KEY") "".

(** The call of [fetch]: the request is issued, then the network
    answers or throws. *)
Definition node_fetch (o : outbound) : M Response :=
  fun log => (fetch (fst (wire o)) (snd (wire o)), log ++ [o])%list.

Definition response_text (r : Response) : M string :=
  fun log => (resp_text r, log).

Definition parse_json (text : string) : M value :=
  match JSON_parse text with
  | Some v => ret v
  | None => throw "SyntaxError"
  end.

(** [shipiRequest(endpoint, params, method)].  A call site that gives no
    method passes the default of the declaration, POST. *)
Definition shipiRequest (endpoint : string) (params : obj) (method : string) : M value :=
  let url := BASE_URL ++ "/" ++ endpoint in
  let key := JS.or (JS.get params "integration_key") (VStr DEFAULT_KEY) in
  try_catch
    (response <-
       (if String.eqb method "GET"
        then qs <- query params key ;; node_fetch (OutGet url qs)
        else node_fetch (OutPost url (build_body params key))) ;;
     text <- response_text response ;;
     try_catch (parse_json text)
       (fun _ =>
          ret (VObj [("status", VStr "error");
                     ("message", VStr "Invalid JSON response");
                     ("raw", VStr (JS.substring0 500 text))])))
    (fun err =>
       ret (VObj [("status", VStr "error");
                  ("message", VStr ("Request failed: " ++ err))])).

(** Whether a call of [shipiRequest] gets as far as [fetch]: always
    with POST, and with GET when the query can be built. *)
Definition sends (params : obj) (method : string) : bool :=
  negb (String.eqb method "GET")
  || convertible params (JS.or (JS.get params "integration_key") (VStr DEFAULT_KEY)).

(** What [shipiRequest] returns when the query cannot be built. *)
Definition conversion_error : value :=
  VObj [("status", VStr "error");
        ("message", VStr "Request failed: Cannot convert object to primitive value")].

(** The request a call of [shipiRequest] issues, when it issues one. *)
Definition sent (endpoint : string) (params : obj) (method : string) : outbound :=
  let url := BASE_URL ++ "/" ++ endpoint in
  let key := JS.or (JS.get params "integration_key") (VStr DEFAULT_KEY) in
  if String.eqb method "GET"
  then OutGet url (build_query params key)
  else OutPost url (build_body params key).

(** What the network answers to a request. *)
Definition answer (o : outbound) : result Response :=
  fetch (fst (wire o)) (snd (wire o)).

(** The resolution order of the key, said of the key a request
    carries and of the key parameter [v] of the call: a non-empty
    explicit key is carried; without one the default is, and nothing
    or the empty key when the default is empty too. *)
Definition resolves (carried_key : option string) (v : value) : Prop :=
  (forall k, v = VStr k -> k <> "" -> carried_key = Some k)
  /\ (v = VUndef \/ v = VStr "" ->
      carried_key = Some DEFAULT_KEY \/ (DEFAULT_KEY = "" /\ carried_key = None)).

(** *** Tool handlers *)

Definition list_shipments_handler (params : obj) : M value :=
  data <- shipiRequest "api/v1/shipments.php"
            (JS.spread [("action", VStr "list")] params) "GET" ;;
  ret (text_content data).

Definition get_shipment_handler (params : obj) : M value :=
  data <- shipiRequest "api/v1/shipments.php"
            (JS.spread [("action", VStr "get")] params) "GET" ;;
  ret (text_content data).

Definition search_shipments_handler (params : obj) : M value :=
  data <- shipiRequest "api/v1/shipments.php"
            (JS.spread [("action", VStr "search")] params) "GET" ;;
  ret (text_content data).

(** One entry of [products.map(...)]. *)
Definition product_entry (p : value) : M value :=
  name <- prop p "name" ;;
  weight <- prop p "weight" ;;
  quantity <- prop p "quantity" ;;
  price <- prop p "price" ;;
  length <- prop p "length" ;;
  width <- prop p "width" ;;
  height <- prop p "height" ;;
  ret (VObj [ ("prod_name", JS.or name (VStr "Package"));
              ("prod_weight", weight);
              ("prod_quantity", JS.or quantity (VNum 1));
              ("prod_price", JS.or price (VNum 0));
              ("prod_depth", JS.or length (VNum 1));
              ("prod_width", JS.or width (VNum 1));
              ("prod_height", JS.or height (VNum 1)) ]).

(** The [meta] object of create_shipment. *)
Definition create_shipment_meta
  (carrier_id service_code shipper recipient products : value) : M obj :=
  s_name <- prop shipper "name" ;;
  s_company <- prop shipper "company" ;;
  s_address1 <- prop shipper "address1" ;;
  s_address2 <- prop shipper "address2" ;;
  s_city <- prop shipper "city" ;;
  s_state <- prop shipper "state" ;;
  s_postal <- prop shipper "postal" ;;
  s_country <- prop shipper "country" ;;
  s_phone <- prop shipper "phone" ;;
  s_email <- prop shipper "email" ;;
  t_name <- prop recipient "name" ;;
  t_company <- prop recipient "company" ;;
  t_address1 <- prop recipient "address1" ;;
  t_address2 <- prop recipient "address2" ;;
  t_city <- prop recipient "city" ;;
  t_state <- prop recipient "state" ;;
  t_postal <- prop recipient "postal" ;;
  t_country <- prop recipient "country" ;;
  t_phone <- prop recipient "phone" ;;
  t_email <- prop recipient "email" ;;
  prods <- array_map product_entry products ;;
  ret [ ("label", VStr "d");
        ("s_name", s_name);
        ("s_company", JS.or s_company (VStr ""));
        ("s_address1", s_address1);
        ("s_address2", JS.or s_address2 (VStr ""));
        ("s_city", s_city);
        ("s_state", s_state);
        ("s_postal", s_postal);
        ("s_country", s_country);
        ("s_phone", JS.or s_phone (VStr ""));
        ("s_email", JS.or s_email (VStr ""));
        ("t_name", t_name);
        ("t_company", JS.or t_company (VStr ""));
        ("t_address1", t_address1);
        ("t_address2", JS.or t_address2 (VStr ""));
        ("t_city", t_city);
        ("t_state", t_state);
        ("t_postal", t_postal);
        ("t_country", t_country);
        ("t_phone", JS.or t_phone (VStr ""));
        ("t_email", JS.or t_email (VStr ""));
        ("service_code", JS.or service_code (VStr ""));
        ("carrier_id", carrier_id);
        ("products", prods) ].

Definition create_shipment_handler (params : obj) : M value :=
  let integration_key := JS.get params "integration_key" in
  let carrier_id := JS.get params "carrier_id" in
  let service_code := JS.get params "service_code" in
  let shipper := JS.get params "shipper" in
  let recipient := JS.get params "recipient" in
  let products := JS.get params "products" in
  let key := JS.or integration_key (VStr DEFAULT_KEY) in
  meta <- create_shipment_meta carrier_id service_code shipper recipient products ;;
  data <- shipiRequest "label_api/create_shipment.php"
            [("integrated_key", key); ("meta", VObj meta)] "POST" ;;
  ret (text_content data).

Definition cancel_shipment_handler (params : obj) : M value :=
  let key := JS.or (JS.get params "integration_key") (VStr DEFAULT_KEY) in
  data <- shipiRequest "cancel_api/delete_shipment.php"
            [("integrated_key", key); ("del_ref", JS.get params "shipment_id")] "POST" ;;
  ret (text_content data).

Definition get_shipping_rates_handler (params : obj) : M value :=
  let key := JS.or (JS.get params "integration_key") (VStr DEFAULT_KEY) in
  prods <- array_map product_entry (JS.get params "products") ;;
  data <- shipiRequest "rates_api/shipi_rates.php"
            [ ("integration_key", key);
              ("receiver_address", JS.get params "receiver_address");
              ("products", prods);
              ("account_id", JS.get params "account_id") ] "POST" ;;
  ret (text_content data).

Definition schedule_pickup_handler (params : obj) : M value :=
  let key := JS.or (JS.get params "integration_key") (VStr DEFAULT_KEY) in
  let meta : obj := [] in
  let meta := if JS.truthy (JS.get params "pickup_date")
              then JS.set "pickup_date" (JS.get params "pickup_date") meta
              else meta in
  let meta := if JS.truthy (JS.get params "pickup_time")
              then JS.set "pickup_time" (JS.get params "pickup_time") meta
              else meta in
  data <- shipiRequest "pickup_api/create_pickup.php"
            [ ("integrated_key", key);
              ("order_id", JS.get params "order_id");
              ("carrier_type", JS.get params "carrier_type");
              ("label", VStr "d");
              ("meta", VObj meta) ] "POST" ;;
  ret (text_content data).

Definition track_shipment_handler (params : obj) : M value :=
  data <- shipiRequest "api/v1/tracking_url.php"
            [ ("tracking_number", JS.get params "tracking_number");
              ("carrier", JS.or (JS.get params "carrier") (VStr "")) ] "GET" ;;
  ret (text_content data).

Definition fetch_labels_handler (params : obj) : M value :=
  let key := JS.or (JS.get params "integration_key") (VStr DEFAULT_KEY) in
  data <- shipiRequest "label_api/fetch_labels.php"
            [ ("integration_key", key);
              ("page", JS.get params "page");
              ("limit", JS.get params "limit");
              ("printed", JS.get params "printed") ] "GET" ;;
  ret (text_content data).

Definition list_addresses_handler (params : obj) : M value :=
  data <- shipiRequest "api/v1/addresses.php"
            (JS.spread [("action", VStr "list")] params) "GET" ;;
  ret (text_content data).

Definition get_address_handler (params : obj) : M value :=
  data <- shipiRequest "api/v1/addresses.php"
            [ ("action", VStr "get");
              ("id", JS.get params "id");
              ("integration_key", JS.get params "integration_key") ] "GET" ;;
  ret (text_content data).

Definition add_address_handler (params : obj) : M value :=
  data <- shipiRequest "api/v1/addresses.php"
            (JS.spread [("action", VStr "add")] params) "POST" ;;
  ret (text_content data).

Definition edit_address_handler (params : obj) : M value :=
  data <- shipiRequest "api/v1/addresses.php"
            (JS.spread [("action", VStr "edit")] params) "POST" ;;
  ret (text_content data).

Definition delete_address_handler (params : obj) : M value :=
  data <- shipiRequest "api/v1/addresses.php"
            [ ("action", VStr "delete");
              ("id", JS.get params "id");
              ("integration_key", JS.get params "integration_key") ] "POST" ;;
  ret (text_content data).

Definition list_carriers_handler (params : obj) : M value :=
  data <- shipiRequest "api/v1/carriers.php"
            (JS.spread [("action", VStr "list")] params) "GET" ;;
  ret (text_content data).

Definition get_carrier_handler (params : obj) : M value :=
  data <- shipiRequest "api/v1/carriers.php"
            [ ("action", VStr "get");
              ("id", JS.get params "id");
              ("integration_key", JS.get params "integration_key") ] "GET" ;;
  ret (text_content data).

Definition get_account_info_handler (params : obj) : M value :=
  data <- shipiRequest "api/v1/account.php" (JS.spread [] params) "GET" ;;
  ret (text_content data).

Definition get_shipping_stats_handler (params : obj) : M value :=
  data <- shipiRequest "api/v1/stats.php" (JS.spread [] params) "GET" ;;
  ret (text_content data).

(** A handler relays its parameters: it makes one call of
    [shipiRequest] and returns what the call gave as text content. *)
Definition relays (h : obj -> M value) (params : obj)
  (endpoint : string) (ps : obj) (method : string) : Prop :=
  forall log,
    h params log
    = (data <- shipiRequest endpoint ps method ;; ret (text_content data)) log.

(** *** The tool catalog, in the order of registration *)

Definition server_tools : list tool :=
  [ {| tool_name := "list_shipments"; tool_schema := Schema.list_shipments;
       tool_handler := list_shipments_handler |};
    {| tool_name := "get_shipment"; tool_schema := Schema.get_shipment;
       tool_handler := get_shipment_handler |};
    {| tool_name := "search_shipments"; tool_schema := Schema.search_shipments;
       tool_handler := search_shipments_handler |};
    {| tool_name := "create_shipment"; tool_schema := Schema.create_shipment;
       tool_handler := create_shipment_handler |};
    {| tool_name := "cancel_shipment"; tool_schema := Schema.cancel_shipment;
       tool_handler := cancel_shipment_handler |};
    {| tool_name := "get_shipping_rates"; tool_schema := Schema.get_shipping_rates;
       tool_handler := get_shipping_rates_handler |};
    {| tool_name := "schedule_pickup"; tool_schema := Schema.schedule_pickup;
       tool_handler := schedule_pickup_handler |};
    {| tool_name := "track_shipment"; tool_schema := Schema.track_shipment;
       tool_handler := track_shipment_handler |};
    {| tool_name := "fetch_labels"; tool_schema := Schema.fetch_labels;
       tool_handler := fetch_labels_handler |};
    {| tool_name := "list_addresses"; tool_schema := Schema.list_addresses;
       tool_handler := list_addresses_handler |};
    {| tool_name := "get_address"; tool_schema := Schema.get_address;
       tool_handler := get_address_handler |};
    {| tool_name := "add_address"; tool_schema := Schema.add_address;
       tool_handler := add_address_handler |};
    {| tool_name := "edit_address"; tool_schema := Schema.edit_address;
       tool_handler := edit_address_handler |};
    {| tool_name := "delete_address"; tool_schema := Schema.delete_address;
       tool_handler := delete_address_handler |};
    {| tool_name := "list_carriers"; tool_schema := Schema.list_carriers;
       tool_handler := list_carriers_handler |};
    {| tool_name := "get_carrier"; tool_schema := Schema.get_carrier;
       tool_handler := get_carrier_handler |};
    {| tool_name := "get_account_info"; tool_schema := Schema.get_account_info;
       tool_handler := get_account_info_handler |};
    {| tool_name := "get_shipping_stats"; tool_schema := Schema.get_shipping_stats;
       tool_handler := get_shipping_stats_handler |} ].

Fixpoint find_tool_in (name : string) (tools : list tool) : option tool :=
  match tools with
  | [] => None
  | t :: rest => if String.eqb (tool_name t) name then Some t else find_tool_in name rest
  end.

Definition find_tool (name : string) : option tool := find_tool_in name server_tools.

(** The arguments of a call checked against the schema of a tool. *)
Definition validate (t : tool) (args : value) : option obj :=
  match parse (ZObject (tool_schema t)) args with
  | Some (VObj params) => Some params
  | _ => None
  end.

(** The call names a tool and its arguments pass the validation. *)
Definition accepts (name : string) (args : value) : bool :=
  match find_tool name with
  | Some t => match validate t args with Some _ => true | None => false end
  | None => false
  end.

(** Modelled from the spec: the dispatch of a call, done by the protocol
    library the server imports and not part of the sources.  The
    validator checks the arguments against the schema of the named tool
    before dispatch, and the handler runs on the validated parameters
    only. *)
Definition call_tool (name : string) (args : value) (log : list outbound)
  : call_outcome * list outbound :=
  match find_tool name with
  | None => (UnknownTool, log)
  | Some t =>
      match validate t args with
      | None => (ValidationError, log)
      | Some params =>
          match tool_handler t params log with
          | (Ok output, log') => (Returned output, log')
          | (Throw e, log') => (HandlerThrew e, log')
          end
      end
  end.


(** * Properties *)

(** ** Objects and query strings *)

Lemma lookup_set_same (k : string) (v : value) (o : obj) :
  JS.lookup k (JS.set k v o) = Some v.
Proof.
  induction o as [|[k' v'] rest IH]; simpl.
  - now rewrite String.eqb_refl.
  - destruct (String.eqb k' k) eqn:E; simpl.
    + now rewrite String.eqb_refl.
    + now rewrite E.
Qed.

Lemma lookup_set_other (k k' : string) (v : value) (o : obj) :
  k <> k' -> JS.lookup k' (JS.set k v o) = JS.lookup k' o.
Proof.
  intros Hne. induction o as [|[k0 v0] rest IH]; simpl.
  - destruct (String.eqb k k') eqn:E; [apply String.eqb_eq in E; contradiction|reflexivity].
  - destruct (String.eqb k0 k) eqn:E; simpl.
    + apply String.eqb_eq in E. subst k0.
      destruct (String.eqb k k') eqn:E'; [apply String.eqb_eq in E'; contradiction|reflexivity].
    + now rewrite IH.
Qed.

Lemma lookup_None_keys (k : string) (o : obj) :
  JS.lookup k o = None <-> ~ In k (JS.keys o).
Proof.
  induction o as [|[k' v'] rest IH]; simpl.
  - tauto.
  - destruct (String.eqb k' k) eqn:E.
    + apply String.eqb_eq in E. split; [discriminate|intros H; exfalso; apply H; now left].
    + apply String.eqb_neq in E. rewrite IH. tauto.
Qed.

Lemma lookup_spread (k : string) (ext base : obj) :
  NoDup (JS.keys ext) ->
  JS.lookup k (JS.spread base ext)
  = match JS.lookup k ext with
    | Some v => Some v
    | None => JS.lookup k base
    end.
Proof.
  unfold JS.spread. revert base.
  induction ext as [|[k1 v1] rest IH]; intros base Hnd; simpl.
  - reflexivity.
  - inversion Hnd as [|? ? Hnotin Hnd']; subst.
    rewrite (IH _ Hnd').
    destruct (String.eqb k1 k) eqn:E.
    + apply String.eqb_eq in E. subst k1.
      apply lookup_None_keys in Hnotin. rewrite Hnotin.
      apply lookup_set_same.
    + apply String.eqb_neq in E.
      destruct (JS.lookup k rest); [reflexivity|].
      now apply lookup_set_other.
Qed.

Lemma get_spread (k : string) (ext base : obj) :
  NoDup (JS.keys ext) ->
  JS.get (JS.spread base ext) k
  = match JS.lookup k ext with
    | Some v => v
    | None => JS.get base k
    end.
Proof.
  intros Hnd. unfold JS.get. rewrite (lookup_spread k ext base Hnd).
  now destruct (JS.lookup k ext).
Qed.

Lemma keys_set (k : string) (v : value) (o : obj) :
  JS.keys (JS.set k v o)
  = if JS.has o k then JS.keys o else (JS.keys o ++ [k])%list.
Proof.
  unfold JS.has. induction o as [|[k' v'] rest IH]; simpl.
  - reflexivity.
  - destruct (String.eqb k' k) eqn:E; simpl.
    + apply String.eqb_eq in E. now subst.
    + rewrite IH. now destruct (JS.lookup k rest).
Qed.

Lemma NoDup_keys_set (k : string) (v : value) (o : obj) :
  NoDup (JS.keys o) -> NoDup (JS.keys (JS.set k v o)).
Proof.
  intros Hnd. rewrite keys_set. unfold JS.has.
  destruct (JS.lookup k o) eqn:E; [assumption|].
  apply lookup_None_keys in E.
  apply NoDup_app; [assumption|repeat constructor; simpl; tauto|].
  intros x Hin [Hx|[]]. subst. contradiction.
Qed.

Lemma NoDup_keys_spread (ext base : obj) :
  NoDup (JS.keys base) -> NoDup (JS.keys (JS.spread base ext)).
Proof.
  unfold JS.spread. revert base.
  induction ext as [|[k v] rest IH]; intros base Hnd; simpl; [assumption|].
  apply IH. now apply NoDup_keys_set.
Qed.

Lemma qs_get_set_same (k v : string) (qs : URLSearchParams.t) :
  URLSearchParams.get k (URLSearchParams.set k v qs) = Some v.
Proof.
  induction qs as [|[k' v'] rest IH]; simpl.
  - now rewrite String.eqb_refl.
  - destruct (String.eqb k' k) eqn:E; simpl.
    + now rewrite String.eqb_refl.
    + now rewrite E.
Qed.

Lemma qs_get_filter_other (k k' : string) (qs : URLSearchParams.t) :
  k <> k' ->
  URLSearchParams.get k' (filter (fun p => negb (String.eqb (fst p) k)) qs)
  = URLSearchParams.get k' qs.
Proof.
  intros Hne. induction qs as [|[k0 v0] rest IH]; simpl; [reflexivity|].
  destruct (String.eqb k0 k) eqn:E; simpl.
  - apply String.eqb_eq in E. subst k0.
    destruct (String.eqb k k') eqn:E'; [apply String.eqb_eq in E'; contradiction|assumption].
  - now rewrite IH.
Qed.

Lemma qs_get_set_other (k k' v : string) (qs : URLSearchParams.t) :
  k <> k' ->
  URLSearchParams.get k' (URLSearchParams.set k v qs) = URLSearchParams.get k' qs.
Proof.
  intros Hne. induction qs as [|[k0 v0] rest IH]; simpl.
  - destruct (String.eqb k k') eqn:E; [apply String.eqb_eq in E; contradiction|reflexivity].
  - destruct (String.eqb k0 k) eqn:E; simpl.
    + apply String.eqb_eq in E. subst k0.
      destruct (String.eqb k k') eqn:E'; [apply String.eqb_eq in E'; contradiction|].
      now apply qs_get_filter_other.
    + now rewrite IH.
Qed.

(** What the loop of the GET branch leaves under a name: the value of
    the parameter of that name when it is present, and what was there
    before otherwise. *)
Lemma qs_get_entries (k : string) (params : obj) (qs0 : URLSearchParams.t) :
  NoDup (JS.keys params) ->
  URLSearchParams.get k
    (fold_left
       (fun qs kv =>
          if present (snd kv)
          then URLSearchParams.set (fst kv) (JS.to_string (snd kv)) qs
          else qs)
       params qs0)
  = if present (JS.get params k)
    then Some (JS.to_string (JS.get params k))
    else URLSearchParams.get k qs0.
Proof.
  revert qs0. unfold JS.get.
  induction params as [|[k1 v1] rest IH]; intros qs0 Hnd; simpl; [reflexivity|].
  inversion Hnd as [|? ? Hnotin Hnd']; subst.
  rewrite (IH _ Hnd').
  destruct (String.eqb k1 k) eqn:E.
  - apply String.eqb_eq in E. subst k1.
    apply lookup_None_keys in Hnotin. rewrite Hnotin. simpl.
    destruct (present v1); [apply qs_get_set_same|reflexivity].
  - apply String.eqb_neq in E.
    destruct (present match JS.lookup k rest with Some v => v | None => VUndef end);
      [reflexivity|].
    destruct (present v1); [now apply qs_get_set_other|reflexivity].
Qed.

(** The query of the GET branch, name by name. *)
Lemma qs_get_build_query (k : string) (params : obj) (key : value) :
  NoDup (JS.keys params) ->
  URLSearchParams.get k (build_query params key)
  = if present (JS.get params k)
    then Some (JS.to_string (JS.get params k))
    else if JS.truthy key && String.eqb k "integration_key"
         then Some (JS.to_string key)
         else None.
Proof.
  intros Hnd. unfold build_query. rewrite (qs_get_entries k params _ Hnd).
  destruct (present (JS.get params k)); [reflexivity|].
  destruct (JS.truthy key); [|reflexivity].
  rewrite andb_true_l.
  destruct (String.eqb k "integration_key") eqn:E.
  - apply String.eqb_eq in E. subst k. apply qs_get_set_same.
  - apply String.eqb_neq in E. rewrite qs_get_set_other by congruence. reflexivity.
Qed.

(** ** The validator *)

Lemma parse_object_eq (shape : list (string * schema)) (props : obj) :
  parse (ZObject shape) (VObj props) = option_map VObj (parse_fields props shape).
Proof.
  simpl. f_equal. induction shape as [|[k fs] rest IH]; simpl; [reflexivity|].
  now rewrite IH.
Qed.

Lemma parse_array_eq (element : schema) (items : list value) :
  parse (ZArray element) (VArr items) = option_map VArr (parse_each element items).
Proof.
  simpl. f_equal. induction items as [|x rest IH]; simpl; [reflexivity|].
  now rewrite IH.
Qed.

Lemma distinct_NoDup (l : list string) : distinct l = true -> NoDup l.
Proof.
  induction l as [|k rest IH]; simpl; intros H; [constructor|].
  apply andb_true_iff in H. destruct H as [Hk Hrest].
  constructor; [|now apply IH].
  intros Hin. apply negb_true_iff in Hk.
  assert (existsb (String.eqb k) rest = true) as Hex.
  { apply existsb_exists. exists k. split; [assumption|apply String.eqb_refl]. }
  congruence.
Qed.

(** The validated object holds declared fields only. *)
Lemma parse_fields_keys (props : obj) (sh : list (string * schema)) (p : obj) :
  parse_fields props sh = Some p ->
  forall k, In k (JS.keys p) -> In k (map fst sh).
Proof.
  revert p. induction sh as [|[k1 s1] rest IH]; simpl; intros p H k Hin.
  - inversion H; subst. assumption.
  - destruct (parse s1 (JS.get props k1)) as [y|]; [|discriminate].
    destruct (parse_fields props rest) as [ys|]; [|discriminate].
    inversion H; subst; clear H.
    destruct (is_undefined y && negb (JS.has props k1)).
    + right. now apply (IH ys).
    + destruct Hin as [Hk|Hin]; [now left|right; now apply (IH ys)].
Qed.

Lemma parse_fields_NoDup (props : obj) (sh : list (string * schema)) (p : obj) :
  NoDup (map fst sh) -> parse_fields props sh = Some p -> NoDup (JS.keys p).
Proof.
  revert p. induction sh as [|[k1 s1] rest IH]; simpl; intros p Hnd H.
  - inversion H; subst. constructor.
  - inversion Hnd as [|? ? Hnotin Hnd']; subst.
    destruct (parse s1 (JS.get props k1)) as [y|]; [|discriminate].
    destruct (parse_fields props rest) as [ys|] eqn:Hrest; [|discriminate].
    inversion H; subst; clear H.
    destruct (is_undefined y && negb (JS.has props k1)).
    + now apply IH.
    + simpl. constructor; [|now apply IH].
      intros Hin. apply Hnotin. now apply (parse_fields_keys props rest ys).
Qed.

(** Every declared field of the validated object is the field of the
    arguments as its schema validated it. *)
Lemma parse_fields_get (props : obj) (sh : list (string * schema)) (p : obj) :
  NoDup (map fst sh) ->
  parse_fields props sh = Some p ->
  forall k fs, In (k, fs) sh -> parse fs (JS.get props k) = Some (JS.get p k).
Proof.
  revert p. induction sh as [|[k1 s1] rest IH]; simpl; intros p Hnd H k fs Hin; [contradiction|].
  inversion Hnd as [|? ? Hnotin Hnd']; subst.
  destruct (parse s1 (JS.get props k1)) as [y|] eqn:Hy; [|discriminate].
  destruct (parse_fields props rest) as [ys|] eqn:Hrest; [|discriminate].
  inversion H; subst; clear H.
  assert (JS.lookup k1 ys = None) as Hk1.
  { apply lookup_None_keys. intros Hin'. apply Hnotin.
    now apply (parse_fields_keys props rest ys). }
  destruct Hin as [Heq|Hin].
  - inversion Heq; subst; clear Heq. rewrite Hy. f_equal.
    destruct (is_undefined y && negb (JS.has props k)) eqn:Hdrop.
    + unfold JS.get. rewrite Hk1.
      apply andb_true_iff in Hdrop. destruct Hdrop as [Hu _].
      destruct y; simpl in Hu; congruence.
    + unfold JS.get. simpl. now rewrite String.eqb_refl.
  - assert (k1 <> k) as Hne.
    { intros ->. apply Hnotin. apply (in_map fst) in Hin. exact Hin. }
    rewrite (IH ys Hnd' eq_refl k fs Hin). f_equal.
    destruct (is_undefined y && negb (JS.has props k1)); [reflexivity|].
    unfold JS.get. simpl.
    destruct (String.eqb k1 k) eqn:E; [apply String.eqb_eq in E; contradiction|reflexivity].
Qed.

(** A field that no schema entry declares is stripped. *)
Lemma parse_fields_stripped (props : obj) (sh : list (string * schema)) (p : obj) (k : string) :
  parse_fields props sh = Some p -> ~ In k (map fst sh) -> JS.get p k = VUndef.
Proof.
  intros H Hnotin. unfold JS.get.
  assert (JS.lookup k p = None) as ->; [|reflexivity].
  apply lookup_None_keys. intros Hin. apply Hnotin.
  now apply (parse_fields_keys props sh p).
Qed.

(** A required field that the arguments do not have fails the validation. *)
Lemma parse_fields_missing (props : obj) (sh : list (string * schema)) (k : string) (fs : schema) :
  In (k, fs) sh -> parse fs (JS.get props k) = None -> parse_fields props sh = None.
Proof.
  induction sh as [|[k1 s1] rest IH]; simpl; intros Hin Hnone; [contradiction|].
  destruct Hin as [Heq|Hin].
  - inversion Heq; subst. now rewrite Hnone.
  - rewrite (IH Hin Hnone). now destruct (parse s1 (JS.get props k1)).
Qed.

Lemma parse_required_undefined (fs : schema) :
  required fs = true -> parse fs VUndef = None.
Proof. destruct fs; simpl; intros H; congruence. Qed.

Lemma parse_ZString (v y : value) :
  parse ZString v = Some y -> exists s, v = VStr s /\ y = VStr s.
Proof. destruct v; simpl; intros H; inversion H; eauto. Qed.

Lemma parse_ZNumber (v y : value) :
  parse ZNumber v = Some y -> exists n, v = VNum n /\ y = VNum n.
Proof. destruct v; simpl; intros H; inversion H; eauto. Qed.

Lemma parse_opt_string (v y : value) :
  parse opt_string v = Some y -> y = v /\ (v = VUndef \/ exists s, v = VStr s).
Proof. destruct v; simpl; intros H; inversion H; eauto. Qed.

Lemma parse_string_default (d : string) (v y : value) :
  parse (string_default d) v = Some y ->
  (v = VUndef /\ y = VStr d) \/ (exists s, v = VStr s /\ y = VStr s).
Proof. destruct v; simpl; intros H; inversion H; eauto. Qed.

Lemma parse_number_default (d : Z) (v y : value) :
  parse (number_default d) v = Some y ->
  (v = VUndef /\ y = VNum d) \/ (exists n, v = VNum n /\ y = VNum n).
Proof. destruct v; simpl; intros H; inversion H; eauto. Qed.

Lemma parse_ZObject (shape : list (string * schema)) (v y : value) :
  parse (ZObject shape) v = Some y ->
  exists props p, v = VObj props /\ y = VObj p /\ parse_fields props shape = Some p.
Proof.
  destruct v; try (simpl; discriminate).
  rewrite parse_object_eq. destruct (parse_fields props shape) as [p|] eqn:E; simpl; intros H;
    inversion H; eauto.
Qed.

Lemma parse_ZArray (element : schema) (v y : value) :
  parse (ZArray element) v = Some y ->
  exists items out, v = VArr items /\ y = VArr out /\ parse_each element items = Some out.
Proof.
  destruct v; try (simpl; discriminate).
  rewrite parse_array_eq. destruct (parse_each element items) as [out|] eqn:E; simpl; intros H;
    inversion H; eauto.
Qed.

Lemma parse_each_Forall2 (element : schema) (items out : list value) :
  parse_each element items = Some out ->
  Forall2 (fun x y => parse element x = Some y) items out.
Proof.
  revert out. induction items as [|x rest IH]; simpl; intros out H.
  - inversion H. constructor.
  - destruct (parse element x) as [y|] eqn:Hy; [|discriminate].
    destruct (parse_each element rest) as [ys|]; [|discriminate].
    inversion H; subst. constructor; [assumption|now apply IH].
Qed.

(** ** One call of [shipiRequest] *)

(** The loop of the query either converts every present entry or
    throws the TypeError, and issues nothing. *)
Lemma foldM_query (params : obj) (qs : URLSearchParams.t) (log : list outbound) :
  foldM
    (fun qs kv =>
       if present (snd kv)
       then s <- String_ (snd kv) ;; ret (URLSearchParams.set (fst kv) s qs)
       else ret qs)
    params qs log
  = if forallb (fun kv => if present (snd kv) then JS.stringable (snd kv) else true) params
    then (Ok (fold_left
                (fun qs kv =>
                   if present (snd kv)
                   then URLSearchParams.set (fst kv) (JS.to_string (snd kv)) qs
                   else qs)
                params qs), log)
    else (Throw "Cannot convert object to primitive value", log).
Proof.
  revert qs.
  induction params as [|[k v] rest IH]; intros qs; [reflexivity|].
  cbn [foldM forallb fold_left fst snd].
  unfold bind at 1.
  destruct (present v); [unfold String_, bind; destruct (JS.stringable v)|];
    cbn [ret throw andb]; [apply IH|reflexivity|apply IH].
Qed.

Lemma query_run (params : obj) (key : value) (log : list outbound) :
  query params key log
  = if convertible params key
    then (Ok (build_query params key), log)
    else (Throw "Cannot convert object to primitive value", log).
Proof.
  unfold query, convertible, build_query.
  unfold bind at 1.
  destruct (JS.truthy key);
    [unfold String_, bind; destruct (JS.stringable key)|];
    cbn [ret throw andb]; [apply foldM_query|reflexivity|apply foldM_query].
Qed.

(** A call that can build its request does what follows the call of
    [fetch] on the request [sent]. *)
Lemma shipiRequest_sends (endpoint : string) (params : obj) (method : string) (log : list outbound) :
  sends params method = true ->
  shipiRequest endpoint params method log
  = try_catch
      (response <- node_fetch (sent endpoint params method) ;;
       text <- response_text response ;;
       try_catch (parse_json text)
         (fun _ =>
            ret (VObj [("status", VStr "error");
                       ("message", VStr "Invalid JSON response");
                       ("raw", VStr (JS.substring0 500 text))])))
      (fun err =>
         ret (VObj [("status", VStr "error");
                    ("message", VStr ("Request failed: " ++ err))]))
      log.
Proof.
  unfold sends, shipiRequest, sent.
  destruct (String.eqb method "GET"); cbn [negb orb]; [|reflexivity].
  intros Hc.
  unfold try_catch, bind at 1.
  unfold bind at 1.
  rewrite query_run, Hc.
  reflexivity.
Qed.

(** A GET call that cannot build its query issues nothing and returns
    the structured error of the outer [catch]. *)
Lemma shipiRequest_unconvertible (endpoint : string) (params : obj) (method : string) (log : list outbound) :
  sends params method = false ->
  shipiRequest endpoint params method log = (Ok conversion_error, log).
Proof.
  unfold sends, shipiRequest.
  destruct (String.eqb method "GET"); cbn [negb orb]; [|discriminate].
  intros Hc.
  unfold try_catch, bind at 1.
  unfold bind at 1.
  rewrite query_run, Hc.
  reflexivity.
Qed.

(** A call that can build its request issues exactly that one and
    never throws. *)
Lemma shipiRequest_run (endpoint : string) (params : obj) (method : string) (log : list outbound) :
  sends params method = true ->
  exists data,
    shipiRequest endpoint params method log
    = (Ok data, (log ++ [sent endpoint params method])%list).
Proof.
  intros Hs.
  rewrite (shipiRequest_sends _ _ _ _ Hs).
  unfold try_catch, bind, node_fetch, response_text, parse_json.
  destruct (fetch _ _) as [r|e]; [|eexists; reflexivity].
  destruct (resp_text r) as [text|e]; [|eexists; reflexivity].
  destruct (JSON_parse text); eexists; reflexivity.
Qed.

(** A call that returns with one more request could build it. *)
Lemma run_sends (endpoint : string) (params : obj) (method : string)
  (log : list outbound) (r : result value) (o : outbound) :
  shipiRequest endpoint params method log = (r, (log ++ [o])%list) ->
  sends params method = true.
Proof.
  destruct (sends params method) eqn:Hs; [reflexivity|].
  rewrite (shipiRequest_unconvertible _ _ _ _ Hs).
  intros H.
  injection H as _ Hlog.
  apply (f_equal (@List.length outbound)) in Hlog.
  rewrite length_app in Hlog.
  simpl in Hlog.
  lia.
Qed.

(** The network failed: the structured error with the message. *)
Lemma shipiRequest_network_error
  (endpoint : string) (params : obj) (method : string) (log : list outbound) (e : string) :
  sends params method = true ->
  answer (sent endpoint params method) = Throw e ->
  shipiRequest endpoint params method log
  = (Ok (VObj [("status", VStr "error"); ("message", VStr ("Request failed: " ++ e))]),
     (log ++ [sent endpoint params method])%list).
Proof.
  intros Hs.
  rewrite (shipiRequest_sends _ _ _ _ Hs).
  unfold answer, try_catch, bind, node_fetch, response_text.
  intros ->; reflexivity.
Qed.

(** The body could not be read: the same structured error. *)
Lemma shipiRequest_body_error
  (endpoint : string) (params : obj) (method : string) (log : list outbound)
  (r : Response) (e : string) :
  sends params method = true ->
  answer (sent endpoint params method) = Ok r ->
  resp_text r = Throw e ->
  shipiRequest endpoint params method log
  = (Ok (VObj [("status", VStr "error"); ("message", VStr ("Request failed: " ++ e))]),
     (log ++ [sent endpoint params method])%list).
Proof.
  intros Hs.
  rewrite (shipiRequest_sends _ _ _ _ Hs).
  unfold answer, try_catch, bind, node_fetch, response_text.
  intros -> ->; reflexivity.
Qed.

(** The body is JSON: the parsed value, whatever the status. *)
Lemma shipiRequest_json
  (endpoint : string) (params : obj) (method : string) (log : list outbound)
  (r : Response) (text : string) (data : value) :
  sends params method = true ->
  answer (sent endpoint params method) = Ok r ->
  resp_text r = Ok text ->
  JSON_parse text = Some data ->
  shipiRequest endpoint params method log
  = (Ok data, (log ++ [sent endpoint params method])%list).
Proof.
  intros Hs.
  rewrite (shipiRequest_sends _ _ _ _ Hs).
  unfold answer, try_catch, bind, node_fetch, response_text, parse_json.
  intros -> -> ->; reflexivity.
Qed.

(** The body is not JSON: the structured error with the excerpt. *)
Lemma shipiRequest_not_json
  (endpoint : string) (params : obj) (method : string) (log : list outbound)
  (r : Response) (text : string) :
  sends params method = true ->
  answer (sent endpoint params method) = Ok r ->
  resp_text r = Ok text ->
  JSON_parse text = None ->
  shipiRequest endpoint params method log
  = (Ok (VObj [("status", VStr "error");
               ("message", VStr "Invalid JSON response");
               ("raw", VStr (JS.substring0 500 text))]),
     (log ++ [sent endpoint params method])%list).
Proof.
  intros Hs.
  rewrite (shipiRequest_sends _ _ _ _ Hs).
  unfold answer, try_catch, bind, node_fetch, response_text, parse_json.
  intros -> -> ->; reflexivity.
Qed.

(** ** Handlers on validated parameters *)

Lemma find_tool_in_spec (name : string) (tools : list tool) (t : tool) :
  find_tool_in name tools = Some t -> In t tools /\ tool_name t = name.
Proof.
  induction tools as [|t0 rest IH]; simpl; [discriminate|].
  destruct (String.eqb (tool_name t0) name) eqn:E.
  - intros H. inversion H; subst. apply String.eqb_eq in E. split; [now left|assumption].
  - intros H. destruct (IH H) as [Hin Hname]. split; [now right|assumption].
Qed.

Lemma validate_inv (t : tool) (args : value) (params : obj) :
  validate t args = Some params ->
  exists props, args = VObj props /\ parse_fields props (tool_schema t) = Some params.
Proof.
  unfold validate. intros H.
  destruct (parse (ZObject (tool_schema t)) args) as [y|] eqn:E; [|discriminate].
  destruct (parse_ZObject _ _ _ E) as (props & p & -> & -> & Hp).
  inversion H; subst. eauto.
Qed.

Lemma product_entry_object (po : obj) (log : list outbound) :
  product_entry (VObj po) log
  = (Ok (VObj [ ("prod_name", JS.or (JS.get po "name") (VStr "Package"));
                ("prod_weight", JS.get po "weight");
                ("prod_quantity", JS.or (JS.get po "quantity") (VNum 1));
                ("prod_price", JS.or (JS.get po "price") (VNum 0));
                ("prod_depth", JS.or (JS.get po "length") (VNum 1));
                ("prod_width", JS.or (JS.get po "width") (VNum 1));
                ("prod_height", JS.or (JS.get po "height") (VNum 1)) ]),
     log).
Proof. reflexivity. Qed.

(** On an array of objects [products.map] does not throw, and every
    entry of the outcome is the entry of the product at its place. *)
Lemma mapM_product_entry (l : list value) :
  Forall (fun v => is_object v = true) l ->
  exists out,
    (forall log, mapM product_entry l log = (Ok out, log))
    /\ Forall2 (fun p e => forall log, product_entry p log = (Ok e, log)) l out.
Proof.
  induction 1 as [|v rest Hv _ IH].
  - exists []. split; [reflexivity|constructor].
  - destruct IH as (out & Hrun & Hall).
    destruct v as [| | | | |?|po]; try discriminate.
    eexists (_ :: out). split.
    + intros log. cbn [mapM]. unfold bind at 1.
      rewrite product_entry_object. unfold bind at 1. rewrite Hrun. reflexivity.
    + constructor; [|assumption]. intros log. apply product_entry_object.
Qed.

Lemma parse_each_objects (shape : list (string * schema)) (items out : list value) :
  parse_each (ZObject shape) items = Some out ->
  Forall (fun v => is_object v = true) out.
Proof.
  intros H. apply parse_each_Forall2 in H.
  induction H as [|x y xs ys Hxy _ IH]; constructor; [|assumption].
  destruct (parse_ZObject _ _ _ Hxy) as (? & ? & _ & -> & _). reflexivity.
Qed.

Lemma create_shipment_meta_run
  (carrier_id service_code : value) (s r : obj) (l out : list value) (log : list outbound) :
  (forall log', mapM product_entry l log' = (Ok out, log')) ->
  create_shipment_meta carrier_id service_code (VObj s) (VObj r) (VArr l) log
  = (Ok [ ("label", VStr "d");
          ("s_name", JS.get s "name");
          ("s_company", JS.or (JS.get s "company") (VStr ""));
          ("s_address1", JS.get s "address1");
          ("s_address2", JS.or (JS.get s "address2") (VStr ""));
          ("s_city", JS.get s "city");
          ("s_state", JS.get s "state");
          ("s_postal", JS.get s "postal");
          ("s_country", JS.get s "country");
          ("s_phone", JS.or (JS.get s "phone") (VStr ""));
          ("s_email", JS.or (JS.get s "email") (VStr ""));
          ("t_name", JS.get r "name");
          ("t_company", JS.or (JS.get r "company") (VStr ""));
          ("t_address1", JS.get r "address1");
          ("t_address2", JS.or (JS.get r "address2") (VStr ""));
          ("t_city", JS.get r "city");
          ("t_state", JS.get r "state");
          ("t_postal", JS.get r "postal");
          ("t_country", JS.get r "country");
          ("t_phone", JS.or (JS.get r "phone") (VStr ""));
          ("t_email", JS.or (JS.get r "email") (VStr ""));
          ("service_code", JS.or service_code (VStr ""));
          ("carrier_id", carrier_id);
          ("products", VArr out) ],
     log).
Proof.
  intros Hmap. unfold create_shipment_meta, array_map. cbn [bind prop ret].
  unfold bind. rewrite Hmap. reflexivity.
Qed.

Ltac in_list := simpl; repeat (first [left; reflexivity | right]).

Ltac distinct_keys := apply distinct_NoDup; vm_compute; reflexivity.

(** The entry of a validated product is the entry of the product as
    the caller gave it: the defaults of the schema are the fallbacks
    of the handler. *)
Lemma product_entry_validated (po : obj) (y : value) (log : list outbound) :
  parse Schema.product (VObj po) = Some y ->
  product_entry y log = product_entry (VObj po) log.
Proof.
  intros H. unfold Schema.product in H.
  destruct (parse_ZObject _ _ _ H) as (props & q & Hprops & -> & Hq).
  inversion Hprops; subst props; clear Hprops H.
  assert (NoDup (map fst Schema.product_fields)) as Hnd by distinct_keys.
  pose proof (parse_fields_get po _ q Hnd Hq) as Hget.
  rewrite !product_entry_object.
  assert (Hname := Hget "name" _ ltac:(in_list)).
  assert (Hweight := Hget "weight" _ ltac:(in_list)).
  assert (Hquantity := Hget "quantity" _ ltac:(in_list)).
  assert (Hprice := Hget "price" _ ltac:(in_list)).
  assert (Hlength := Hget "length" _ ltac:(in_list)).
  assert (Hwidth := Hget "width" _ ltac:(in_list)).
  assert (Hheight := Hget "height" _ ltac:(in_list)).
  apply parse_string_default in Hname.
  apply parse_ZNumber in Hweight.
  apply parse_number_default in Hquantity, Hprice, Hlength, Hwidth, Hheight.
  destruct Hname as [[-> ->]|(? & -> & ->)];
  destruct Hweight as (? & -> & ->);
  destruct Hquantity as [[-> ->]|(? & -> & ->)];
  destruct Hprice as [[-> ->]|(? & -> & ->)];
  destruct Hlength as [[-> ->]|(? & -> & ->)];
  destruct Hwidth as [[-> ->]|(? & -> & ->)];
  destruct Hheight as [[-> ->]|(? & -> & ->)];
  reflexivity.
Qed.

(** On validated products [products.map] gives, place by place, the
    entries of the products as the caller gave them. *)
Lemma products_validated (items out : list value) :
  parse_each Schema.product items = Some out ->
  exists prods,
    (forall log, mapM product_entry out log = (Ok prods, log))
    /\ Forall2
         (fun item e =>
            exists po, item = VObj po
                       /\ forall log, product_entry (VObj po) log = (Ok e, log))
         items prods.
Proof.
  intros H.
  pose proof (parse_each_objects _ _ _ H) as Hobj.
  destruct (mapM_product_entry out Hobj) as (prods & Hrun & Hall).
  exists prods. split; [assumption|].
  apply parse_each_Forall2 in H. clear Hrun Hobj.
  revert prods Hall. induction H as [|x y xs ys Hxy _ IH]; intros prods Hall.
  - inversion Hall. constructor.
  - inversion Hall as [|? e ? es He Hes]; subst.
    constructor; [|now apply IH].
    destruct (parse_ZObject _ _ _ Hxy) as (po & q & -> & Hy & _).
    exists po. split; [reflexivity|].
    intros log. rewrite <- (product_entry_validated po y log Hxy). apply He.
Qed.

(** The fields of a validated address, in terms of the address as the
    caller gave it. *)
Lemma address_validated (sp s : obj) :
  parse_fields sp Schema.address_fields = Some s ->
  JS.get s "name" = JS.get sp "name"
  /\ JS.get s "address1" = JS.get sp "address1"
  /\ JS.get s "city" = JS.get sp "city"
  /\ JS.get s "state" = JS.get sp "state"
  /\ JS.get s "postal" = JS.get sp "postal"
  /\ JS.get s "country" = JS.get sp "country"
  /\ JS.or (JS.get s "company") (VStr "") = JS.or (JS.get sp "company") (VStr "")
  /\ JS.or (JS.get s "address2") (VStr "") = JS.or (JS.get sp "address2") (VStr "")
  /\ JS.or (JS.get s "phone") (VStr "") = JS.or (JS.get sp "phone") (VStr "")
  /\ JS.or (JS.get s "email") (VStr "") = JS.or (JS.get sp "email") (VStr "").
Proof.
  intros Hs.
  assert (NoDup (map fst Schema.address_fields)) as Hnd by distinct_keys.
  pose proof (parse_fields_get sp _ s Hnd Hs) as Hget.
  assert (Hname := Hget "name" _ ltac:(in_list)).
  assert (Haddress1 := Hget "address1" _ ltac:(in_list)).
  assert (Hcity := Hget "city" _ ltac:(in_list)).
  assert (Hstate := Hget "state" _ ltac:(in_list)).
  assert (Hpostal := Hget "postal" _ ltac:(in_list)).
  assert (Hcountry := Hget "country" _ ltac:(in_list)).
  assert (Hcompany := Hget "company" _ ltac:(in_list)).
  assert (Haddress2 := Hget "address2" _ ltac:(in_list)).
  assert (Hphone := Hget "phone" _ ltac:(in_list)).
  assert (Hemail := Hget "email" _ ltac:(in_list)).
  apply parse_ZString in Hname, Haddress1, Hcity, Hstate, Hpostal, Hcountry.
  apply parse_string_default in Hcompany, Haddress2, Hphone, Hemail.
  destruct Hname as (? & -> & ->), Haddress1 as (? & -> & ->), Hcity as (? & -> & ->),
    Hstate as (? & -> & ->), Hpostal as (? & -> & ->), Hcountry as (? & -> & ->).
  destruct Hcompany as [[-> ->]|(? & -> & ->)];
  destruct Haddress2 as [[-> ->]|(? & -> & ->)];
  destruct Hphone as [[-> ->]|(? & -> & ->)];
  destruct Hemail as [[-> ->]|(? & -> & ->)];
  repeat split; reflexivity.
Qed.

Ltac lookup_fields := cbn [JS.lookup String.eqb Ascii.eqb Bool.eqb].

(** create_shipment on validated parameters: one POST whose [meta]
    holds the two addresses flattened and the product entries, all in
    terms of the arguments as the caller gave them. *)
Lemma create_shipment_validated (props params : obj) :
  parse_fields props Schema.create_shipment = Some params ->
  exists sp rp items meta prods,
    JS.get props "shipper" = VObj sp
    /\ JS.get props "recipient" = VObj rp
    /\ JS.get props "products" = VArr items
    /\ relays create_shipment_handler params "label_api/create_shipment.php"
         [ ("integrated_key", JS.or (JS.get params "integration_key") (VStr DEFAULT_KEY));
           ("meta", VObj meta) ] "POST"
    /\ (JS.lookup "s_name" meta = Some (JS.get sp "name")
        /\ JS.lookup "s_company" meta = Some (JS.or (JS.get sp "company") (VStr ""))
        /\ JS.lookup "s_address1" meta = Some (JS.get sp "address1")
        /\ JS.lookup "s_address2" meta = Some (JS.or (JS.get sp "address2") (VStr ""))
        /\ JS.lookup "s_city" meta = Some (JS.get sp "city")
        /\ JS.lookup "s_state" meta = Some (JS.get sp "state")
        /\ JS.lookup "s_postal" meta = Some (JS.get sp "postal")
        /\ JS.lookup "s_country" meta = Some (JS.get sp "country")
        /\ JS.lookup "s_phone" meta = Some (JS.or (JS.get sp "phone") (VStr ""))
        /\ JS.lookup "s_email" meta = Some (JS.or (JS.get sp "email") (VStr "")))
    /\ (JS.lookup "t_name" meta = Some (JS.get rp "name")
        /\ JS.lookup "t_company" meta = Some (JS.or (JS.get rp "company") (VStr ""))
        /\ JS.lookup "t_address1" meta = Some (JS.get rp "address1")
        /\ JS.lookup "t_address2" meta = Some (JS.or (JS.get rp "address2") (VStr ""))
        /\ JS.lookup "t_city" meta = Some (JS.get rp "city")
        /\ JS.lookup "t_state" meta = Some (JS.get rp "state")
        /\ JS.lookup "t_postal" meta = Some (JS.get rp "postal")
        /\ JS.lookup "t_country" meta = Some (JS.get rp "country")
        /\ JS.lookup "t_phone" meta = Some (JS.or (JS.get rp "phone") (VStr ""))
        /\ JS.lookup "t_email" meta = Some (JS.or (JS.get rp "email") (VStr "")))
    /\ JS.lookup "carrier_id" meta = Some (JS.get props "carrier_id")
    /\ JS.lookup "products" meta = Some (VArr prods)
    /\ Forall2
         (fun item e =>
            exists po, item = VObj po
                       /\ forall log, product_entry (VObj po) log = (Ok e, log))
         items prods.
Proof.
  intros Hp.
  assert (NoDup (map fst Schema.create_shipment)) as Hnd by distinct_keys.
  pose proof (parse_fields_get props _ params Hnd Hp) as Hget.
  assert (Hcarrier := Hget "carrier_id" _ ltac:(in_list)).
  assert (Hshipper := Hget "shipper" _ ltac:(in_list)).
  assert (Hrecipient := Hget "recipient" _ ltac:(in_list)).
  assert (Hproducts := Hget "products" _ ltac:(in_list)).
  apply parse_ZNumber in Hcarrier. destruct Hcarrier as (n & Hn & Hn').
  apply parse_ZObject in Hshipper. destruct Hshipper as (sp & s & Hsp & Hs & Hsf).
  apply parse_ZObject in Hrecipient. destruct Hrecipient as (rp & r & Hrp & Hr & Hrf).
  apply parse_ZArray in Hproducts. destruct Hproducts as (items & out & Hitems & Hout & Heach).
  destruct (products_validated items out Heach) as (prods & Hrun & Hall).
  destruct (address_validated sp s Hsf)
    as (S1 & S2 & S3 & S4 & S5 & S6 & S7 & S8 & S9 & S10).
  destruct (address_validated rp r Hrf)
    as (R1 & R2 & R3 & R4 & R5 & R6 & R7 & R8 & R9 & R10).
  exists sp, rp, items. eexists. exists prods.
  split; [assumption|]. split; [assumption|]. split; [assumption|].
  split.
  - intros log. unfold create_shipment_handler.
    rewrite Hs, Hr, Hout. unfold bind at 1.
    rewrite (create_shipment_meta_run _ _ s r out prods log Hrun).
    reflexivity.
  - lookup_fields.
    rewrite S1, S2, S3, S4, S5, S6, S7, S8, S9, S10.
    rewrite R1, R2, R3, R4, R5, R6, R7, R8, R9, R10.
    rewrite Hn', Hn.
    repeat split; try reflexivity. assumption.
Qed.

(** get_shipping_rates on validated parameters: one POST with the
    product entries of the products as the caller gave them. *)
Lemma get_shipping_rates_validated (props params : obj) :
  parse_fields props Schema.get_shipping_rates = Some params ->
  exists items prods,
    JS.get props "products" = VArr items
    /\ relays get_shipping_rates_handler params "rates_api/shipi_rates.php"
         [ ("integration_key", JS.or (JS.get params "integration_key") (VStr DEFAULT_KEY));
           ("receiver_address", JS.get params "receiver_address");
           ("products", VArr prods);
           ("account_id", JS.get params "account_id") ] "POST"
    /\ Forall2
         (fun item e =>
            exists po, item = VObj po
                       /\ forall log, product_entry (VObj po) log = (Ok e, log))
         items prods.
Proof.
  intros Hp.
  assert (NoDup (map fst Schema.get_shipping_rates)) as Hnd by distinct_keys.
  pose proof (parse_fields_get props _ params Hnd Hp) as Hget.
  assert (Hproducts := Hget "products" _ ltac:(in_list)).
  apply parse_ZArray in Hproducts. destruct Hproducts as (items & out & Hitems & Hout & Heach).
  destruct (products_validated items out Heach) as (prods & Hrun & Hall).
  exists items, prods. split; [assumption|]. split; [|assumption].
  intros log. unfold get_shipping_rates_handler, array_map.
  rewrite Hout. unfold bind at 1. unfold bind at 1. rewrite Hrun. reflexivity.
Qed.

(** ** Every tool relays *)

Lemma schemas_distinct (t : tool) :
  In t server_tools -> NoDup (map fst (tool_schema t)).
Proof.
  intros Hin. apply distinct_NoDup.
  simpl in Hin.
  repeat (destruct Hin as [<-|Hin]; [vm_compute; reflexivity|]).
  contradiction.
Qed.

(** ** Parameters that convert to strings *)

Lemma is_scalar_stringable (v : value) : is_scalar v = true -> JS.stringable v = true.
Proof.
  destruct v; simpl; intros H; first [reflexivity|discriminate].
Qed.

Lemma is_scalar_or (a b : value) :
  is_scalar a = true -> is_scalar b = true -> is_scalar (JS.or a b) = true.
Proof.
  intros Ha Hb. unfold JS.or. now destruct (JS.truthy a).
Qed.

Lemma all_scalar_get (o : obj) (k : string) :
  all_scalar o = true -> is_scalar (JS.get o k) = true.
Proof.
  unfold JS.get, all_scalar.
  induction o as [|[k' v] rest IH]; cbn [forallb JS.lookup snd]; [reflexivity|].
  intros H. apply andb_prop in H. destruct H as [Hv Hrest].
  destruct (String.eqb k' k); [exact Hv|now apply IH].
Qed.

Lemma all_scalar_set (k : string) (v : value) (o : obj) :
  is_scalar v = true -> all_scalar o = true -> all_scalar (JS.set k v o) = true.
Proof.
  unfold all_scalar. intros Hv.
  induction o as [|[k' v'] rest IH]; cbn [JS.set forallb snd].
  - intros _. now rewrite Hv.
  - intros H. apply andb_prop in H. destruct H as [Hv' Hrest].
    destruct (String.eqb k' k); cbn [forallb snd].
    + now rewrite Hv, Hrest.
    + now rewrite Hv', (IH Hrest).
Qed.

Lemma all_scalar_spread (base ext : obj) :
  all_scalar base = true -> all_scalar ext = true ->
  all_scalar (JS.spread base ext) = true.
Proof.
  unfold JS.spread. revert base.
  induction ext as [|[k v] rest IH]; intros base Hb He; [exact Hb|].
  unfold all_scalar in He. cbn [forallb snd] in He.
  apply andb_prop in He. destruct He as [Hv Hrest].
  cbn [fold_left fst snd]. apply IH; [now apply all_scalar_set|exact Hrest].
Qed.

(** What the validator lets through a schema of strings and numbers. *)
Lemma parse_scalar_value (fs : schema) (v y : value) :
  parse fs v = Some y ->
  match scalar fs with Some _ => true | None => false end = true ->
  is_scalar y = true.
Proof.
  revert v y. induction fs as [| |inner IH|inner IH d|shape|element];
    intros v y H Hs; simpl in Hs; try discriminate.
  - destruct v; simpl in H; inversion H; reflexivity.
  - destruct v; simpl in H; inversion H; reflexivity.
  - destruct v; simpl in H; try (now apply (IH _ _ H)).
    inversion H. reflexivity.
  - destruct v; simpl in H; now apply (IH _ _ H).
Qed.

Lemma parse_fields_scalar (props : obj) (sh : list (string * schema)) (p : obj) :
  scalar_schema sh = true ->
  parse_fields props sh = Some p ->
  all_scalar p = true.
Proof.
  revert p. induction sh as [|[k fs] rest IH]; intros p Hs H.
  - inversion H. reflexivity.
  - unfold scalar_schema in Hs. cbn [forallb snd] in Hs.
    apply andb_prop in Hs. destruct Hs as [Hfs Hrest].
    cbn [parse_fields] in H.
    destruct (parse fs (JS.get props k)) as [y|] eqn:Hy; [|discriminate].
    destruct (parse_fields props rest) as [ys|] eqn:Hys; [|discriminate].
    inversion H; subst; clear H.
    specialize (IH ys Hrest eq_refl).
    destruct (is_undefined y && negb (JS.has props k)); [exact IH|].
    unfold all_scalar. cbn [forallb snd].
    rewrite (parse_scalar_value fs _ y Hy Hfs). exact IH.
Qed.

(** Parameters without arrays and objects always make a request. *)
Lemma all_scalar_sends (ps : obj) (method : string) :
  all_scalar ps = true -> sends ps method = true.
Proof.
  intros Hs. unfold sends, convertible.
  assert (is_scalar (JS.or (JS.get ps "integration_key") (VStr DEFAULT_KEY)) = true) as Hk
    by (apply is_scalar_or; [now apply all_scalar_get|reflexivity]).
  rewrite (is_scalar_stringable _ Hk).
  assert (forallb (fun kv => if present (snd kv) then JS.stringable (snd kv) else true) ps
          = true) as ->.
  { clear Hk. unfold all_scalar in Hs.
    induction ps as [|[k v] rest IH]; cbn [forallb snd] in *; [reflexivity|].
    apply andb_prop in Hs. destruct Hs as [Hv Hrest].
    rewrite (is_scalar_stringable _ Hv), (IH Hrest).
    now destruct (present v). }
  destruct (JS.truthy _); cbn [andb]; apply orb_true_r.
Qed.

(** On validated parameters every handler of the catalog makes one
    call of [shipiRequest], which gets as far as the request, and
    returns its result as text content. *)
Lemma handler_relays (t : tool) (props params : obj) :
  In t server_tools ->
  parse_fields props (tool_schema t) = Some params ->
  exists endpoint ps method,
    relays (tool_handler t) params endpoint ps method
    /\ sends ps method = true.
Proof.
  intros Hin Hp. simpl in Hin.
  repeat (destruct Hin as [<-|Hin];
          [first
             [ do 3 eexists; split; [intros log; reflexivity|];
               first
                 [ reflexivity
                 | pose proof (fun H => parse_fields_scalar props _ params H Hp) as Hsc;
                   specialize (Hsc eq_refl);
                   apply all_scalar_sends;
                   first
                     [ apply all_scalar_spread; [reflexivity|exact Hsc]
                     | unfold all_scalar; cbn [forallb snd];
                       repeat (apply andb_true_intro; split);
                       first
                         [ reflexivity
                         | apply all_scalar_get; exact Hsc
                         | apply is_scalar_or;
                           [apply all_scalar_get; exact Hsc|reflexivity] ] ] ]
             | destruct (create_shipment_validated props params Hp)
                 as (? & ? & ? & meta & ? & _ & _ & _ & Hrel & _);
               do 3 eexists; split; [exact Hrel|reflexivity]
             | destruct (get_shipping_rates_validated props params Hp)
                 as (? & prods & _ & Hrel & _);
               do 3 eexists; split; [exact Hrel|reflexivity] ]
          |]).
  contradiction.
Qed.

Lemma accepts_inv (name : string) (args : value) :
  accepts name args = true ->
  exists t props params,
    find_tool name = Some t
    /\ In t server_tools
    /\ tool_name t = name
    /\ args = VObj props
    /\ parse_fields props (tool_schema t) = Some params
    /\ validate t args = Some params.
Proof.
  unfold accepts. destruct (find_tool name) as [t|] eqn:Hfind; [|discriminate].
  destruct (validate t args) as [params|] eqn:Hval; [|discriminate].
  intros _. destruct (find_tool_in_spec _ _ _ Hfind) as [Hin Hname].
  destruct (validate_inv _ _ _ Hval) as (props & -> & Hp).
  exists t, props, params. repeat split; assumption.
Qed.

(** A call that relays: its outcome and its request. *)
Lemma call_tool_relays
  (name : string) (t : tool) (args : value) (params : obj)
  (endpoint : string) (ps : obj) (method : string) (log : list outbound) :
  find_tool name = Some t ->
  validate t args = Some params ->
  relays (tool_handler t) params endpoint ps method ->
  exists data,
    shipiRequest endpoint ps method log
    = (Ok data, (log ++ [sent endpoint ps method])%list)
    /\ call_tool name args log
       = (Returned (text_content data), (log ++ [sent endpoint ps method])%list).
Proof.
  intros Hfind Hval Hrel.
  assert (sends ps method = true) as Hs.
  { destruct (find_tool_in_spec _ _ _ Hfind) as [Hin _].
    destruct (validate_inv _ _ _ Hval) as (props & _ & Hp).
    destruct (handler_relays t props params Hin Hp) as (e' & ps' & m' & Hrel' & Hs').
    destruct (shipiRequest_run e' ps' m' log Hs') as (data' & Hrun').
    destruct (sends ps method) eqn:Hs; [reflexivity|exfalso].
    pose proof (Hrel log) as H. rewrite (Hrel' log) in H.
    unfold bind in H.
    rewrite Hrun', (shipiRequest_unconvertible _ _ _ _ Hs) in H.
    unfold ret in H. injection H as _ Hlog.
    apply (f_equal (@List.length outbound)) in Hlog.
    rewrite length_app in Hlog. simpl in Hlog. lia. }
  destruct (shipiRequest_run endpoint ps method log Hs) as (data & Hrun).
  exists data. split; [assumption|].
  unfold call_tool. rewrite Hfind, Hval, (Hrel log).
  unfold bind. rewrite Hrun. reflexivity.
Qed.

(** An accepted call issues exactly one request and returns the result
    of [shipiRequest] as text content. *)
Lemma call_tool_accepted (name : string) (args : value) (log : list outbound) :
  accepts name args = true ->
  exists endpoint ps method data,
    shipiRequest endpoint ps method log
    = (Ok data, (log ++ [sent endpoint ps method])%list)
    /\ call_tool name args log
       = (Returned (text_content data), (log ++ [sent endpoint ps method])%list).
Proof.
  intros Hacc.
  destruct (accepts_inv _ _ Hacc) as (t & props & params & Hfind & Hin & _ & -> & Hp & Hval).
  destruct (handler_relays t props params Hin Hp) as (endpoint & ps & method & Hrel & _).
  destruct (call_tool_relays name t _ params endpoint ps method log Hfind Hval Hrel)
    as (data & Hrun & Hcall).
  exists endpoint, ps, method, data. split; assumption.
Qed.

(** ** The excerpt of a body *)

Lemma substring0_prefix (n : nat) (s : string) :
  String.prefix (JS.substring0 n s) s = true.
Proof.
  unfold JS.substring0. revert n.
  induction s as [|c rest IH]; intros [|n]; simpl; try reflexivity.
  rewrite IH. now destruct (ascii_dec c c).
Qed.

Lemma substring0_length (n : nat) (s : string) :
  String.length (JS.substring0 n s) = Nat.min n (String.length s).
Proof.
  unfold JS.substring0. revert n.
  induction s as [|c rest IH]; intros [|n]; simpl; try reflexivity.
  now rewrite IH.
Qed.

Lemma substring0_whole (n : nat) (s : string) :
  String.length s <= n -> JS.substring0 n s = s.
Proof.
  unfold JS.substring0. revert n.
  induction s as [|c rest IH]; intros [|n]; simpl; intros H; try reflexivity; try lia.
  f_equal. apply IH. lia.
Qed.

(** ** The claims about the answer of the backend *)

(** C5: for every accepted tool invocation whose response body is not
    parseable as JSON, the call does not throw: it returns, as its
    text content, the structured error with status error, the message
    Invalid JSON response and a raw field that is exactly the first 500
    characters of the body (the whole body when it is shorter). *)
Theorem non_json_body_is_structured_error :
  forall (name : string) (args : value) (log : list outbound),
    accepts name args = true ->
    exists o,
      snd (call_tool name args log) = (log ++ [o])%list
      /\ forall r text,
           answer o = Ok r -> resp_text r = Ok text -> JSON_parse text = None ->
           exists raw,
             fst (call_tool name args log)
             = Returned
                 (text_content
                    (VObj [("status", VStr "error");
                           ("message", VStr "Invalid JSON response");
                           ("raw", VStr raw)]))
             /\ raw = String.substring 0 500 text
             /\ String.prefix raw text = true
             /\ String.length raw = Nat.min 500 (String.length text)
             /\ (String.length text <= 500 -> raw = text).
Proof.
  intros name args log Hacc.
  destruct (call_tool_accepted name args log Hacc)
    as (endpoint & ps & method & data & Hrun & Hcall).
  pose proof (run_sends _ _ _ _ _ _ Hrun) as Hsends.
  exists (sent endpoint ps method). rewrite Hcall. split; [reflexivity|].
  intros r text Hans Htext Hparse.
  rewrite (shipiRequest_not_json _ _ _ _ r text Hsends Hans Htext Hparse) in Hrun.
  inversion Hrun; subst data.
  exists (JS.substring0 500 text). simpl fst.
  split; [reflexivity|]. split; [reflexivity|].
  split; [apply substring0_prefix|]. split; [apply substring0_length|].
  apply substring0_whole.
Qed.

(** C6: for every accepted tool invocation in which the outbound
    request itself fails (the network layer throws, or the body cannot
    be read), the failure is caught: the call returns the structured
    result with status error and the message of the failure, as a
    normal tool result. *)
Theorem network_failure_is_structured_error :
  forall (name : string) (args : value) (log : list outbound),
    accepts name args = true ->
    exists o,
      snd (call_tool name args log) = (log ++ [o])%list
      /\ (forall e,
            answer o = Throw e ->
            fst (call_tool name args log)
            = Returned
                (text_content
                   (VObj [("status", VStr "error");
                          ("message", VStr ("Request failed: " ++ e))])))
      /\ (forall r e,
            answer o = Ok r -> resp_text r = Throw e ->
            fst (call_tool name args log)
            = Returned
                (text_content
                   (VObj [("status", VStr "error");
                          ("message", VStr ("Request failed: " ++ e))]))).
Proof.
  intros name args log Hacc.
  destruct (call_tool_accepted name args log Hacc)
    as (endpoint & ps & method & data & Hrun & Hcall).
  pose proof (run_sends _ _ _ _ _ _ Hrun) as Hsends.
  exists (sent endpoint ps method). rewrite Hcall. split; [reflexivity|]. split.
  - intros e Hans.
    rewrite (shipiRequest_network_error _ _ _ _ e Hsends Hans) in Hrun.
    inversion Hrun; subst data. reflexivity.
  - intros r e Hans Htext.
    rewrite (shipiRequest_body_error _ _ _ _ r e Hsends Hans Htext) in Hrun.
    inversion Hrun; subst data. reflexivity.
Qed.

(** C8: for every accepted tool invocation, the object that
    [shipiRequest] returns (the parsed body when the backend returns
    JSON, a structured error otherwise) is serialized with
    [JSON.stringify] at indentation 2 and returned unchanged as the
    single text item of the content of the tool. *)
Theorem tool_output_is_serialized_result :
  forall (name : string) (args : value) (log : list outbound),
    accepts name args = true ->
    exists endpoint ps method data,
      shipiRequest endpoint ps method log
      = (Ok data, (log ++ [sent endpoint ps method])%list)
      /\ call_tool name args log
         = (Returned
              (VObj [("content",
                      VArr [VObj [("type", VStr "text"); ("text", toText data)]])]),
            (log ++ [sent endpoint ps method])%list)
      /\ (forall r body parsed,
            answer (sent endpoint ps method) = Ok r ->
            resp_text r = Ok body ->
            JSON_parse body = Some parsed ->
            data = parsed)
      /\ (forall text,
            JSON.stringify_indent2 data = Some text -> toText data = VStr text).
Proof.
  intros name args log Hacc.
  destruct (call_tool_accepted name args log Hacc)
    as (endpoint & ps & method & data & Hrun & Hcall).
  pose proof (run_sends _ _ _ _ _ _ Hrun) as Hsends.
  exists endpoint, ps, method, data.
  split; [assumption|]. split; [assumption|]. split.
  - intros r body parsed Hans Htext Hparse.
    rewrite (shipiRequest_json _ _ _ _ r body parsed Hsends Hans Htext Hparse) in Hrun.
    now inversion Hrun.
  - intros text H. unfold toText. now rewrite H.
Qed.

(** ** The claims about validation *)

(** C4: for every tool, an invocation whose arguments omit a required
    parameter of the schema of the tool fails with the validation
    error, and no request is issued: the list of the requests is as it
    was before the call. *)
Theorem missing_required_parameter_fails_validation :
  forall (name : string) (t : tool) (k : string) (fs : schema)
         (props : obj) (log : list outbound),
    find_tool name = Some t ->
    In (k, fs) (tool_schema t) ->
    required fs = true ->
    JS.lookup k props = None ->
    call_tool name (VObj props) log = (ValidationError, log).
Proof.
  intros name t k fs props log Hfind Hin Hreq Hmiss.
  unfold call_tool. rewrite Hfind. unfold validate. rewrite parse_object_eq.
  rewrite (parse_fields_missing props (tool_schema t) k fs Hin); [reflexivity|].
  unfold JS.get. rewrite Hmiss. now apply parse_required_undefined.
Qed.

(** ** The body of a POST *)

Lemma lookup_spread_nil (k : string) (params : obj) :
  NoDup (JS.keys params) -> JS.lookup k (JS.spread [] params) = JS.lookup k params.
Proof.
  intros Hnd. rewrite (lookup_spread k params [] Hnd).
  now destruct (JS.lookup k params).
Qed.

(** The body of the POST branch, field by field. *)
Lemma lookup_build_body (k : string) (params : obj) (key : value) :
  NoDup (JS.keys params) ->
  JS.lookup k (build_body params key)
  = if String.eqb k "integration_key" && JS.truthy key
       && negb (JS.truthy (JS.get params "integration_key"))
    then Some key
    else JS.lookup k params.
Proof.
  intros Hnd. unfold build_body.
  assert (JS.get (JS.spread [] params) "integration_key" = JS.get params "integration_key") as ->.
  { unfold JS.get. now rewrite lookup_spread_nil. }
  destruct (JS.truthy key && negb (JS.truthy (JS.get params "integration_key"))) eqn:E.
  - destruct (String.eqb k "integration_key") eqn:Ek.
    + apply String.eqb_eq in Ek. subst k. rewrite lookup_set_same.
      apply andb_true_iff in E. destruct E as [-> ->]. reflexivity.
    + apply String.eqb_neq in Ek. rewrite lookup_set_other by congruence.
      simpl. now apply lookup_spread_nil.
  - rewrite lookup_spread_nil by assumption.
    destruct (String.eqb k "integration_key"); [|reflexivity].
    simpl. now rewrite E.
Qed.

Lemma get_build_body (k : string) (params : obj) (key : value) :
  NoDup (JS.keys params) ->
  JS.get (build_body params key) k
  = if String.eqb k "integration_key" && JS.truthy key
       && negb (JS.truthy (JS.get params "integration_key"))
    then key
    else JS.get params k.
Proof.
  intros Hnd. unfold JS.get at 1. rewrite (lookup_build_body k params key Hnd).
  now destruct (String.eqb k "integration_key" && JS.truthy key
                && negb (JS.truthy (JS.get params "integration_key"))).
Qed.

Lemma sent_POST (endpoint : string) (params : obj) :
  sent endpoint params "POST"
  = OutPost (BASE_URL ++ "/" ++ endpoint)
      (build_body params (JS.or (JS.get params "integration_key") (VStr DEFAULT_KEY))).
Proof. reflexivity. Qed.

Lemma sent_GET (endpoint : string) (params : obj) :
  sent endpoint params "GET"
  = OutGet (BASE_URL ++ "/" ++ endpoint)
      (build_query params (JS.or (JS.get params "integration_key") (VStr DEFAULT_KEY))).
Proof. reflexivity. Qed.

(** ** The claims about the translation of the parameters *)

(** C3: for every accepted cancel_shipment invocation with
    shipment_id n, the one request is a POST whose body has the field
    del_ref with value n and has no field shipment_id. *)
Theorem cancel_shipment_sends_del_ref :
  forall (props : obj) (n : Z) (log : list outbound),
    accepts "cancel_shipment" (VObj props) = true ->
    JS.get props "shipment_id" = VNum n ->
    exists url body data,
      call_tool "cancel_shipment" (VObj props) log
      = (Returned (text_content data), (log ++ [OutPost url body])%list)
      /\ JS.lookup "del_ref" body = Some (VNum n)
      /\ JS.lookup "shipment_id" body = None.
Proof.
  intros props n log Hacc Hn.
  destruct (accepts_inv _ _ Hacc)
    as (t & props' & params & Hfind & Hin & _ & Hargs & Hp & Hval).
  inversion Hargs; subst props'; clear Hargs.
  assert (t = {| tool_name := "cancel_shipment";
                 tool_schema := Schema.cancel_shipment;
                 tool_handler := cancel_shipment_handler |}) as ->.
  { unfold find_tool in Hfind. simpl in Hfind. congruence. }
  simpl in Hp.
  assert (NoDup (map fst Schema.cancel_shipment)) as Hnd by distinct_keys.
  pose proof (parse_fields_get props _ params Hnd Hp "shipment_id" _ ltac:(in_list)) as Hid.
  rewrite Hn in Hid. simpl in Hid. inversion Hid as [Hid'].
  set (ps := [ ("integrated_key",
                JS.or (JS.get params "integration_key") (VStr DEFAULT_KEY));
               ("del_ref", JS.get params "shipment_id") ]).
  assert (relays cancel_shipment_handler params "cancel_api/delete_shipment.php" ps "POST")
    as Hrel by (intros log'; reflexivity).
  destruct (call_tool_relays _ _ _ params _ ps "POST" log Hfind Hval Hrel)
    as (data & _ & Hcall).
  rewrite sent_POST in Hcall.
  eexists _, _, data. split; [exact Hcall|].
  assert (NoDup (JS.keys ps)) as Hps by distinct_keys.
  rewrite !(lookup_build_body _ ps _ Hps). simpl String.eqb. simpl andb.
  subst ps. lookup_fields. rewrite <- Hid'. split; reflexivity.
Qed.

Lemma or_one_not_zero (v : value) : JS.or v (VNum 1) <> VNum 0.
Proof.
  unfold JS.or. destruct (JS.truthy v) eqn:E; [|discriminate].
  intros ->. discriminate.
Qed.

Lemma find_create_shipment (t : tool) :
  find_tool "create_shipment" = Some t ->
  t = {| tool_name := "create_shipment";
         tool_schema := Schema.create_shipment;
         tool_handler := create_shipment_handler |}.
Proof. unfold find_tool. simpl. congruence. Qed.

Lemma find_get_shipping_rates (t : tool) :
  find_tool "get_shipping_rates" = Some t ->
  t = {| tool_name := "get_shipping_rates";
         tool_schema := Schema.get_shipping_rates;
         tool_handler := get_shipping_rates_handler |}.
Proof. unfold find_tool. simpl. congruence. Qed.

(** C2: for every accepted create_shipment invocation, the one request
    is a POST whose body holds a meta object; the name, address1, city,
    state, postal and country of the shipper and of the recipient are
    its fields s_... and t_... (the optional company, address2, phone
    and email too, an omitted one as the empty string); meta.products
    holds one entry per product, with weight as prod_weight, quantity
    as prod_quantity (1 when omitted) and length renamed to
    prod_depth.  With shipper Jane of NYC and the one product of
    weight 5, meta has s_name Jane, s_city NYC and an entry with
    prod_weight 5 and prod_quantity 1. *)
Theorem create_shipment_flattens_addresses :
  forall (props sp rp : obj) (items : list value) (log : list outbound),
    accepts "create_shipment" (VObj props) = true ->
    JS.get props "shipper" = VObj sp ->
    JS.get props "recipient" = VObj rp ->
    JS.get props "products" = VArr items ->
    exists url body meta prods data,
      call_tool "create_shipment" (VObj props) log
      = (Returned (text_content data), (log ++ [OutPost url body])%list)
      /\ JS.lookup "meta" body = Some (VObj meta)
      /\ JS.lookup "shipper" body = None
      /\ JS.lookup "recipient" body = None
      /\ (JS.lookup "s_name" meta = Some (JS.get sp "name")
          /\ JS.lookup "s_company" meta = Some (JS.or (JS.get sp "company") (VStr ""))
          /\ JS.lookup "s_address1" meta = Some (JS.get sp "address1")
          /\ JS.lookup "s_address2" meta = Some (JS.or (JS.get sp "address2") (VStr ""))
          /\ JS.lookup "s_city" meta = Some (JS.get sp "city")
          /\ JS.lookup "s_state" meta = Some (JS.get sp "state")
          /\ JS.lookup "s_postal" meta = Some (JS.get sp "postal")
          /\ JS.lookup "s_country" meta = Some (JS.get sp "country")
          /\ JS.lookup "s_phone" meta = Some (JS.or (JS.get sp "phone") (VStr ""))
          /\ JS.lookup "s_email" meta = Some (JS.or (JS.get sp "email") (VStr "")))
      /\ (JS.lookup "t_name" meta = Some (JS.get rp "name")
          /\ JS.lookup "t_company" meta = Some (JS.or (JS.get rp "company") (VStr ""))
          /\ JS.lookup "t_address1" meta = Some (JS.get rp "address1")
          /\ JS.lookup "t_address2" meta = Some (JS.or (JS.get rp "address2") (VStr ""))
          /\ JS.lookup "t_city" meta = Some (JS.get rp "city")
          /\ JS.lookup "t_state" meta = Some (JS.get rp "state")
          /\ JS.lookup "t_postal" meta = Some (JS.get rp "postal")
          /\ JS.lookup "t_country" meta = Some (JS.get rp "country")
          /\ JS.lookup "t_phone" meta = Some (JS.or (JS.get rp "phone") (VStr ""))
          /\ JS.lookup "t_email" meta = Some (JS.or (JS.get rp "email") (VStr "")))
      /\ JS.lookup "products" meta = Some (VArr prods)
      /\ Forall2
           (fun item e =>
              exists po eo,
                item = VObj po /\ e = VObj eo
                /\ JS.lookup "prod_weight" eo = Some (JS.get po "weight")
                /\ JS.lookup "prod_quantity" eo
                   = Some (JS.or (JS.get po "quantity") (VNum 1))
                /\ JS.lookup "prod_depth" eo
                   = Some (JS.or (JS.get po "length") (VNum 1))
                /\ JS.lookup "length" eo = None)
           items prods.
Proof.
  intros props sp rp items log Hacc Hsp Hrp Hitems.
  destruct (accepts_inv _ _ Hacc)
    as (t & props' & params & Hfind & Hin & _ & Hargs & Hp & Hval).
  inversion Hargs; subst props'; clear Hargs.
  pose proof (find_create_shipment t Hfind) as Ht. subst t. simpl in Hp.
  destruct (create_shipment_validated props params Hp)
    as (sp' & rp' & items' & meta & prods & Hsp' & Hrp' & Hitems' & Hrel
        & Hs & Ht & _ & Hprods & Hall).
  rewrite Hsp in Hsp'. rewrite Hrp in Hrp'. rewrite Hitems in Hitems'.
  inversion Hsp'; inversion Hrp'; inversion Hitems'; subst sp' rp' items'.
  destruct (call_tool_relays _ _ _ params _ _ "POST" log Hfind Hval Hrel)
    as (data & _ & Hcall).
  rewrite sent_POST in Hcall.
  eexists _, _, meta, prods, data. split; [exact Hcall|].
  match goal with
  | |- context [build_body ?ps _] =>
      assert (NoDup (JS.keys ps)) as Hps by distinct_keys;
      rewrite !(lookup_build_body _ ps _ Hps)
  end.
  simpl String.eqb. simpl andb. lookup_fields.
  split; [reflexivity|]. split; [reflexivity|]. split; [reflexivity|].
  split; [exact Hs|]. split; [exact Ht|]. split; [exact Hprods|].
  revert Hall. apply Forall2_impl.
  intros item e (po & -> & He).
  specialize (He []). rewrite product_entry_object in He. inversion He; subst e.
  eexists po, _. split; [reflexivity|]. split; [reflexivity|].
  lookup_fields. repeat split; reflexivity.
Qed.

(** C9: in create_shipment and get_shipping_rates the fallbacks of the
    product fields apply to every falsy value and not only to omitted
    fields: a product given with quantity 0 is sent with prod_quantity
    1, a length, width or height 0 is sent as prod_depth, prod_width or
    prod_height 1, and a price 0 stays 0; no entry of the request has
    a zero quantity or a zero dimension. *)
Theorem product_defaults_replace_zero :
  forall (name : string) (props : obj) (items : list value) (log : list outbound),
    name = "create_shipment" \/ name = "get_shipping_rates" ->
    accepts name (VObj props) = true ->
    JS.get props "products" = VArr items ->
    exists url body prods data,
      call_tool name (VObj props) log
      = (Returned (text_content data), (log ++ [OutPost url body])%list)
      /\ (name = "create_shipment" ->
          exists meta, JS.lookup "meta" body = Some (VObj meta)
                       /\ JS.lookup "products" meta = Some (VArr prods))
      /\ (name = "get_shipping_rates" ->
          JS.lookup "products" body = Some (VArr prods))
      /\ Forall2
           (fun item e =>
              exists po eo,
                item = VObj po /\ e = VObj eo
                /\ (JS.get po "quantity" = VNum 0 ->
                    JS.lookup "prod_quantity" eo = Some (VNum 1))
                /\ (JS.get po "length" = VNum 0 ->
                    JS.lookup "prod_depth" eo = Some (VNum 1))
                /\ (JS.get po "width" = VNum 0 ->
                    JS.lookup "prod_width" eo = Some (VNum 1))
                /\ (JS.get po "height" = VNum 0 ->
                    JS.lookup "prod_height" eo = Some (VNum 1))
                /\ (JS.get po "price" = VNum 0 ->
                    JS.lookup "prod_price" eo = Some (VNum 0))
                /\ JS.lookup "prod_quantity" eo <> Some (VNum 0)
                /\ JS.lookup "prod_depth" eo <> Some (VNum 0)
                /\ JS.lookup "prod_width" eo <> Some (VNum 0)
                /\ JS.lookup "prod_height" eo <> Some (VNum 0))
           items prods.
Proof.
  intros name props items log Hname Hacc Hitems.
  destruct (accepts_inv _ _ Hacc)
    as (t & props' & params & Hfind & Hin & _ & Hargs & Hp & Hval).
  inversion Hargs; subst props'; clear Hargs.
  assert (forall prods,
            Forall2
              (fun item e =>
                 exists po, item = VObj po
                            /\ forall log, product_entry (VObj po) log = (Ok e, log))
              items prods ->
            Forall2
              (fun item e =>
                 exists po eo,
                   item = VObj po /\ e = VObj eo
                   /\ (JS.get po "quantity" = VNum 0 ->
                       JS.lookup "prod_quantity" eo = Some (VNum 1))
                   /\ (JS.get po "length" = VNum 0 ->
                       JS.lookup "prod_depth" eo = Some (VNum 1))
                   /\ (JS.get po "width" = VNum 0 ->
                       JS.lookup "prod_width" eo = Some (VNum 1))
                   /\ (JS.get po "height" = VNum 0 ->
                       JS.lookup "prod_height" eo = Some (VNum 1))
                   /\ (JS.get po "price" = VNum 0 ->
                       JS.lookup "prod_price" eo = Some (VNum 0))
                   /\ JS.lookup "prod_quantity" eo <> Some (VNum 0)
                   /\ JS.lookup "prod_depth" eo <> Some (VNum 0)
                   /\ JS.lookup "prod_width" eo <> Some (VNum 0)
                   /\ JS.lookup "prod_height" eo <> Some (VNum 0))
              items prods) as Hentries.
  { intros prods. apply Forall2_impl.
    intros item e (po & -> & He).
    specialize (He []). rewrite product_entry_object in He. inversion He; subst e.
    eexists po, _. split; [reflexivity|]. split; [reflexivity|].
    lookup_fields.
    repeat split; try (intros ->; reflexivity);
      intros H; inversion H as [H']; revert H'; apply or_one_not_zero. }
  destruct Hname as [-> | ->].
  - pose proof (find_create_shipment t Hfind) as Ht. subst t. simpl in Hp.
    destruct (create_shipment_validated props params Hp)
      as (sp & rp & items' & meta & prods & _ & _ & Hitems' & Hrel
          & _ & _ & _ & Hprods & Hall).
    rewrite Hitems in Hitems'. inversion Hitems'; subst items'.
    destruct (call_tool_relays _ _ _ params _ _ "POST" log Hfind Hval Hrel)
      as (data & _ & Hcall).
    rewrite sent_POST in Hcall.
    eexists _, _, prods, data. split; [exact Hcall|].
    split; [|split; [discriminate|now apply Hentries]].
    intros _. exists meta. split; [|exact Hprods].
    match goal with
    | |- context [build_body ?ps _] =>
        assert (NoDup (JS.keys ps)) as Hps by distinct_keys;
        rewrite !(lookup_build_body _ ps _ Hps)
    end.
    reflexivity.
  - pose proof (find_get_shipping_rates t Hfind) as Ht. subst t. simpl in Hp.
    destruct (get_shipping_rates_validated props params Hp)
      as (items' & prods & Hitems' & Hrel & Hall).
    rewrite Hitems in Hitems'. inversion Hitems'; subst items'.
    destruct (call_tool_relays _ _ _ params _ _ "POST" log Hfind Hval Hrel)
      as (data & _ & Hcall).
    rewrite sent_POST in Hcall.
    eexists _, _, prods, data. split; [exact Hcall|].
    split; [discriminate|split; [|now apply Hentries]].
    intros _.
    match goal with
    | |- context [build_body ?ps _] =>
        assert (NoDup (JS.keys ps)) as Hps by distinct_keys;
        rewrite !(lookup_build_body _ ps _ Hps)
    end.
    reflexivity.
Qed.

(** ** The key of a call *)

Lemma truthy_VStr (k : string) : JS.truthy (VStr k) = negb (String.eqb k "").
Proof. reflexivity. Qed.

(** A request built from parameters whose [integration_key] is the key
    parameter of the call resolves it. *)
Lemma sent_resolves (endpoint : string) (ps : obj) (method : string) (v : value) :
  NoDup (JS.keys ps) ->
  JS.get ps "integration_key" = v ->
  resolves (carried "integration_key" (sent endpoint ps method)) v.
Proof.
  intros Hnd Hv. unfold resolves, sent.
  destruct (String.eqb method "GET"); cbn [carried].
  - rewrite (qs_get_build_query _ ps _ Hnd), Hv. split.
    + intros k -> Hk. cbn [present].
      apply String.eqb_neq in Hk. now rewrite Hk.
    + intros [-> | ->]; cbn [present JS.or JS.truthy String.eqb negb andb JS.to_string];
        (destruct (String.eqb DEFAULT_KEY "") eqn:E;
         [apply String.eqb_eq in E; right; split; [assumption|reflexivity]
         |left; reflexivity]).
  - rewrite (get_build_body _ ps _ Hnd), Hv.
    cbn [String.eqb Ascii.eqb Bool.eqb andb]. split.
    + intros k -> Hk. apply String.eqb_neq in Hk.
      unfold JS.or. cbn [JS.truthy]. rewrite Hk. cbn [negb].
      rewrite andb_false_r. reflexivity.
    + intros Hempty.
      assert (JS.truthy v = false) as Hfalsy by (destruct Hempty as [-> | ->]; reflexivity).
      unfold JS.or. rewrite Hfalsy. cbn [negb]. rewrite andb_true_r, truthy_VStr.
      destruct (String.eqb DEFAULT_KEY "") eqn:E; cbn [negb].
      * apply String.eqb_eq in E. rewrite E.
        destruct Hempty as [-> | ->]; [right; split; reflexivity|left; reflexivity].
      * left. reflexivity.
Qed.

(** The same when the handler resolved the key itself and passes the
    outcome as [integration_key]. *)
Lemma sent_resolves_resolved (endpoint : string) (ps : obj) (method : string) (v : value) :
  NoDup (JS.keys ps) ->
  (v = VUndef \/ exists k, v = VStr k) ->
  JS.get ps "integration_key" = JS.or v (VStr DEFAULT_KEY) ->
  resolves (carried "integration_key" (sent endpoint ps method)) v.
Proof.
  intros Hnd Htype Hv.
  destruct (sent_resolves endpoint ps method _ Hnd Hv) as [Hexplicit Hdefault].
  split.
  - intros k -> Hk. apply Hexplicit; [|assumption].
    unfold JS.or. rewrite truthy_VStr. apply String.eqb_neq in Hk. now rewrite Hk.
  - intros Hempty.
    assert (JS.or v (VStr DEFAULT_KEY) = VStr DEFAULT_KEY) as Hor
      by (destruct Hempty as [-> | ->]; reflexivity).
    destruct (String.eqb DEFAULT_KEY "") eqn:E.
    + apply Hdefault. right. apply String.eqb_eq in E. now rewrite Hor, E.
    + left. apply Hexplicit; [assumption|]. now apply String.eqb_neq.
Qed.

(** The tools that write [integrated_key] carry the resolved key there. *)
Lemma sent_resolves_integrated (endpoint : string) (ps : obj) (v : value) :
  NoDup (JS.keys ps) ->
  (v = VUndef \/ exists k, v = VStr k) ->
  JS.lookup "integrated_key" ps = Some (JS.or v (VStr DEFAULT_KEY)) ->
  resolves (carried "integrated_key" (sent endpoint ps "POST")) v.
Proof.
  intros Hnd Htype Hv. rewrite sent_POST. cbn [carried].
  rewrite (get_build_body _ ps _ Hnd).
  cbn [String.eqb Ascii.eqb Bool.eqb andb]. unfold JS.get. rewrite Hv. split.
  - intros k -> Hk. unfold JS.or. rewrite truthy_VStr.
    apply String.eqb_neq in Hk. now rewrite Hk.
  - intros [-> | ->]; left; reflexivity.
Qed.

Lemma get_spread_fresh (k : string) (base params : obj) :
  NoDup (JS.keys params) ->
  JS.lookup k base = None ->
  JS.get (JS.spread base params) k = JS.get params k.
Proof.
  intros Hnd Hbase. rewrite (get_spread k params base Hnd).
  unfold JS.get. rewrite Hbase. now destruct (JS.lookup k params).
Qed.

(** The key parameter of validated parameters is the one of the
    arguments, and it is a string when it is there. *)
Lemma key_validated (props params : obj) (sh : list (string * schema)) :
  NoDup (map fst sh) ->
  In ("integration_key", opt_string) sh ->
  parse_fields props sh = Some params ->
  JS.get params "integration_key" = JS.get props "integration_key"
  /\ (JS.get props "integration_key" = VUndef
      \/ exists k, JS.get props "integration_key" = VStr k).
Proof.
  intros Hnd Hin Hp.
  pose proof (parse_fields_get props sh params Hnd Hp _ _ Hin) as H.
  now apply parse_opt_string in H.
Qed.

Lemma call_resolves
  (name : string) (t : tool) (args : value) (params : obj)
  (endpoint : string) (ps : obj) (method field : string) (v : value)
  (log : list outbound) :
  find_tool name = Some t ->
  validate t args = Some params ->
  relays (tool_handler t) params endpoint ps method ->
  resolves (carried field (sent endpoint ps method)) v ->
  exists o data,
    call_tool name args log = (Returned (text_content data), (log ++ [o])%list)
    /\ resolves (carried field o) v.
Proof.
  intros Hfind Hval Hrel Hres.
  destruct (call_tool_relays name t args params endpoint ps method log Hfind Hval Hrel)
    as (data & _ & Hcall).
  exists (sent endpoint ps method), data. split; assumption.
Qed.

(** Every tool resolves the key of the call; track_shipment, whose
    schema declares no key, resolves as if none had been given. *)
Lemma every_tool_resolves (name : string) (props : obj) (log : list outbound) :
  accepts name (VObj props) = true ->
  exists o data,
    call_tool name (VObj props) log = (Returned (text_content data), (log ++ [o])%list)
    /\ resolves (carried (key_field name) o)
         (if String.eqb name "track_shipment"
          then VUndef
          else JS.get props "integration_key").
Proof.
  intros Hacc.
  destruct (accepts_inv _ _ Hacc)
    as (t & props' & params & Hfind & Hin & Hname & Hargs & Hp & Hval).
  inversion Hargs; subst props'; clear Hargs.
  pose proof (schemas_distinct t Hin) as Hnd.
  pose proof (parse_fields_NoDup props _ params Hnd Hp) as Hpnd.
  simpl in Hin.
  repeat
    (destruct Hin as [<-|Hin];
     [ simpl in Hname; subst name;
       cbn [key_field String.eqb Ascii.eqb Bool.eqb orb];
       first
         [ (* track_shipment: no key among the parameters *)
           eassert (Hrel : relays track_shipment_handler params _ _ _)
             by (intros l; reflexivity);
           apply (call_resolves _ _ _ _ _ _ _ _ _ log Hfind Hval Hrel);
           apply sent_resolves; [distinct_keys|reflexivity]
         | (* create_shipment *)
           destruct (create_shipment_validated props params Hp)
             as (? & ? & ? & meta & ? & _ & _ & _ & Hrel & _);
           destruct (key_validated props params _ Hnd ltac:(in_list) Hp) as [Hk Htype];
           apply (call_resolves _ _ _ _ _ _ _ _ _ log Hfind Hval Hrel);
           apply sent_resolves_integrated;
             [distinct_keys|exact Htype|lookup_fields; rewrite Hk; reflexivity]
         | (* get_shipping_rates *)
           destruct (get_shipping_rates_validated props params Hp)
             as (? & prods & _ & Hrel & _);
           destruct (key_validated props params _ Hnd ltac:(in_list) Hp) as [Hk Htype];
           apply (call_resolves _ _ _ _ _ _ _ _ _ log Hfind Hval Hrel);
           apply sent_resolves_resolved;
             [distinct_keys|exact Htype
             |unfold JS.get at 1; lookup_fields; rewrite Hk; reflexivity]
         | (* the other tools *)
           match type of Hfind with
           | find_tool _ = Some ?tool =>
               eassert (Hrel : relays (tool_handler tool) params _ _ _)
                 by (intros l; reflexivity)
           end;
           destruct (key_validated props params _ Hnd ltac:(in_list) Hp) as [Hk Htype];
           apply (call_resolves _ _ _ _ _ _ _ _ _ log Hfind Hval Hrel);
           first
             [ (* the parameters spread into the request *)
               apply sent_resolves;
               [ apply NoDup_keys_spread; distinct_keys
               | rewrite get_spread_fresh by (first [assumption|reflexivity]); exact Hk ]
             | (* the key parameter passed on as it is *)
               apply sent_resolves;
               [ distinct_keys
               | unfold JS.get at 1; lookup_fields; exact Hk ]
             | (* the key resolved by the handler *)
               apply sent_resolves_resolved;
               [ distinct_keys | exact Htype
               | unfold JS.get at 1; lookup_fields; rewrite Hk; reflexivity ]
             | (* the key resolved by the handler, as integrated_key *)
               apply sent_resolves_integrated;
               [ distinct_keys | exact Htype
               | lookup_fields; rewrite Hk; reflexivity ] ] ]
     | ]).
  contradiction.
Qed.

(** C1 (amended): for every accepted tool invocation, exactly one
    request is issued, and: when the tool is not track_shipment and a
    non-empty explicit integration_key is given, the request carries
    that key (as the integration_key parameter of the query or field
    of the body, and as the integrated_key field of the body for
    create_shipment, cancel_shipment and schedule_pickup); when the
    key is omitted or empty, or the tool is track_shipment (whose
    schema has no key parameter, so that a key given to it is
    ignored), the request carries the process-wide default key there,
    or, when the default is empty too, the empty key or none. *)
Theorem integration_key_resolution :
  forall (name : string) (props : obj) (log : list outbound),
    accepts name (VObj props) = true ->
    exists o data,
      call_tool name (VObj props) log
      = (Returned (text_content data), (log ++ [o])%list)
      /\ (forall k,
            name <> "track_shipment" ->
            JS.get props "integration_key" = VStr k ->
            k <> "" ->
            carried (key_field name) o = Some k)
      /\ (name = "track_shipment"
          \/ JS.get props "integration_key" = VUndef
          \/ JS.get props "integration_key" = VStr "" ->
          carried (key_field name) o = Some DEFAULT_KEY
          \/ (DEFAULT_KEY = "" /\ carried (key_field name) o = None)).
Proof.
  intros name props log Hacc.
  destruct (every_tool_resolves name props log Hacc)
    as (o & data & Hcall & Hexplicit & Hdefault).
  exists o, data. split; [assumption|]. split.
  - intros k Hname Hk Hne. apply Hexplicit; [|assumption].
    apply String.eqb_neq in Hname. now rewrite Hname.
  - intros H. apply Hdefault.
    destruct (String.eqb name "track_shipment") eqn:E; [now left|].
    destruct H as [H|H]; [|assumption].
    apply String.eqb_neq in E. contradiction.
Qed.

(** ** The query of a GET *)

(** What the validator lets through a scalar schema. *)
Lemma parse_scalar (fs : schema) (v y : value) :
  parse fs v = Some y ->
  match scalar fs with
  | Some TString => y = VUndef \/ exists s, y = VStr s
  | Some TNumber => y = VUndef \/ exists n, y = VNum n
  | None => True
  end.
Proof.
  revert v y. induction fs as [| |inner IH|inner IH d|shape|element];
    intros v y H; simpl; try exact I.
  - destruct v; simpl in H; inversion H; eauto.
  - destruct v; simpl in H; inversion H; eauto.
  - destruct v; simpl in H; try (now apply (IH _ _ H)).
    inversion H. destruct (scalar inner) as [[|]|]; auto.
  - destruct v; simpl in H; now apply (IH _ _ H).
Qed.

Ltac name_parameters params :=
  repeat match goal with
         | |- context [JS.get params ?x] =>
             let v := fresh "v" in
             let Hv := fresh "Hv" in
             remember (JS.get params x) as v eqn:Hv in *; clear Hv
         end.

(** C7 (amended): for every accepted invocation of a GET-based tool
    and every parameter of its schema, taken as the handler receives
    it (after validation and defaults): a parameter whose value is
    not undefined, null or the empty string is in the query string of
    the one request, with its value as a string; a parameter other
    than integration_key whose value is undefined, null or the empty
    string is not in the query string.  integration_key is the
    exception: when it is omitted or empty, it is in the query string
    with the process-wide default key when that key is not empty, and
    it is not in the query string when the default key is empty. *)
Theorem get_query_omits_empty_parameters :
  forall (name : string) (props : obj) (log : list outbound),
    In name get_tools ->
    accepts name (VObj props) = true ->
    exists t params url qs data,
      find_tool name = Some t
      /\ validate t (VObj props) = Some params
      /\ call_tool name (VObj props) log
         = (Returned (text_content data), (log ++ [OutGet url qs])%list)
      /\ (forall k fs,
            In (k, fs) (tool_schema t) ->
            (present (JS.get params k) = true ->
             URLSearchParams.get k qs = Some (JS.to_string (JS.get params k)))
            /\ (present (JS.get params k) = false ->
                k <> "integration_key" ->
                URLSearchParams.get k qs = None))
      /\ (present (JS.get params "integration_key") = false ->
          URLSearchParams.get "integration_key" qs
          = if String.eqb DEFAULT_KEY "" then None else Some DEFAULT_KEY).
Proof.
  intros name props log Hget Hacc.
  destruct (accepts_inv _ _ Hacc)
    as (t & props' & params & Hfind & Hin & Hname & Hargs & Hp & Hval).
  inversion Hargs; subst props'; clear Hargs.
  pose proof (schemas_distinct t Hin) as Hnd.
  pose proof (parse_fields_NoDup props _ params Hnd Hp) as Hpnd.
  pose proof (parse_fields_get props _ params Hnd Hp) as Hty.
  simpl in Hin.
  repeat
    (destruct Hin as [<-|Hin];
     [ simpl in Hname; subst name;
       first
         [ (* a tool that posts is no GET-based tool *)
           exfalso; simpl in Hget;
           repeat (destruct Hget as [Hget|Hget]; [discriminate|]); exact Hget
         | match type of Hfind with
           | find_tool _ = Some ?tool =>
               eassert (Hrel : relays (tool_handler tool) params _ _ _)
                 by (intros l; reflexivity)
           end;
           destruct (call_tool_relays _ _ _ params _ _ _ log Hfind Hval Hrel)
             as (data & _ & Hcall);
           rewrite sent_GET in Hcall;
           eexists _, params, _, _, data;
           split; [exact Hfind|]; split; [exact Hval|]; split; [exact Hcall|];
           match goal with
           | |- context [build_query ?ps _] =>
               assert (NoDup (JS.keys ps)) as Hps
                 by (first [apply NoDup_keys_spread; distinct_keys|distinct_keys])
           end;
           split;
           [ intros k fs Hk
           | (* the key: a string of the schema, or undeclared *)
             assert (JS.get params "integration_key" = VUndef
                     \/ exists s, JS.get params "integration_key" = VStr s) as Hkey
               by (first
                     [ solve [ apply (parse_scalar opt_string (JS.get props "integration_key"));
                               apply Hty; cbn [tool_schema]; in_list ]
                     | left; apply (parse_fields_stripped props _ params _ Hp);
                       cbn [tool_schema]; simpl; intuition discriminate ]);
             rewrite (qs_get_build_query "integration_key" _ _ Hps);
             rewrite ?get_spread_fresh by (first [assumption|reflexivity]);
             name_parameters params;
             cbn [JS.get JS.lookup String.eqb Ascii.eqb Bool.eqb andb];
             rewrite ?andb_false_r, ?andb_true_r;
             destruct Hkey as [-> | (s & ->)];
             unfold JS.or;
             cbn [present JS.truthy JS.to_string];
             try (destruct (String.eqb s "") eqn:Es);
             cbn [negb present JS.truthy JS.to_string String.eqb];
             rewrite ?Es; cbn [negb];
             intros Hpres;
             first
               [ congruence
               | destruct (String.eqb DEFAULT_KEY "") eqn:Ed;
                 cbn [negb present JS.truthy JS.to_string];
                 rewrite ?Ed; cbn [negb];
                 first [reflexivity|congruence] ] ];
           rewrite (qs_get_build_query k _ _ Hps);
           specialize (Hty k fs Hk);
           cbn [tool_schema] in Hk; simpl in Hk;
           repeat
             (destruct Hk as [Hk|Hk];
              [ inversion Hk; subst k fs; clear Hk;
                apply parse_scalar in Hty;
                cbv [scalar opt_string opt_number string_default number_default] in Hty;
                rewrite ?get_spread_fresh by (first [assumption|reflexivity]);
                name_parameters params;
                cbn [JS.get JS.lookup String.eqb Ascii.eqb Bool.eqb andb];
                rewrite ?andb_false_r;
                destruct Hty as [-> | (s & ->)];
                unfold JS.or;
                cbn [present JS.truthy JS.to_string];
                try (destruct (String.eqb s "") eqn:Es);
                cbn [negb present JS.truthy JS.to_string String.eqb];
                rewrite ?Es; cbn [negb];
                (split; [intros Hpres|intros Hpres Hne]);
                first [reflexivity|congruence]
              | ]);
           contradiction ]
     | ]).
  contradiction.
Qed.

(** The tools outside [get_tools] post. *)
Lemma other_tools_post (name : string) (props : obj) (log : list outbound) :
  accepts name (VObj props) = true ->
  ~ In name get_tools ->
  exists url body data,
    call_tool name (VObj props) log
    = (Returned (text_content data), (log ++ [OutPost url body])%list).
Proof.
  intros Hacc Hpost.
  destruct (accepts_inv _ _ Hacc)
    as (t & props' & params & Hfind & Hin & Hname & Hargs & Hp & Hval).
  inversion Hargs; subst props'; clear Hargs.
  simpl in Hin.
  repeat
    (destruct Hin as [<-|Hin];
     [ simpl in Hname; subst name;
       first
         [ exfalso; apply Hpost; simpl; tauto
         | destruct (create_shipment_validated props params Hp)
             as (? & ? & ? & meta & ? & _ & _ & _ & Hrel & _);
           destruct (call_tool_relays _ _ _ params _ _ _ log Hfind Hval Hrel)
             as (data & _ & Hcall);
           rewrite sent_POST in Hcall; eexists _, _, data; exact Hcall
         | destruct (get_shipping_rates_validated props params Hp)
             as (? & prods & _ & Hrel & _);
           destruct (call_tool_relays _ _ _ params _ _ _ log Hfind Hval Hrel)
             as (data & _ & Hcall);
           rewrite sent_POST in Hcall; eexists _, _, data; exact Hcall
         | match type of Hfind with
           | find_tool _ = Some ?tool =>
               eassert (Hrel : relays (tool_handler tool) params _ _ _)
                 by (intros l; reflexivity)
           end;
           destruct (call_tool_relays _ _ _ params _ _ _ log Hfind Hval Hrel)
             as (data & _ & Hcall);
           rewrite sent_POST in Hcall; eexists _, _, data; exact Hcall ]
     | ]).
  contradiction.
Qed.

(** * Further properties of the code *)

(** ** [shipiRequest] on any parameters *)

(** X1: whatever the endpoint, the parameters and the method, a call of
    [shipiRequest] returns a value (it never throws) and issues at
    most one request.  With a method other than GET it issues one
    POST, to the base URL followed by the endpoint.  With GET it
    issues one GET to that URL when every conversion of the query to
    a string returns; when one throws (an object with a toString
    property of its own, as a key or as a present parameter, also
    inside an array) the outer catch answers: nothing is sent, and the
    call returns the structured error with the message of the
    TypeError. *)
Theorem shipiRequest_returns_and_sends_at_most_once :
  forall (endpoint : string) (params : obj) (method : string) (log : list outbound),
    let key := JS.or (JS.get params "integration_key") (VStr DEFAULT_KEY) in
    (method <> "GET" ->
     exists data body,
       shipiRequest endpoint params method log
       = (Ok data, (log ++ [OutPost (BASE_URL ++ "/" ++ endpoint) body])%list))
    /\ (method = "GET" ->
        convertible params key = true ->
        exists data qs,
          shipiRequest endpoint params method log
          = (Ok data, (log ++ [OutGet (BASE_URL ++ "/" ++ endpoint) qs])%list))
    /\ (method = "GET" ->
        convertible params key = false ->
        shipiRequest endpoint params method log
        = (Ok (VObj [("status", VStr "error");
                     ("message",
                      VStr "Request failed: Cannot convert object to primitive value")]),
           log)).
Proof.
  intros endpoint params method log key. split; [|split].
  - intros Hne. apply String.eqb_neq in Hne.
    assert (sends params method = true) as Hs by (unfold sends; now rewrite Hne).
    destruct (shipiRequest_run endpoint params method log Hs) as (data & Hrun).
    unfold sent in Hrun. rewrite Hne in Hrun. eauto.
  - intros -> Hc.
    assert (sends params "GET" = true) as Hs by (unfold sends; fold key; now rewrite Hc).
    destruct (shipiRequest_run endpoint params "GET" log Hs) as (data & Hrun).
    rewrite sent_GET in Hrun. eauto.
  - intros -> Hc.
    assert (sends params "GET" = false) as Hs by (unfold sends; fold key; now rewrite Hc).
    exact (shipiRequest_unconvertible endpoint params "GET" log Hs).
Qed.

(** ** The query string of a GET *)

Lemma qs_names_set (k v x : string) (qs : URLSearchParams.t) :
  In x (map fst (URLSearchParams.set k v qs)) -> x = k \/ In x (map fst qs).
Proof.
  induction qs as [|[k' v'] rest IH]; simpl.
  - intros [H|[]]. now left.
  - destruct (String.eqb k' k) eqn:E; simpl.
    + apply String.eqb_eq in E. subst k'. intros [H|H]; [now left|].
      right. right. rewrite in_map_iff in *. destruct H as (p & Hp & Hin).
      apply filter_In in Hin. exists p. tauto.
    + intros [H|H]; [right; now left|]. destruct (IH H); [now left|right; now right].
Qed.

Lemma qs_names_filter (k : string) (qs : URLSearchParams.t) :
  ~ In k (map fst (filter (fun p => negb (String.eqb (fst p) k)) qs)).
Proof.
  rewrite in_map_iff. intros (p & Hp & Hin). apply filter_In in Hin.
  destruct Hin as [_ Hne]. subst k. now rewrite String.eqb_refl in Hne.
Qed.

Lemma NoDup_names_filter (f : string * string -> bool) (qs : URLSearchParams.t) :
  NoDup (map fst qs) -> NoDup (map fst (filter f qs)).
Proof.
  induction qs as [|p rest IH]; simpl; intros Hnd; [constructor|].
  inversion Hnd as [|? ? Hnotin Hnd']; subst.
  destruct (f p); simpl; [|now apply IH].
  constructor; [|now apply IH].
  rewrite in_map_iff in *. intros (q & Hq & Hin). apply Hnotin.
  apply filter_In in Hin. exists q. tauto.
Qed.

Lemma NoDup_names_set (k v : string) (qs : URLSearchParams.t) :
  NoDup (map fst qs) -> NoDup (map fst (URLSearchParams.set k v qs)).
Proof.
  induction qs as [|[k' v'] rest IH]; simpl; intros Hnd.
  - repeat constructor. simpl. tauto.
  - inversion Hnd as [|? ? Hnotin Hnd']; subst.
    destruct (String.eqb k' k) eqn:E; simpl.
    + constructor; [apply qs_names_filter|now apply NoDup_names_filter].
    + apply String.eqb_neq in E. constructor; [|now apply IH].
      intros Hin. apply qs_names_set in Hin. destruct Hin; [congruence|contradiction].
Qed.

Lemma Forall_values_set (P : string -> Prop) (k v : string) (qs : URLSearchParams.t) :
  P v -> Forall (fun p => P (snd p)) qs ->
  Forall (fun p => P (snd p)) (URLSearchParams.set k v qs).
Proof.
  intros Hv. induction 1 as [|[k' v'] rest Hp Hrest IH]; simpl.
  - repeat constructor. exact Hv.
  - destruct (String.eqb k' k).
    + constructor; [exact Hv|].
      apply Forall_forall. intros p Hin. apply filter_In in Hin.
      rewrite Forall_forall in Hrest. now apply Hrest.
    + constructor; assumption.
Qed.

Lemma Z_to_string_nonempty (n : Z) : JS.Z_to_string n <> "".
Proof.
  unfold JS.Z_to_string.
  destruct (Z.to_int n) as [d|d]; simpl; [|discriminate].
  destruct d; discriminate.
Qed.

Lemma to_string_nonempty (v : value) :
  present v = true -> is_array v = false -> JS.to_string v <> "".
Proof.
  destruct v as [| |[|]|n|s|items|props]; simpl; try discriminate.
  - intros _ _. apply Z_to_string_nonempty.
  - intros H _. apply negb_true_iff in H. now apply String.eqb_neq.
Qed.

Lemma truthy_is_present (v : value) : JS.truthy v = true -> present v = true.
Proof. destruct v; simpl; congruence. Qed.

Lemma get_not_array (params : obj) (k : string) :
  Forall (fun kv => is_array (snd kv) = false) params ->
  is_array (JS.get params k) = false.
Proof.
  unfold JS.get. induction 1 as [|[k' v'] rest Hv _ IH]; simpl; [reflexivity|].
  now destruct (String.eqb k' k).
Qed.

(** The loop of the GET branch keeps the names of the query distinct. *)
Lemma query_names_invariant (params : obj) (qs0 : URLSearchParams.t) :
  NoDup (map fst qs0) ->
  NoDup (map fst
           (fold_left
              (fun qs kv =>
                 if present (snd kv)
                 then URLSearchParams.set (fst kv) (JS.to_string (snd kv)) qs
                 else qs)
              params qs0)).
Proof.
  revert qs0.
  induction params as [|[k v] rest IH]; intros qs0 Hnd; simpl; [assumption|].
  destruct (present v); apply IH; [now apply NoDup_names_set|assumption].
Qed.

(** Without arrays it keeps the values non-empty. *)
Lemma query_values_invariant (params : obj) (qs0 : URLSearchParams.t) :
  Forall (fun kv => is_array (snd kv) = false) params ->
  Forall (fun p => snd p <> "") qs0 ->
  Forall (fun p => snd p <> "")
    (fold_left
       (fun qs kv =>
          if present (snd kv)
          then URLSearchParams.set (fst kv) (JS.to_string (snd kv)) qs
          else qs)
       params qs0).
Proof.
  intros Hparams. revert qs0.
  induction Hparams as [|[k v] rest Hv _ IH]; intros qs0 Hne; simpl; [assumption|].
  destruct (present v) eqn:E; [|now apply IH].
  apply IH.
  apply (Forall_values_set (fun s => s <> "")); [|assumption].
  now apply to_string_nonempty.
Qed.

(** X2: a GET whose conversions to a string all return issues its one
    request with a query string that has no two parameters of one
    name, whatever the parameters; and when no parameter is an array,
    no parameter of the query string has an empty value. *)
Theorem get_query_names_unique_values_nonempty :
  forall (endpoint : string) (params : obj) (log : list outbound),
    convertible params (JS.or (JS.get params "integration_key") (VStr DEFAULT_KEY)) = true ->
    exists data url qs,
      shipiRequest endpoint params "GET" log
      = (Ok data, (log ++ [OutGet url qs])%list)
      /\ NoDup (map fst qs)
      /\ (Forall (fun kv => is_array (snd kv) = false) params ->
          Forall (fun p => snd p <> "") qs).
Proof.
  intros endpoint params log Hc.
  assert (sends params "GET" = true) as Hs by (unfold sends; now rewrite Hc).
  destruct (shipiRequest_run endpoint params "GET" log Hs) as (data & Hrun).
  rewrite sent_GET in Hrun. eexists data, _, _. split; [exact Hrun|].
  unfold build_query. split.
  - apply query_names_invariant.
    destruct (JS.truthy _); simpl; repeat constructor. simpl. tauto.
  - intros Hparams.
    assert (is_array (JS.or (JS.get params "integration_key") (VStr DEFAULT_KEY)) = false)
      as Hkey.
    { unfold JS.or. destruct (JS.truthy _); [|reflexivity]. now apply get_not_array. }
    apply query_values_invariant; [assumption|].
    destruct (JS.truthy _) eqn:E; simpl; repeat constructor. simpl.
    apply to_string_nonempty; [now apply truthy_is_present|assumption].
Qed.

(** ** Handlers on any parameters *)

Lemma prop_log (v : value) (k : string) (log : list outbound) :
  exists r, prop v k log = (r, log).
Proof. destruct v; eexists; reflexivity. Qed.

Lemma product_entry_log (p : value) (log : list outbound) :
  exists r, product_entry p log = (r, log).
Proof. destruct p; eexists; reflexivity. Qed.

Lemma mapM_log {A B : Type} (f : A -> M B) (l : list A) :
  (forall x log, exists r, f x log = (r, log)) ->
  forall log, exists r, mapM f l log = (r, log).
Proof.
  intros Hf. induction l as [|x rest IH]; intros log; simpl.
  - eexists. reflexivity.
  - unfold bind at 1. destruct (Hf x log) as ([y|e] & ->); [|eexists; reflexivity].
    unfold bind at 1. destruct (IH log) as ([ys|e] & ->); eexists; reflexivity.
Qed.

Lemma array_map_log (v : value) (log : list outbound) :
  exists r, array_map product_entry v log = (r, log).
Proof.
  destruct v; try (eexists; reflexivity).
  unfold array_map, bind.
  destruct (mapM_log product_entry items product_entry_log log) as ([out|e] & ->);
    eexists; reflexivity.
Qed.

Lemma create_shipment_meta_log
  (carrier_id service_code shipper recipient products : value) (log : list outbound) :
  exists r,
    create_shipment_meta carrier_id service_code shipper recipient products log = (r, log).
Proof.
  unfold create_shipment_meta.
  destruct shipper; cbn [bind prop ret throw]; try (eexists; reflexivity);
    destruct recipient; cbn [bind prop ret throw]; try (eexists; reflexivity);
    unfold bind;
    destruct (array_map_log products log) as ([prods|e] & ->);
    eexists; reflexivity.
Qed.

(** X3: on any parameters object, validated or not, every handler of
    the catalog issues at most one request, and does one of three
    things: it issues exactly one request and returns text content; or
    (a GET-based tool whose query cannot be built, because a
    conversion to a string throws) it sends nothing and returns the
    structured error of the failed conversion as text content; or it
    throws before anything is sent, which only the handlers of
    create_shipment and get_shipping_rates, which read nested fields,
    can do. *)
Theorem handlers_send_at_most_once :
  forall (t : tool) (params : obj) (log : list outbound),
    In t server_tools ->
    (exists data o,
       tool_handler t params log = (Ok (text_content data), (log ++ [o])%list))
    \/ (In (tool_name t) get_tools
        /\ tool_handler t params log = (Ok (text_content conversion_error), log))
    \/ ((tool_name t = "create_shipment" \/ tool_name t = "get_shipping_rates")
        /\ exists e, tool_handler t params log = (Throw e, log)).
Proof.
  intros t params log Hin. simpl in Hin.
  repeat
    (destruct Hin as [<-|Hin];
     [ cbn [tool_handler tool_name];
       first
         [ unfold create_shipment_handler, bind;
           destruct (create_shipment_meta_log
                       (JS.get params "carrier_id") (JS.get params "service_code")
                       (JS.get params "shipper") (JS.get params "recipient")
                       (JS.get params "products") log) as ([meta|e] & ->);
           [ match goal with
             | |- context [shipiRequest ?e ?ps ?m log] =>
                 destruct (shipiRequest_run e ps m log eq_refl) as (data & ->)
             end; left; eexists _, _; reflexivity
           | right; right; split; [left; reflexivity|eexists; reflexivity] ]
         | unfold get_shipping_rates_handler, bind;
           destruct (array_map_log (JS.get params "products") log) as ([prods|e] & ->);
           [ match goal with
             | |- context [shipiRequest ?e ?ps ?m log] =>
                 destruct (shipiRequest_run e ps m log eq_refl) as (data & ->)
             end; left; eexists _, _; reflexivity
           | right; right; split; [right; reflexivity|eexists; reflexivity] ]
         | unfold list_shipments_handler, get_shipment_handler,
             search_shipments_handler, cancel_shipment_handler,
             schedule_pickup_handler, track_shipment_handler,
             fetch_labels_handler, list_addresses_handler, get_address_handler,
             add_address_handler, edit_address_handler, delete_address_handler,
             list_carriers_handler, get_carrier_handler, get_account_info_handler,
             get_shipping_stats_handler, bind;
           match goal with
           | |- context [shipiRequest ?e ?ps ?m log] =>
               first
                 [ destruct (shipiRequest_run e ps m log eq_refl) as (data & ->);
                   left; eexists _, _; reflexivity
                 | destruct (sends ps m) eqn:Hs;
                   [ destruct (shipiRequest_run e ps m log Hs) as (data & ->);
                     left; eexists _, _; reflexivity
                   | rewrite (shipiRequest_unconvertible e ps m log Hs);
                     right; left; split; [in_list|reflexivity] ] ]
           end ]
     | ]).
  contradiction.
Qed.

(** ** The request of each tool *)

Ltac relay Hfind Hval Hp params log data Hcall :=
  let Hrel := fresh "Hrel" in
  first
    [ destruct (create_shipment_validated _ _ Hp)
        as (? & ? & ? & ? & ? & _ & _ & _ & Hrel & _)
    | destruct (get_shipping_rates_validated _ _ Hp)
        as (? & ? & _ & Hrel & _)
    | match type of Hfind with
      | find_tool _ = Some ?tool =>
          eassert (Hrel : relays (tool_handler tool) params _ _ _)
            by (intros l; reflexivity)
      end ];
  destruct (call_tool_relays _ _ _ params _ _ _ log Hfind Hval Hrel)
    as (data & _ & Hcall).

Ltac pin_tool Hfind t :=
  let H := fresh "H" in
  pose proof Hfind as H; unfold find_tool in H; simpl in H;
  injection H as H; subst t; cbn [tool_schema] in *.

Ltac request_keys Hps :=
  match goal with
  | |- context [build_body ?ps _] =>
      assert (NoDup (JS.keys ps)) as Hps
        by (first [apply NoDup_keys_spread; distinct_keys|distinct_keys])
  | |- context [build_query ?ps _] =>
      assert (NoDup (JS.keys ps)) as Hps
        by (first [apply NoDup_keys_spread; distinct_keys|distinct_keys])
  end.

Lemma lookup_undeclared (props params : obj) (sh : list (string * schema)) (k : string) :
  parse_fields props sh = Some params ->
  ~ In k (map fst sh) ->
  JS.lookup k params = None.
Proof.
  intros Hp Hk. apply lookup_None_keys. intros Hin. apply Hk.
  now apply (parse_fields_keys props sh params).
Qed.

(** X4: every accepted call of a tool goes to the endpoint of the tool
    under the base URL, with the method of the tool, and carries the
    action discriminator of the tool or none, as the table of routes
    says: none of the three depends on the arguments, and an action
    given by the caller never replaces the one of the tool.  A POST
    has a body on the wire and a GET has none. *)
Theorem tool_routes :
  forall (name : string) (props : obj) (log : list outbound),
    accepts name (VObj props) = true ->
    exists endpoint method action o data,
      In (name, (endpoint, method, action)) routes
      /\ call_tool name (VObj props) log
         = (Returned (text_content data), (log ++ [o])%list)
      /\ request_url o = BASE_URL ++ "/" ++ endpoint
      /\ init_method (snd (wire o)) = method
      /\ carried "action" o = action
      /\ (init_body (snd (wire o)) = None <-> method = "GET").
Proof.
  intros name props log Hacc.
  destruct (accepts_inv _ _ Hacc)
    as (t & props' & params & Hfind & Hin & Hname & Hargs & Hp & Hval).
  inversion Hargs; subst props'; clear Hargs.
  pose proof (schemas_distinct t Hin) as Hnd.
  pose proof (parse_fields_NoDup _ _ params Hnd Hp) as Hpnd.
  simpl in Hin.
  repeat
    (destruct Hin as [<-|Hin];
     [ simpl in Hname; subst name; cbn [tool_schema] in *;
       relay Hfind Hval Hp params log data Hcall;
       assert (JS.lookup "action" params = None) as Haction
         by (apply (lookup_undeclared props params _ "action" Hp);
             simpl; intuition discriminate);
       eexists _, _, _, _, data;
       split; [in_list|]; split; [exact Hcall|];
       first [rewrite sent_GET|rewrite sent_POST];
       split; [reflexivity|]; split; [reflexivity|];
       request_keys Hps; cbn [carried];
       first
         [ rewrite (qs_get_build_query _ _ _ Hps)
         | rewrite (get_build_body _ _ _ Hps) ];
       rewrite ?get_spread by assumption; rewrite ?Haction;
       cbn [JS.get JS.lookup String.eqb Ascii.eqb Bool.eqb andb present negb
              JS.to_string];
       rewrite ?andb_false_r;
       (split; [reflexivity|]);
       cbn [wire snd init_body JSON.stringify JSON.serialize];
       split; intros H; first [reflexivity|discriminate]
     | ]).
  contradiction.
Qed.

(** ** The address book *)

(** X5: an accepted edit_address call posts the action edit and, of the
    declared fields other than the key, exactly those the caller
    gave, each with the value given: an omitted field is not in the
    body, and a field the schema does not declare never is. *)
Theorem edit_address_sends_given_fields :
  forall (props : obj) (log : list outbound),
    accepts "edit_address" (VObj props) = true ->
    exists url body data,
      call_tool "edit_address" (VObj props) log
      = (Returned (text_content data), (log ++ [OutPost url body])%list)
      /\ JS.lookup "action" body = Some (VStr "edit")
      /\ (forall k fs,
            In (k, fs) Schema.edit_address ->
            k <> "integration_key" ->
            JS.get body k = JS.get props k)
      /\ (forall k,
            ~ In k (map fst Schema.edit_address) ->
            k <> "action" ->
            JS.lookup k body = None).
Proof.
  intros props log Hacc.
  destruct (accepts_inv _ _ Hacc)
    as (t & props' & params & Hfind & Hin & Hname & Hargs & Hp & Hval).
  inversion Hargs; subst props'; clear Hargs.
  pose proof (schemas_distinct t Hin) as Hnd.
  pose proof (parse_fields_NoDup _ _ params Hnd Hp) as Hpnd.
  pose proof (parse_fields_get _ _ params Hnd Hp) as Hty.
  pin_tool Hfind t. clear Hin Hname.
  relay Hfind Hval Hp params log data Hcall.
  rewrite sent_POST in Hcall. eexists _, _, data. split; [exact Hcall|].
  request_keys Hps.
  assert (JS.lookup "action" params = None) as Haction
    by (apply (lookup_undeclared props params _ "action" Hp);
        simpl; intuition discriminate).
  split; [|split].
  - rewrite (lookup_build_body _ _ _ Hps). cbn [String.eqb Ascii.eqb Bool.eqb andb].
    rewrite (lookup_spread _ _ _ Hpnd), Haction. reflexivity.
  - intros k fs Hk Hne. specialize (Hty k fs Hk).
    rewrite (get_build_body _ _ _ Hps).
    apply String.eqb_neq in Hne. rewrite Hne. cbn [andb].
    simpl in Hk.
    repeat
      (destruct Hk as [Hk|Hk];
       [ inversion Hk; subst k fs; clear Hk;
         rewrite get_spread_fresh by (first [assumption|reflexivity]);
         first
           [ apply parse_opt_string in Hty; destruct Hty as [-> _]; reflexivity
           | apply parse_ZNumber in Hty; destruct Hty as (n & -> & ->); reflexivity ]
       | ]).
    contradiction.
  - intros k Hk Hne.
    assert (k <> "integration_key") as Hik
      by (intros ->; apply Hk; simpl; tauto).
    rewrite (lookup_build_body _ _ _ Hps).
    apply String.eqb_neq in Hik. rewrite Hik. cbn [andb].
    rewrite (lookup_spread _ _ _ Hpnd).
    rewrite (lookup_undeclared props params _ k Hp Hk). cbn [JS.lookup].
    destruct (String.eqb "action" k) eqn:E; [|reflexivity].
    apply String.eqb_eq in E. congruence.
Qed.

(** X6: an accepted add_address call posts the action add and every
    declared field other than the key as a string: the one the caller
    gave or, for an omitted optional field, the default of the schema
    (shipper for the type, the empty string for the others). *)
Theorem add_address_sends_every_field :
  forall (props : obj) (log : list outbound),
    accepts "add_address" (VObj props) = true ->
    exists url body data,
      call_tool "add_address" (VObj props) log
      = (Returned (text_content data), (log ++ [OutPost url body])%list)
      /\ JS.lookup "action" body = Some (VStr "add")
      /\ (forall k fs,
            In (k, fs) Schema.add_address ->
            k <> "integration_key" ->
            exists s,
              JS.get body k = VStr s
              /\ (JS.get props k = VStr s
                  \/ (JS.get props k = VUndef /\ fs = string_default s)))
      /\ (JS.get props "type" = VUndef -> JS.get body "type" = VStr "shipper").
Proof.
  intros props log Hacc.
  destruct (accepts_inv _ _ Hacc)
    as (t & props' & params & Hfind & Hin & Hname & Hargs & Hp & Hval).
  inversion Hargs; subst props'; clear Hargs.
  pose proof (schemas_distinct t Hin) as Hnd.
  pose proof (parse_fields_NoDup _ _ params Hnd Hp) as Hpnd.
  pose proof (parse_fields_get _ _ params Hnd Hp) as Hty.
  pin_tool Hfind t. clear Hin Hname.
  relay Hfind Hval Hp params log data Hcall.
  rewrite sent_POST in Hcall. eexists _, _, data. split; [exact Hcall|].
  request_keys Hps.
  assert (JS.lookup "action" params = None) as Haction
    by (apply (lookup_undeclared props params _ "action" Hp);
        simpl; intuition discriminate).
  assert (forall k fs,
            In (k, fs) Schema.add_address ->
            k <> "integration_key" ->
            exists s,
              JS.get (build_body (JS.spread [("action", VStr "add")] params)
                        (JS.or
                           (JS.get (JS.spread [("action", VStr "add")] params)
                              "integration_key")
                           (VStr DEFAULT_KEY))) k = VStr s
              /\ (JS.get props k = VStr s
                  \/ (JS.get props k = VUndef /\ fs = string_default s))) as Hfields.
  { intros k fs Hk Hne. specialize (Hty k fs Hk).
    rewrite (get_build_body _ _ _ Hps).
    apply String.eqb_neq in Hne. rewrite Hne. cbn [andb].
    simpl in Hk.
    repeat
      (destruct Hk as [Hk|Hk];
       [ inversion Hk; subst k fs; clear Hk;
         rewrite get_spread_fresh by (first [assumption|reflexivity]);
         first
           [ apply parse_ZString in Hty; destruct Hty as (s & Hv & ->);
             exists s; split; [reflexivity|left; exact Hv]
           | apply parse_string_default in Hty;
             destruct Hty as [[Hv ->]|(s & Hv & ->)];
             eexists; (split; [reflexivity|]);
             [right; split; [exact Hv|reflexivity]|left; exact Hv]
           | discriminate ]
       | ]).
    contradiction. }
  split; [|split; [exact Hfields|]].
  - rewrite (lookup_build_body _ _ _ Hps). cbn [String.eqb Ascii.eqb Bool.eqb andb].
    rewrite (lookup_spread _ _ _ Hpnd), Haction. reflexivity.
  - intros Htype.
    destruct (Hfields "type" (string_default "shipper")) as (s & Hs & Hcase);
      [simpl; tauto|discriminate|].
    rewrite Hs. destruct Hcase as [Hv|[_ Hd]]; [congruence|].
    inversion Hd. reflexivity.
Qed.

(** ** Pickups and rates *)

(** X7: an accepted schedule_pickup call posts the order and the
    carrier type as given, the label d and a meta object; the pickup
    date and time are never fields of the body itself: each is a
    field of meta when the caller gave it non-empty and is left out
    of meta otherwise, and meta has no other field. *)
Theorem schedule_pickup_builds_meta :
  forall (props : obj) (log : list outbound),
    accepts "schedule_pickup" (VObj props) = true ->
    exists url body meta data,
      call_tool "schedule_pickup" (VObj props) log
      = (Returned (text_content data), (log ++ [OutPost url body])%list)
      /\ JS.lookup "order_id" body = Some (JS.get props "order_id")
      /\ JS.lookup "carrier_type" body = Some (JS.get props "carrier_type")
      /\ JS.lookup "label" body = Some (VStr "d")
      /\ JS.lookup "meta" body = Some (VObj meta)
      /\ JS.lookup "pickup_date" body = None
      /\ JS.lookup "pickup_time" body = None
      /\ (forall k,
            k = "pickup_date" \/ k = "pickup_time" ->
            JS.lookup k meta
            = if JS.truthy (JS.get props k) then Some (JS.get props k) else None)
      /\ (forall k,
            k <> "pickup_date" -> k <> "pickup_time" -> JS.lookup k meta = None).
Proof.
  intros props log Hacc.
  destruct (accepts_inv _ _ Hacc)
    as (t & props' & params & Hfind & Hin & Hname & Hargs & Hp & Hval).
  inversion Hargs; subst props'; clear Hargs.
  pose proof (schemas_distinct t Hin) as Hnd.
  pose proof (parse_fields_get _ _ params Hnd Hp) as Hty.
  pin_tool Hfind t. clear Hin Hname.
  assert (Horder := Hty "order_id" _ ltac:(in_list)).
  assert (Hcarrier := Hty "carrier_type" _ ltac:(in_list)).
  assert (Hdate := Hty "pickup_date" _ ltac:(in_list)).
  assert (Htime := Hty "pickup_time" _ ltac:(in_list)).
  apply parse_ZString in Horder, Hcarrier.
  apply parse_opt_string in Hdate, Htime.
  destruct Horder as (? & Horder & Horder'), Hcarrier as (? & Hcarrier & Hcarrier').
  destruct Hdate as [Hdate _], Htime as [Htime _].
  relay Hfind Hval Hp params log data Hcall.
  rewrite sent_POST in Hcall.
  rewrite Horder', Hcarrier', Hdate, Htime in Hcall.
  rewrite <- Horder, <- Hcarrier in Hcall.
  eexists _, _, _, data. split; [exact Hcall|].
  request_keys Hps.
  rewrite !(lookup_build_body _ _ _ Hps).
  cbn [String.eqb Ascii.eqb Bool.eqb andb]. lookup_fields.
  do 6 (split; [reflexivity|]).
  split.
  - intros k [-> | ->];
      destruct (JS.truthy (JS.get props "pickup_date"));
      destruct (JS.truthy (JS.get props "pickup_time")); reflexivity.
  - intros k Hd Ht.
    apply not_eq_sym in Hd, Ht. apply String.eqb_neq in Hd, Ht.
    destruct (JS.truthy (JS.get props "pickup_date"));
      destruct (JS.truthy (JS.get props "pickup_time"));
      cbn [JS.set String.eqb Ascii.eqb Bool.eqb]; cbn [JS.lookup];
      rewrite ?Hd, ?Ht; reflexivity.
Qed.

(** X8: an accepted get_shipping_rates call posts the receiver address
    as one nested object, not flattened: its five required fields as
    given, its name and address2 as given or empty when omitted, and
    no field the schema does not declare; the account id is in the
    body as given and is undefined, hence not serialized, when
    omitted. *)
Theorem get_shipping_rates_nests_address :
  forall (props rp : obj) (log : list outbound),
    accepts "get_shipping_rates" (VObj props) = true ->
    JS.get props "receiver_address" = VObj rp ->
    exists url body ra data,
      call_tool "get_shipping_rates" (VObj props) log
      = (Returned (text_content data), (log ++ [OutPost url body])%list)
      /\ JS.lookup "receiver_address" body = Some (VObj ra)
      /\ (forall k,
            In k ["address1"; "city"; "state"; "postal"; "country"] ->
            JS.get ra k = JS.get rp k)
      /\ (forall k,
            k = "name" \/ k = "address2" ->
            JS.get ra k
            = match JS.get rp k with VUndef => VStr "" | v => v end)
      /\ (forall k,
            ~ In k (map fst Schema.receiver_fields) -> JS.lookup k ra = None)
      /\ JS.get body "account_id" = JS.get props "account_id".
Proof.
  intros props rp log Hacc Hrp.
  destruct (accepts_inv _ _ Hacc)
    as (t & props' & params & Hfind & Hin & Hname & Hargs & Hp & Hval).
  inversion Hargs; subst props'; clear Hargs.
  pose proof (schemas_distinct t Hin) as Hnd.
  pose proof (parse_fields_get _ _ params Hnd Hp) as Hty.
  pin_tool Hfind t. clear Hin Hname.
  assert (Haddr := Hty "receiver_address" _ ltac:(in_list)).
  assert (Hacct := Hty "account_id" _ ltac:(in_list)).
  rewrite Hrp in Haddr. unfold Schema.receiver_address in Haddr.
  apply parse_ZObject in Haddr.
  destruct Haddr as (rp' & ra & Heq & Hra & Hfields).
  inversion Heq; subst rp'; clear Heq.
  assert (NoDup (map fst Schema.receiver_fields)) as Hrnd by distinct_keys.
  pose proof (parse_fields_get rp _ ra Hrnd Hfields) as Hrty.
  assert (JS.get params "account_id" = JS.get props "account_id") as Hacct'.
  { destruct (JS.get props "account_id"); simpl in Hacct; congruence. }
  relay Hfind Hval Hp params log data Hcall.
  rewrite sent_POST in Hcall. rewrite Hra, Hacct' in Hcall.
  eexists _, _, ra, data. split; [exact Hcall|].
  request_keys Hps.
  rewrite (lookup_build_body _ _ _ Hps), (get_build_body _ _ _ Hps).
  cbn [String.eqb Ascii.eqb Bool.eqb andb]. lookup_fields.
  split; [reflexivity|]. split; [|split; [|split]].
  - intros k Hk. simpl in Hk.
    repeat
      (destruct Hk as [<-|Hk];
       [ match goal with
         | |- JS.get ra ?k = _ =>
             pose proof (Hrty k ZString ltac:(in_list)) as H;
             apply parse_ZString in H; destruct H as (s & -> & ->); reflexivity
         end
       | ]).
    contradiction.
  - intros k [-> | ->];
      match goal with
      | |- JS.get ra ?k = _ =>
          pose proof (Hrty k (string_default "") ltac:(in_list)) as H;
          apply parse_string_default in H;
          destruct H as [[-> ->]|(s & -> & ->)]; reflexivity
      end.
  - intros k Hk. now apply (lookup_undeclared rp ra _ k Hfields).
  - unfold JS.get. lookup_fields. reflexivity.
Qed.

(** ** The default key next to the explicit one *)

Lemma body_without_key (ps : obj) :
  NoDup (JS.keys ps) ->
  JS.lookup "integration_key" ps = None ->
  JS.lookup "integration_key"
    (build_body ps (JS.or (JS.get ps "integration_key") (VStr DEFAULT_KEY)))
  = if String.eqb DEFAULT_KEY "" then None else Some (VStr DEFAULT_KEY).
Proof.
  intros Hps Hnone. rewrite (lookup_build_body _ _ _ Hps).
  unfold JS.get. rewrite Hnone.
  cbn [String.eqb Ascii.eqb Bool.eqb andb JS.or JS.truthy negb].
  rewrite andb_true_r. now destruct (String.eqb DEFAULT_KEY "").
Qed.

(** X9: the three tools that write the key as integrated_key send
    there the explicit key when it is non-empty and the default key
    otherwise; [shipiRequest], which finds no integration_key among
    their parameters, adds the default key to the same body as
    integration_key whenever the default is non-empty, also when the
    call gave an explicit key; with an empty default the body has no
    integration_key. *)
Theorem integrated_key_tools_also_send_default :
  forall (name : string) (props : obj) (log : list outbound),
    name = "create_shipment" \/ name = "cancel_shipment" \/ name = "schedule_pickup" ->
    accepts name (VObj props) = true ->
    exists url body data,
      call_tool name (VObj props) log
      = (Returned (text_content data), (log ++ [OutPost url body])%list)
      /\ JS.lookup "integrated_key" body
         = Some (JS.or (JS.get props "integration_key") (VStr DEFAULT_KEY))
      /\ (DEFAULT_KEY <> "" ->
          JS.lookup "integration_key" body = Some (VStr DEFAULT_KEY))
      /\ (DEFAULT_KEY = "" -> JS.lookup "integration_key" body = None).
Proof.
  intros name props log Hname Hacc.
  destruct (accepts_inv _ _ Hacc)
    as (t & props' & params & Hfind & Hin & _ & Hargs & Hp & Hval).
  inversion Hargs; subst props'; clear Hargs.
  pose proof (schemas_distinct t Hin) as Hnd.
  destruct Hname as [-> | [-> | ->]];
    pin_tool Hfind t; clear Hin;
    destruct (key_validated props params _ Hnd ltac:(in_list) Hp) as [Hk _];
    relay Hfind Hval Hp params log data Hcall;
    rewrite sent_POST in Hcall; rewrite Hk in Hcall;
    eexists _, _, data; (split; [exact Hcall|]);
    request_keys Hps;
    rewrite (body_without_key _ Hps eq_refl);
    rewrite (lookup_build_body _ _ _ Hps);
    cbn [String.eqb Ascii.eqb Bool.eqb andb]; lookup_fields;
    (split; [reflexivity|]);
    (split; intros Hd;
     [ apply String.eqb_neq in Hd; rewrite Hd; reflexivity
     | rewrite Hd; reflexivity ]).
Qed.

(** ** Defaults in the query string *)

(** X10: in an accepted call of a GET-based tool, a parameter that the
    schema declares with a default and the caller omits is in the
    query string with the default as its value (page 1, per_page 20,
    limit 20 or 50, printed all, period month), unless the default is
    the empty string, as for the carrier of track_shipment, which is
    then left out. *)
Theorem omitted_parameters_take_defaults :
  forall (name : string) (props : obj) (log : list outbound)
         (t : tool) (k : string) (inner : schema) (d : value),
    In name get_tools ->
    accepts name (VObj props) = true ->
    find_tool name = Some t ->
    In (k, ZDefault inner d) (tool_schema t) ->
    JS.lookup k props = None ->
    exists url qs data,
      call_tool name (VObj props) log
      = (Returned (text_content data), (log ++ [OutGet url qs])%list)
      /\ URLSearchParams.get k qs
         = if present d then Some (JS.to_string d) else None.
Proof.
  intros name props log t0 k inner d Hget Hacc Hfind0 Hk Hmiss.
  destruct (accepts_inv _ _ Hacc)
    as (t & props' & params & Hfind & Hin & Hname & Hargs & Hp & Hval).
  inversion Hargs; subst props'; clear Hargs.
  rewrite Hfind in Hfind0. inversion Hfind0; subst t0; clear Hfind0.
  pose proof (schemas_distinct t Hin) as Hnd.
  pose proof (parse_fields_NoDup _ _ params Hnd Hp) as Hpnd.
  pose proof (parse_fields_get _ _ params Hnd Hp k _ Hk) as Hty.
  unfold JS.get in Hty at 1. rewrite Hmiss in Hty.
  simpl in Hin.
  repeat
    (destruct Hin as [<-|Hin];
     [ simpl in Hname; subst name;
       first
         [ exfalso; simpl in Hget;
           repeat (destruct Hget as [Hget|Hget]; [discriminate|]); exact Hget
         | relay Hfind Hval Hp params log data Hcall;
           rewrite sent_GET in Hcall;
           eexists _, _, data; (split; [exact Hcall|]);
           request_keys Hps;
           rewrite (qs_get_build_query k _ _ Hps);
           cbn [tool_schema] in Hk; simpl in Hk;
           unfold opt_string, opt_number, string_default, number_default in Hk;
           repeat
             (destruct Hk as [Hk|Hk];
              [ first
                  [ discriminate Hk
                  | inversion Hk; subst k inner d; clear Hk;
                    simpl in Hty; inversion Hty as [Hdefault];
                    rewrite ?get_spread_fresh by (first [assumption|reflexivity]);
                    rewrite <- ?Hdefault;
                    name_parameters params;
                    unfold JS.or;
                    cbn [JS.get JS.lookup String.eqb Ascii.eqb Bool.eqb andb present
                           JS.truthy JS.to_string negb];
                    rewrite ?andb_false_r; reflexivity ]
              | ]);
           contradiction ]
     | ]).
  contradiction.
Qed.

(** ** The body of a POST on any parameters *)

(** X11: a POST of [shipiRequest] sends every parameter as it is: no
    parameter other than integration_key is dropped, added or changed,
    and the keys of the body stay distinct.  A truthy integration_key
    of the parameters is kept; a missing or falsy one is replaced by
    the default key when the default is non-empty, and left as it is
    otherwise. *)
Theorem post_body_keeps_parameters :
  forall (endpoint : string) (params : obj) (log : list outbound),
    NoDup (JS.keys params) ->
    exists data url body,
      shipiRequest endpoint params "POST" log
      = (Ok data, (log ++ [OutPost url body])%list)
      /\ NoDup (JS.keys body)
      /\ (forall k, k <> "integration_key" -> JS.lookup k body = JS.lookup k params)
      /\ (JS.truthy (JS.get params "integration_key") = true ->
          JS.lookup "integration_key" body = JS.lookup "integration_key" params)
      /\ (JS.truthy (JS.get params "integration_key") = false ->
          JS.lookup "integration_key" body
          = if String.eqb DEFAULT_KEY ""
            then JS.lookup "integration_key" params
            else Some (VStr DEFAULT_KEY)).
Proof.
  intros endpoint params log Hnd.
  destruct (shipiRequest_run endpoint params "POST" log eq_refl) as (data & Hrun).
  rewrite sent_POST in Hrun. eexists data, _, _. split; [exact Hrun|].
  split; [|split; [|split]].
  - unfold build_body.
    destruct (JS.truthy _ && negb _);
      [apply NoDup_keys_set|]; apply NoDup_keys_spread; constructor.
  - intros k Hk. rewrite (lookup_build_body _ _ _ Hnd).
    apply String.eqb_neq in Hk. now rewrite Hk.
  - intros Htruthy. rewrite (lookup_build_body _ _ _ Hnd), Htruthy.
    cbn [negb]. now rewrite andb_false_r.
  - intros Hfalsy. rewrite (lookup_build_body _ _ _ Hnd).
    unfold JS.or. rewrite Hfalsy.
    cbn [String.eqb Ascii.eqb Bool.eqb andb negb JS.truthy].
    rewrite andb_true_r. now destruct (String.eqb DEFAULT_KEY "").
Qed.

End Server.

(** ** The status of the response *)

Section Status.

Variable process_env : string -> option string.
Variable JSON_parse : string -> option value.
Variables fetch1 fetch2 : string -> RequestInit -> result Response.
Hypothesis fetch_same :
  forall url init, same_but_status (fetch1 url init) (fetch2 url init).

Lemma shipiRequest_same_but_status
  (endpoint : string) (params : obj) (method : string) (log : list outbound) :
  shipiRequest process_env fetch1 JSON_parse endpoint params method log
  = shipiRequest process_env fetch2 JSON_parse endpoint params method log.
Proof.
  destruct (sends process_env params method) eqn:Hs.
  - rewrite (shipiRequest_sends process_env fetch1 JSON_parse _ _ _ _ Hs),
      (shipiRequest_sends process_env fetch2 JSON_parse _ _ _ _ Hs).
    unfold try_catch, bind, node_fetch, response_text.
    match goal with
    | |- context [fetch1 ?u ?i] =>
        pose proof (fetch_same u i) as H;
        destruct (fetch1 u i) as [r1|e1], (fetch2 u i) as [r2|e2];
        simpl in H; try contradiction; subst; try rewrite H; reflexivity
    end.
  - now rewrite (shipiRequest_unconvertible process_env fetch1 JSON_parse _ _ _ _ Hs),
      (shipiRequest_unconvertible process_env fetch2 JSON_parse _ _ _ _ Hs).
Qed.

Lemma find_tool_same_but_status (name : string) :
  match find_tool process_env fetch1 JSON_parse name,
        find_tool process_env fetch2 JSON_parse name with
  | Some t1, Some t2 =>
      tool_schema t1 = tool_schema t2
      /\ forall params log, tool_handler t1 params log = tool_handler t2 params log
  | None, None => True
  | _, _ => False
  end.
Proof.
  unfold find_tool, server_tools. cbn [find_tool_in tool_name].
  repeat
    match goal with
    | |- context [if String.eqb ?x name then _ else _] =>
        destruct (String.eqb x name);
        [ split; [reflexivity|];
          intros params log; cbn [tool_handler];
          first
            [ unfold create_shipment_handler, bind;
              destruct (create_shipment_meta _ _ _ _ _ log) as [[meta|e] log'];
              [rewrite shipiRequest_same_but_status|]; reflexivity
            | unfold get_shipping_rates_handler, bind;
              destruct (array_map _ _ log) as [[prods|e] log'];
              [rewrite shipiRequest_same_but_status|]; reflexivity
            | unfold list_shipments_handler, get_shipment_handler,
                search_shipments_handler, cancel_shipment_handler,
                schedule_pickup_handler, track_shipment_handler,
                fetch_labels_handler, list_addresses_handler, get_address_handler,
                add_address_handler, edit_address_handler, delete_address_handler,
                list_carriers_handler, get_carrier_handler, get_account_info_handler,
                get_shipping_stats_handler, bind;
              rewrite shipiRequest_same_but_status; reflexivity ]
        | ]
    end.
  exact I.
Qed.

Lemma call_tool_same_but_status (name : string) (args : value) (log : list outbound) :
  call_tool process_env fetch1 JSON_parse name args log
  = call_tool process_env fetch2 JSON_parse name args log.
Proof.
  unfold call_tool. pose proof (find_tool_same_but_status name) as H.
  destruct (find_tool process_env fetch1 JSON_parse name) as [t1|],
           (find_tool process_env fetch2 JSON_parse name) as [t2|];
    try contradiction; [|reflexivity].
  destruct H as [Hschema Hhandler].
  unfold validate. rewrite Hschema.
  destruct (parse (ZObject (tool_schema t2)) args) as [[| | | | | |params]|]; try reflexivity.
  now rewrite Hhandler.
Qed.

End Status.

(** C10: the status of the response is ignored.  Two backends whose
    answers differ in nothing but the status give every call of every
    tool the same outcome and the same request; a response whose body
    parses as JSON gives the parsed body as the result of the tool
    whatever its status; and the result is always one of three: the
    parsed body, the structured error of a body that is not JSON, or
    the structured error of a failed request. *)
Theorem status_is_ignored :
  forall (process_env : string -> option string)
         (JSON_parse : string -> option value)
         (fetch1 fetch2 : string -> RequestInit -> result Response),
    (forall url init, same_but_status (fetch1 url init) (fetch2 url init)) ->
    forall (name : string) (args : value) (log : list outbound),
      call_tool process_env fetch1 JSON_parse name args log
      = call_tool process_env fetch2 JSON_parse name args log
      /\ (accepts process_env fetch1 JSON_parse name args = true ->
          exists o data,
            call_tool process_env fetch1 JSON_parse name args log
            = (Returned (text_content data), (log ++ [o])%list)
            /\ (forall status text parsed,
                  answer fetch1 o = Ok {| resp_status := status; resp_text := Ok text |} ->
                  JSON_parse text = Some parsed ->
                  data = parsed)
            /\ ((exists r text,
                   answer fetch1 o = Ok r /\ resp_text r = Ok text
                   /\ JSON_parse text = Some data)
                \/ (exists r text,
                      answer fetch1 o = Ok r /\ resp_text r = Ok text
                      /\ JSON_parse text = None
                      /\ data = VObj [("status", VStr "error");
                                      ("message", VStr "Invalid JSON response");
                                      ("raw", VStr (JS.substring0 500 text))])
                \/ (exists e,
                      (answer fetch1 o = Throw e
                       \/ exists r, answer fetch1 o = Ok r /\ resp_text r = Throw e)
                      /\ data = VObj [("status", VStr "error");
                                      ("message", VStr ("Request failed: " ++ e))]))).
Proof.
  intros process_env JSON_parse fetch1 fetch2 Hsame name args log. split.
  - now apply call_tool_same_but_status.
  - intros Hacc.
    destruct (call_tool_accepted process_env fetch1 JSON_parse name args log Hacc)
      as (endpoint & ps & method & data & Hrun & Hcall).
    pose proof (run_sends process_env fetch1 JSON_parse _ _ _ _ _ _ Hrun) as Hsends.
    exists (sent process_env endpoint ps method), data.
    split; [assumption|]. split.
    + intros status text parsed Hans Hparse.
      rewrite (shipiRequest_json process_env fetch1 JSON_parse _ _ _ _ _ text parsed
                 Hsends Hans eq_refl Hparse) in Hrun.
      now inversion Hrun.
    + destruct (answer fetch1 (sent process_env endpoint ps method)) as [r|e] eqn:Hans.
      * destruct (resp_text r) as [text|e] eqn:Htext.
        -- destruct (JSON_parse text) as [parsed|] eqn:Hparse.
           ++ rewrite (shipiRequest_json process_env fetch1 JSON_parse _ _ _ _ r text parsed
                         Hsends Hans Htext Hparse) in Hrun.
              inversion Hrun; subst. left. eauto.
           ++ rewrite (shipiRequest_not_json process_env fetch1 JSON_parse _ _ _ _ r text
                         Hsends Hans Htext Hparse) in Hrun.
              inversion Hrun; subst. right. left. exists r, text. auto.
        -- rewrite (shipiRequest_body_error process_env fetch1 JSON_parse _ _ _ _ r e
                      Hsends Hans Htext) in Hrun.
           inversion Hrun; subst. right. right. exists e. split; [|reflexivity].
           right. eauto.
      * rewrite (shipiRequest_network_error process_env fetch1 JSON_parse _ _ _ _ e
           Hsends Hans) in Hrun.
        inversion Hrun; subst. right. right. exists e. split; [|reflexivity]. now left.
Qed.

(** * The server on concrete backends *)

Example stringify_compact :
  JSON.stringify (VObj [("integrated_key", VStr "k"); ("del_ref", VNum 42); ("x", VUndef)])
  = Some ("{" ++ JSON.quote "integrated_key" ++ ":" ++ JSON.quote "k" ++ ","
              ++ JSON.quote "del_ref" ++ ":42}").
Proof. vm_compute. reflexivity. Qed.

Example stringify_indented :
  JSON.stringify_indent2 (VArr [VBool true; VNull; VNum 42])
  = Some ("[" ++ JSON.newline ++ "  true," ++ JSON.newline ++ "  null,"
              ++ JSON.newline ++ "  42" ++ JSON.newline ++ "]").
Proof. vm_compute. reflexivity. Qed.

Example parse_html : Mock.JSON_parse "<html>error</html>" = None.
Proof. vm_compute. reflexivity. Qed.

Example parse_array :
  Mock.JSON_parse "[true, null, 42]" = Some (VArr [VBool true; VNull; VNum 42]).
Proof. vm_compute. reflexivity. Qed.

(** The request of cancel_shipment with shipment_id 42, on the wire. *)
Example cancel_shipment_on_the_wire :
  map wire
    (snd (call_tool (Mock.env None) (Mock.offline "down") Mock.JSON_parse
            "cancel_shipment" (VObj [("shipment_id", VNum 42)]) []))
  = [ ("https://app.myshipi.com/cancel_api/delete_shipment.php",
       {| init_method := "POST";
          init_headers := [("Content-Type", "application/json");
                           ("Accept", "application/json")];
          init_body :=
            Some ("{" ++ JSON.quote "integrated_key" ++ ":" ++ JSON.quote "" ++ ","
                      ++ JSON.quote "del_ref" ++ ":42}") |}) ].
Proof. vm_compute. reflexivity. Qed.

(** The request of list_shipments with an empty status filter, on the wire. *)
Example list_shipments_on_the_wire :
  map wire
    (snd (call_tool (Mock.env (Some "D")) (Mock.offline "down") Mock.JSON_parse
            "list_shipments"
            (VObj [("status", VStr ""); ("carrier", VStr "fed ex")]) []))
  = [ ("https://app.myshipi.com/api/v1/shipments.php?integration_key=D&action=list&page=1&per_page=20&carrier=fed+ex",
       {| init_method := "GET";
          init_headers := [("Accept", "application/json")];
          init_body := None |}) ].
Proof. vm_compute. reflexivity. Qed.

(** ** Where the claims on the key and on the query fail as stated *)

(** C1 as stated fails: with the default key D, track_shipment called
    with the explicit key K sends D and not K; list_carriers called
    with the explicit empty key sends D; and cancel_shipment called
    with K sends K as integrated_key and, next to it, the default D as
    integration_key. *)
Lemma explicit_key_counterexample :
  (snd (call_tool (Mock.env (Some "D")) (Mock.offline "down") Mock.JSON_parse
          "track_shipment"
          (VObj [("tracking_number", VStr "1Z"); ("integration_key", VStr "K")]) [])
   = [ OutGet "https://app.myshipi.com/api/v1/tracking_url.php"
         [("integration_key", "D"); ("tracking_number", "1Z")] ]
   /\ carried "integration_key"
        (OutGet "https://app.myshipi.com/api/v1/tracking_url.php"
           [("integration_key", "D"); ("tracking_number", "1Z")])
      <> Some "K")
  /\ (snd (call_tool (Mock.env (Some "D")) (Mock.offline "down") Mock.JSON_parse
             "list_carriers" (VObj [("integration_key", VStr "")]) [])
      = [ OutGet "https://app.myshipi.com/api/v1/carriers.php"
            [("integration_key", "D"); ("action", "list")] ]
      /\ carried "integration_key"
           (OutGet "https://app.myshipi.com/api/v1/carriers.php"
              [("integration_key", "D"); ("action", "list")])
         <> Some "")
  /\ (snd (call_tool (Mock.env (Some "D")) (Mock.offline "down") Mock.JSON_parse
             "cancel_shipment"
             (VObj [("shipment_id", VNum 42); ("integration_key", VStr "K")]) [])
      = [ OutPost "https://app.myshipi.com/cancel_api/delete_shipment.php"
            [ ("integrated_key", VStr "K"); ("del_ref", VNum 42);
              ("integration_key", VStr "D") ] ]
      /\ carried "integration_key"
           (OutPost "https://app.myshipi.com/cancel_api/delete_shipment.php"
              [ ("integrated_key", VStr "K"); ("del_ref", VNum 42);
                ("integration_key", VStr "D") ])
         = Some "D").
Proof.
  repeat split; try (vm_compute; reflexivity); vm_compute; discriminate.
Qed.

(** C7 as stated fails: list_carriers called without arguments has an
    undefined integration_key parameter, and with the default key D
    the query string of its request has integration_key all the same. *)
Lemma omitted_key_counterexample :
  validate
    {| tool_name := "list_carriers"; tool_schema := Schema.list_carriers;
       tool_handler :=
         list_carriers_handler (Mock.env (Some "D")) (Mock.offline "down")
           Mock.JSON_parse |}
    (VObj [])
  = Some []
  /\ JS.get [] "integration_key" = VUndef
  /\ snd (call_tool (Mock.env (Some "D")) (Mock.offline "down") Mock.JSON_parse
            "list_carriers" (VObj []) [])
     = [ OutGet "https://app.myshipi.com/api/v1/carriers.php"
           [("integration_key", "D"); ("action", "list")] ]
  /\ URLSearchParams.get "integration_key" [("integration_key", "D"); ("action", "list")]
     = Some "D"
  /\ fst (wire (OutGet "https://app.myshipi.com/api/v1/carriers.php"
                  [("integration_key", "D"); ("action", "list")]))
     = "https://app.myshipi.com/api/v1/carriers.php?integration_key=D&action=list".
Proof. vm_compute. repeat split; reflexivity. Qed.

(** ** The claims at concrete calls *)

Lemma integration_key_resolution_witness :
  exists o data,
    call_tool (Mock.env (Some "D")) (Mock.offline "down") Mock.JSON_parse
      "cancel_shipment"
      (VObj [("shipment_id", VNum 42); ("integration_key", VStr "K")]) []
    = (Returned (text_content data), [o])
    /\ carried "integrated_key" o = Some "K".
Proof.
  destruct (integration_key_resolution
              (Mock.env (Some "D")) (Mock.offline "down") Mock.JSON_parse
              "cancel_shipment"
              [("shipment_id", VNum 42); ("integration_key", VStr "K")] [])
    as (o & data & Hcall & Hexplicit & _); [reflexivity|].
  exists o, data. split; [exact Hcall|].
  apply (Hexplicit "K"); [discriminate|reflexivity|discriminate].
Defined.

Lemma create_shipment_flattens_addresses_witness :
  exists url body meta eo data,
    call_tool (Mock.env None) (Mock.offline "down") Mock.JSON_parse
      "create_shipment" (VObj Mock.create_args) []
    = (Returned (text_content data), [OutPost url body])
    /\ JS.lookup "meta" body = Some (VObj meta)
    /\ JS.lookup "s_name" meta = Some (VStr "Jane")
    /\ JS.lookup "s_city" meta = Some (VStr "NYC")
    /\ JS.lookup "products" meta = Some (VArr [VObj eo])
    /\ JS.lookup "prod_weight" eo = Some (VNum 5)
    /\ JS.lookup "prod_quantity" eo = Some (VNum 1).
Proof.
  destruct (create_shipment_flattens_addresses
              (Mock.env None) (Mock.offline "down") Mock.JSON_parse
              Mock.create_args
              [ ("name", VStr "Jane"); ("address1", VStr "1 Main"); ("city", VStr "NYC");
                ("state", VStr "NY"); ("postal", VStr "10001"); ("country", VStr "US") ]
              [ ("name", VStr "Omar"); ("company", VStr "Acme"); ("address1", VStr "9 Elm");
                ("city", VStr "LA"); ("state", VStr "CA"); ("postal", VStr "90001");
                ("country", VStr "US") ]
              [VObj [("weight", VNum 5)]] [])
    as (url & body & meta & prods & data & Hcall & Hmeta & _ & _ & Hs & _ & Hprods & Hall);
    [reflexivity|reflexivity|reflexivity|reflexivity|].
  destruct Hs as (Hname & _ & _ & _ & Hcity & _).
  inversion Hall as [|item e rest prods' Hhead Hrest]; subst.
  destruct Hhead as (po & eo & Hitem & He & Hw & Hq & _).
  inversion Hrest; subst. inversion Hitem; subst po.
  exists url, body, meta, eo, data.
  repeat split; assumption.
Defined.

Lemma cancel_shipment_sends_del_ref_witness :
  exists url body data,
    call_tool (Mock.env None) (Mock.offline "down") Mock.JSON_parse
      "cancel_shipment" (VObj [("shipment_id", VNum 42)]) []
    = (Returned (text_content data), [OutPost url body])
    /\ JS.lookup "del_ref" body = Some (VNum 42)
    /\ JS.lookup "shipment_id" body = None.
Proof.
  apply (cancel_shipment_sends_del_ref
           (Mock.env None) (Mock.offline "down") Mock.JSON_parse
           [("shipment_id", VNum 42)] 42 []); reflexivity.
Defined.

Lemma missing_required_parameter_witness :
  call_tool (Mock.env None) (Mock.offline "down") Mock.JSON_parse
    "search_shipments" (VObj [("limit", VNum 5)]) []
  = (ValidationError, []).
Proof.
  apply (missing_required_parameter_fails_validation
           (Mock.env None) (Mock.offline "down") Mock.JSON_parse
           "search_shipments"
           {| tool_name := "search_shipments";
              tool_schema := Schema.search_shipments;
              tool_handler :=
                search_shipments_handler (Mock.env None) (Mock.offline "down")
                  Mock.JSON_parse |}
           "q" ZString [("limit", VNum 5)] []).
  - reflexivity.
  - simpl. right. left. reflexivity.
  - reflexivity.
  - reflexivity.
Defined.

Lemma non_json_body_witness :
  fst (call_tool (Mock.env None) (Mock.backend 502 "<html>error</html>") Mock.JSON_parse
         "list_carriers" (VObj []) [])
  = Returned
      (text_content
         (VObj [("status", VStr "error");
                ("message", VStr "Invalid JSON response");
                ("raw", VStr "<html>error</html>")])).
Proof.
  destruct (non_json_body_is_structured_error
              (Mock.env None) (Mock.backend 502 "<html>error</html>") Mock.JSON_parse
              "list_carriers" (VObj []) [])
    as (o & _ & H); [reflexivity|].
  destruct (H {| resp_status := 502; resp_text := Ok "<html>error</html>" |}
              "<html>error</html>")
    as (raw & Hout & Hraw & _); [reflexivity|reflexivity|reflexivity|].
  rewrite Hout, Hraw. reflexivity.
Defined.

Lemma network_failure_witness :
  fst (call_tool (Mock.env None) (Mock.offline "connect ECONNREFUSED") Mock.JSON_parse
         "get_account_info" (VObj []) [])
  = Returned
      (text_content
         (VObj [("status", VStr "error");
                ("message", VStr "Request failed: connect ECONNREFUSED")])).
Proof.
  destruct (network_failure_is_structured_error
              (Mock.env None) (Mock.offline "connect ECONNREFUSED") Mock.JSON_parse
              "get_account_info" (VObj []) [])
    as (o & _ & H & _); [reflexivity|].
  apply (H "connect ECONNREFUSED"). reflexivity.
Defined.

Lemma get_query_omits_empty_parameters_witness :
  exists url qs data,
    call_tool (Mock.env None) (Mock.offline "down") Mock.JSON_parse
      "list_shipments" (VObj [("status", VStr ""); ("carrier", VStr "fedex")]) []
    = (Returned (text_content data), [OutGet url qs])
    /\ URLSearchParams.get "status" qs = None
    /\ URLSearchParams.get "carrier" qs = Some "fedex"
    /\ URLSearchParams.get "page" qs = Some "1"
    /\ URLSearchParams.get "integration_key" qs = None.
Proof.
  destruct (get_query_omits_empty_parameters
              (Mock.env None) (Mock.offline "down") Mock.JSON_parse
              "list_shipments" [("status", VStr ""); ("carrier", VStr "fedex")] [])
    as (t & params & url & qs & data & Hfind & Hval & Hcall & Hqs & Hkey);
    [left; reflexivity|reflexivity|].
  inversion Hfind; subst t; clear Hfind.
  inversion Hval; subst params; clear Hval.
  exists url, qs, data. split; [exact Hcall|].
  split; [|split; [|split]].
  - apply (Hqs "status" opt_string); [simpl; tauto|reflexivity|discriminate].
  - apply (Hqs "carrier" opt_string); [simpl; tauto|reflexivity].
  - apply (Hqs "page" (number_default 1)); [simpl; tauto|reflexivity].
  - apply Hkey. reflexivity.
Defined.

Lemma tool_output_witness :
  fst (call_tool (Mock.env None) (Mock.backend 200 "[true, null, 42]") Mock.JSON_parse
         "get_shipping_stats" (VObj []) [])
  = Returned
      (VObj [("content",
              VArr [VObj [("type", VStr "text");
                          ("text",
                           VStr ("[" ++ JSON.newline ++ "  true," ++ JSON.newline
                                     ++ "  null," ++ JSON.newline ++ "  42"
                                     ++ JSON.newline ++ "]"))]])]).
Proof.
  destruct (tool_output_is_serialized_result
              (Mock.env None) (Mock.backend 200 "[true, null, 42]") Mock.JSON_parse
              "get_shipping_stats" (VObj []) [])
    as (endpoint & ps & method & data & _ & Hcall & Hdata & _); [reflexivity|].
  rewrite Hcall.
  rewrite (Hdata {| resp_status := 200; resp_text := Ok "[true, null, 42]" |}
             "[true, null, 42]" (VArr [VBool true; VNull; VNum 42])
             eq_refl eq_refl eq_refl).
  reflexivity.
Defined.

Lemma product_defaults_witness :
  exists url body eo data,
    call_tool (Mock.env None) (Mock.offline "down") Mock.JSON_parse
      "get_shipping_rates" (VObj Mock.rates_args) []
    = (Returned (text_content data), [OutPost url body])
    /\ JS.lookup "products" body = Some (VArr [VObj eo])
    /\ JS.lookup "prod_quantity" eo = Some (VNum 1)
    /\ JS.lookup "prod_depth" eo = Some (VNum 1)
    /\ JS.lookup "prod_width" eo = Some (VNum 1)
    /\ JS.lookup "prod_height" eo = Some (VNum 1)
    /\ JS.lookup "prod_price" eo = Some (VNum 0).
Proof.
  destruct (product_defaults_replace_zero
              (Mock.env None) (Mock.offline "down") Mock.JSON_parse
              "get_shipping_rates" Mock.rates_args
              [VObj [ ("weight", VNum 2); ("quantity", VNum 0); ("price", VNum 0);
                      ("length", VNum 0); ("width", VNum 0); ("height", VNum 0) ]] [])
    as (url & body & prods & data & Hcall & _ & Hprods & Hall);
    [right; reflexivity|reflexivity|reflexivity|].
  inversion Hall as [|item e rest prods' Hhead Hrest]; subst.
  destruct Hhead as (po & eo & Hitem & He & Hq & Hl & Hw & Hh & Hp & _).
  inversion Hrest; subst. inversion Hitem; subst po.
  exists url, body, eo, data.
  split; [exact Hcall|]. split; [now apply Hprods|].
  split; [now apply Hq|]. split; [now apply Hl|]. split; [now apply Hw|].
  split; [now apply Hh|now apply Hp].
Defined.

Lemma status_is_ignored_witness :
  call_tool (Mock.env None) (Mock.backend 200 "[true, null, 42]") Mock.JSON_parse
    "list_carriers" (VObj []) []
  = call_tool (Mock.env None) (Mock.backend 500 "[true, null, 42]") Mock.JSON_parse
      "list_carriers" (VObj []) [].
Proof.
  apply (status_is_ignored
           (Mock.env None) Mock.JSON_parse
           (Mock.backend 200 "[true, null, 42]") (Mock.backend 500 "[true, null, 42]")).
  intros url init. reflexivity.
Defined.

(** ** The further properties at concrete calls *)

(** An empty array passes the test of the GET branch and becomes a
    parameter with an empty value. *)
Example empty_array_in_query :
  snd (shipiRequest (Mock.env None) (Mock.offline "down") Mock.JSON_parse
         "api/v1/stats.php" [("tags", VArr [])] "GET" [])
  = [OutGet "https://app.myshipi.com/api/v1/stats.php" [("tags", "")]].
Proof. vm_compute. reflexivity. Qed.

(** Without a shipper the handler of create_shipment throws and sends
    nothing. *)
Example create_shipment_handler_without_shipper :
  exists e,
    create_shipment_handler (Mock.env None) (Mock.offline "down") Mock.JSON_parse
      [("carrier_id", VNum 7)] []
    = (Throw e, []).
Proof. eexists. vm_compute. reflexivity. Qed.

Lemma get_query_names_unique_witness :
  exists data url qs,
    shipiRequest (Mock.env (Some "D")) (Mock.offline "down") Mock.JSON_parse
      "api/v1/shipments.php"
      [("q", VStr "x"); ("n", VNum 0); ("e", VStr ""); ("ok", VBool false)] "GET" []
    = (Ok data, [OutGet url qs])
    /\ NoDup (map fst qs)
    /\ Forall (fun p => snd p <> "") qs.
Proof.
  destruct (get_query_names_unique_values_nonempty
              (Mock.env (Some "D")) (Mock.offline "down") Mock.JSON_parse
              "api/v1/shipments.php"
              [("q", VStr "x"); ("n", VNum 0); ("e", VStr ""); ("ok", VBool false)] [])
    as (data & url & qs & Hrun & Hnames & Hvalues); [reflexivity|].
  exists data, url, qs. split; [exact Hrun|]. split; [exact Hnames|].
  apply Hvalues. repeat constructor.
Defined.

(** An object with a toString property of its own stops a GET before
    anything is sent. *)
Lemma shipiRequest_returns_and_sends_at_most_once_witness :
  shipiRequest (Mock.env None) (Mock.offline "down") Mock.JSON_parse
    "api/v1/stats.php" [("period", VObj [("toString", VNum 1)])] "GET" []
  = (Ok (VObj [("status", VStr "error");
               ("message",
                VStr "Request failed: Cannot convert object to primitive value")]),
     []).
Proof.
  apply (shipiRequest_returns_and_sends_at_most_once
           (Mock.env None) (Mock.offline "down") Mock.JSON_parse
           "api/v1/stats.php" [("period", VObj [("toString", VNum 1)])] "GET" []);
    reflexivity.
Defined.

Lemma handlers_send_at_most_once_witness :
  (exists data o,
     create_shipment_handler (Mock.env None) (Mock.offline "down") Mock.JSON_parse
       [("carrier_id", VNum 7)] []
     = (Ok (text_content data), [o]))
  \/ (In "create_shipment" get_tools
      /\ create_shipment_handler (Mock.env None) (Mock.offline "down") Mock.JSON_parse
           [("carrier_id", VNum 7)] []
         = (Ok (text_content (conversion_error)), []))
  \/ (("create_shipment" = "create_shipment" \/ "create_shipment" = "get_shipping_rates")
      /\ exists e,
           create_shipment_handler (Mock.env None) (Mock.offline "down") Mock.JSON_parse
             [("carrier_id", VNum 7)] []
           = (Throw e, [])).
Proof.
  apply (handlers_send_at_most_once
           (Mock.env None) (Mock.offline "down") Mock.JSON_parse
           {| tool_name := "create_shipment";
              tool_schema := Schema.create_shipment;
              tool_handler :=
                create_shipment_handler (Mock.env None) (Mock.offline "down")
                  Mock.JSON_parse |}
           [("carrier_id", VNum 7)] []).
  simpl. tauto.
Defined.

(** The handler of a GET-based tool, called outside the validator with
    such an object, sends nothing and returns the structured error. *)
Example get_shipping_stats_handler_unconvertible :
  get_shipping_stats_handler (Mock.env None) (Mock.offline "down") Mock.JSON_parse
    [("period", VObj [("toString", VNum 1)])] []
  = (Ok (text_content conversion_error), []).
Proof. vm_compute. reflexivity. Qed.

Lemma tool_routes_witness :
  exists o data,
    call_tool (Mock.env None) (Mock.offline "down") Mock.JSON_parse
      "delete_address" (VObj [("id", VNum 3); ("action", VStr "list")]) []
    = (Returned (text_content data), [o])
    /\ request_url o = "https://app.myshipi.com/api/v1/addresses.php"
    /\ init_method (snd (wire o)) = "POST"
    /\ carried "action" o = Some "delete".
Proof.
  destruct (tool_routes
              (Mock.env None) (Mock.offline "down") Mock.JSON_parse
              "delete_address" [("id", VNum 3); ("action", VStr "list")] [])
    as (endpoint & method & action & o & data & Hroute & Hcall & Hurl & Hmethod
        & Haction & _); [reflexivity|].
  simpl in Hroute.
  repeat (destruct Hroute as [Hroute|Hroute]; [try discriminate Hroute|]);
    [|contradiction].
  injection Hroute as He Hm Ha.
  rewrite <- He in Hurl. rewrite <- Hm in Hmethod. rewrite <- Ha in Haction.
  exists o, data.
  split; [exact Hcall|]. split; [exact Hurl|]. split; [exact Hmethod|exact Haction].
Defined.

Lemma edit_address_witness :
  exists url body data,
    call_tool (Mock.env None) (Mock.offline "down") Mock.JSON_parse
      "edit_address" (VObj [("id", VNum 3); ("city", VStr "LA"); ("zip", VStr "x")]) []
    = (Returned (text_content data), [OutPost url body])
    /\ JS.get body "city" = VStr "LA"
    /\ JS.get body "name" = VUndef
    /\ JS.lookup "zip" body = None.
Proof.
  destruct (edit_address_sends_given_fields
              (Mock.env None) (Mock.offline "down") Mock.JSON_parse
              [("id", VNum 3); ("city", VStr "LA"); ("zip", VStr "x")] [])
    as (url & body & data & Hcall & _ & Hgiven & Hother); [reflexivity|].
  exists url, body, data. split; [exact Hcall|]. split; [|split].
  - apply (Hgiven "city" opt_string); [simpl; tauto|discriminate].
  - apply (Hgiven "name" opt_string); [simpl; tauto|discriminate].
  - apply Hother; [simpl; intuition discriminate|discriminate].
Defined.

Lemma add_address_witness :
  exists url body data,
    call_tool (Mock.env None) (Mock.offline "down") Mock.JSON_parse
      "add_address"
      (VObj [ ("name", VStr "Omar"); ("address1", VStr "9 Elm"); ("city", VStr "LA");
              ("country", VStr "US"); ("postal", VStr "90001") ]) []
    = (Returned (text_content data), [OutPost url body])
    /\ JS.get body "type" = VStr "shipper".
Proof.
  destruct (add_address_sends_every_field
              (Mock.env None) (Mock.offline "down") Mock.JSON_parse
              [ ("name", VStr "Omar"); ("address1", VStr "9 Elm"); ("city", VStr "LA");
                ("country", VStr "US"); ("postal", VStr "90001") ] [])
    as (url & body & data & Hcall & _ & _ & Htype); [reflexivity|].
  exists url, body, data. split; [exact Hcall|]. now apply Htype.
Defined.

Lemma schedule_pickup_witness :
  exists url body meta data,
    call_tool (Mock.env None) (Mock.offline "down") Mock.JSON_parse
      "schedule_pickup"
      (VObj [ ("order_id", VStr "ORD-1"); ("carrier_type", VStr "fedex");
              ("pickup_date", VStr "2026-01-05"); ("pickup_time", VStr "") ]) []
    = (Returned (text_content data), [OutPost url body])
    /\ JS.lookup "meta" body = Some (VObj meta)
    /\ JS.lookup "pickup_date" meta = Some (VStr "2026-01-05")
    /\ JS.lookup "pickup_time" meta = None.
Proof.
  destruct (schedule_pickup_builds_meta
              (Mock.env None) (Mock.offline "down") Mock.JSON_parse
              [ ("order_id", VStr "ORD-1"); ("carrier_type", VStr "fedex");
                ("pickup_date", VStr "2026-01-05"); ("pickup_time", VStr "") ] [])
    as (url & body & meta & data & Hcall & _ & _ & _ & Hmeta & _ & _ & Hfields & _);
    [reflexivity|].
  exists url, body, meta, data. split; [exact Hcall|]. split; [exact Hmeta|].
  split; [apply (Hfields "pickup_date")|apply (Hfields "pickup_time")]; tauto.
Defined.

Lemma get_shipping_rates_address_witness :
  exists url body ra data,
    call_tool (Mock.env None) (Mock.offline "down") Mock.JSON_parse
      "get_shipping_rates" (VObj Mock.rates_args) []
    = (Returned (text_content data), [OutPost url body])
    /\ JS.lookup "receiver_address" body = Some (VObj ra)
    /\ JS.get ra "city" = VStr "LA"
    /\ JS.get ra "name" = VStr "".
Proof.
  destruct (get_shipping_rates_nests_address
              (Mock.env None) (Mock.offline "down") Mock.JSON_parse
              Mock.rates_args
              [ ("address1", VStr "9 Elm"); ("city", VStr "LA"); ("state", VStr "CA");
                ("postal", VStr "90001"); ("country", VStr "US") ] [])
    as (url & body & ra & data & Hcall & Haddr & Hreq & Hopt & _);
    [reflexivity|reflexivity|].
  exists url, body, ra, data. split; [exact Hcall|]. split; [exact Haddr|].
  split; [apply Hreq; simpl; tauto|apply (Hopt "name"); tauto].
Defined.

Lemma integrated_key_tools_witness :
  exists url body data,
    call_tool (Mock.env (Some "D")) (Mock.offline "down") Mock.JSON_parse
      "schedule_pickup"
      (VObj [ ("order_id", VStr "ORD-1"); ("carrier_type", VStr "fedex");
              ("integration_key", VStr "K") ]) []
    = (Returned (text_content data), [OutPost url body])
    /\ JS.lookup "integrated_key" body = Some (VStr "K")
    /\ JS.lookup "integration_key" body = Some (VStr "D").
Proof.
  destruct (integrated_key_tools_also_send_default
              (Mock.env (Some "D")) (Mock.offline "down") Mock.JSON_parse
              "schedule_pickup"
              [ ("order_id", VStr "ORD-1"); ("carrier_type", VStr "fedex");
                ("integration_key", VStr "K") ] [])
    as (url & body & data & Hcall & Hkey & Hdefault & _); [tauto|reflexivity|].
  exists url, body, data. split; [exact Hcall|]. split; [exact Hkey|].
  apply Hdefault. discriminate.
Defined.

Lemma omitted_parameters_witness :
  exists url qs data,
    call_tool (Mock.env None) (Mock.offline "down") Mock.JSON_parse
      "fetch_labels" (VObj [("page", VNum 3)]) []
    = (Returned (text_content data), [OutGet url qs])
    /\ URLSearchParams.get "printed" qs = Some "all".
Proof.
  apply (omitted_parameters_take_defaults
           (Mock.env None) (Mock.offline "down") Mock.JSON_parse
           "fetch_labels" [("page", VNum 3)] []
           {| tool_name := "fetch_labels";
              tool_schema := Schema.fetch_labels;
              tool_handler :=
                fetch_labels_handler (Mock.env None) (Mock.offline "down")
                  Mock.JSON_parse |}
           "printed" (ZOptional ZString) (VStr "all")).
  - simpl. tauto.
  - reflexivity.
  - reflexivity.
  - simpl. tauto.
  - reflexivity.
Defined.

Lemma post_body_witness :
  exists data url body,
    shipiRequest (Mock.env (Some "D")) (Mock.offline "down") Mock.JSON_parse
      "api/v1/addresses.php"
      [("action", VStr "delete"); ("id", VNum 3); ("integration_key", VUndef)] "POST" []
    = (Ok data, [OutPost url body])
    /\ JS.lookup "id" body = Some (VNum 3)
    /\ JS.lookup "integration_key" body = Some (VStr "D").
Proof.
  destruct (post_body_keeps_parameters
              (Mock.env (Some "D")) (Mock.offline "down") Mock.JSON_parse
              "api/v1/addresses.php"
              [("action", VStr "delete"); ("id", VNum 3); ("integration_key", VUndef)] [])
    as (data & url & body & Hrun & _ & Hsame & _ & Hfalsy).
  - repeat constructor; simpl; intuition discriminate.
  - exists data, url, body. split; [exact Hrun|]. split.
    + apply (Hsame "id"). discriminate.
    + apply Hfalsy. reflexivity.
Defined.
